(** * Exodus fee cache and fee history (src/exodus/fees.cpp)

    A shallow embedding of [CExodusFeeCache] and [CExodusFeeHistory]: the two
    LevelDB tables are finite maps from key strings to value strings, the
    values are produced with the text of [strprintf] and read back with
    [boost::split] and [boost::lexical_cast], and every member function is a
    computation in a state-and-abort monad over the node state. *)

From Stdlib Require Import ZArith Lia Bool Ascii String Decimal DecimalString
  DecimalPos DecimalN DecimalZ.
From stdpp Require Import base tactics option list gmap strings fin_maps sorting.

Local Open Scope Z_scope.

(** ** Machine integers

    [int] is 32 bits, [int64_t] 64 bits, [uint32_t] is carried by [N].
    Signed results that leave the range are reduced modulo the word size. *)

Module MachineInt.

Definition INT_MIN : Z := - 2 ^ 31.
Definition INT_MAX : Z := 2 ^ 31 - 1.
Definition INT64_MIN : Z := - 2 ^ 63.
Definition INT64_MAX : Z := 2 ^ 63 - 1.
Definition UINT32_MAX : N := (2 ^ 32 - 1)%N.

Definition is_int (z : Z) : Prop := INT_MIN <= z <= INT_MAX.
Definition is_int64 (z : Z) : Prop := INT64_MIN <= z <= INT64_MAX.
Definition is_uint32 (n : N) : Prop := (n <= UINT32_MAX)%N.

Definition to_int (z : Z) : Z := (z + 2 ^ 31) mod 2 ^ 32 - 2 ^ 31.
Definition to_int64 (z : Z) : Z := (z + 2 ^ 63) mod 2 ^ 64 - 2 ^ 63.
Definition to_uint32 (z : Z) : N := Z.to_N (z mod 2 ^ 32).

End MachineInt.
Export MachineInt.

(** ** Text: [strprintf], [boost::split], [boost::lexical_cast] *)

Module Text.

Definition str_empty (s : string) : bool :=
  match s with EmptyString => true | String _ _ => false end.

(** [s.resize(s.size() - 1)] on a non-empty string. *)
Fixpoint drop_last (s : string) : string :=
  match s with
  | EmptyString => EmptyString
  | String c EmptyString => EmptyString
  | String c r => String c (drop_last r)
  end.

(** [%d] of tinyformat, for a signed and for an unsigned argument. *)
Definition fmt_d (z : Z) : string := NilZero.string_of_int (Z.to_int z).
Definition fmt_u (n : N) : string := NilZero.string_of_uint (N.to_uint n).

Fixpoint zeros (n : nat) : string :=
  match n with O => EmptyString | S k => String "0" (zeros k) end.

(** [%010d] of an unsigned argument: zero padding up to ten characters. *)
Definition fmt_010d (n : N) : string :=
  let s := fmt_u n in zeros (10 - String.length s) +:+ s.

(** [boost::is_any_of(delims)] *)
Fixpoint is_any_of (delims : string) (c : ascii) : bool :=
  match delims with
  | EmptyString => false
  | String d r => if Ascii.eqb c d then true else is_any_of r c
  end.

(** [boost::split(out, s, pred, token_compress_on)]: the pieces between
    maximal runs of separator characters; an empty input gives one empty
    piece, a leading or trailing run gives an empty first or last piece.
    [skipping] says that the previous character was a separator. *)
Fixpoint split_from (pred : ascii -> bool) (skipping : bool) (s : string)
  : list string :=
  match s with
  | EmptyString => [EmptyString]
  | String c r =>
      if pred c then
        if skipping then split_from pred true r
        else EmptyString :: split_from pred true r
      else
        match split_from pred false r with
        | t :: ts => String c t :: ts
        | [] => [String c EmptyString]
        end
  end.

Definition split (delims : string) (s : string) : list string :=
  split_from (is_any_of delims) false s.

(** The digits of [boost::lexical_cast]: one or more decimal digits. *)
Definition digits_value (s : string) : option N :=
  N.of_uint <$> NilZero.uint_of_string s.

(** [boost::lexical_cast<T>] for a signed [T] with range [lo..hi]: an optional
    sign, then digits; [None] stands for [bad_lexical_cast]. *)
Definition lexical_cast_signed (lo hi : Z) (s : string) : option Z :=
  match s with
  | EmptyString => None
  | String c r =>
      if Ascii.eqb c "-" then
        m ← digits_value r;
        if Z.of_N m <=? - lo then Some (- Z.of_N m) else None
      else if Ascii.eqb c "+" then
        m ← digits_value r;
        if Z.of_N m <=? hi then Some (Z.of_N m) else None
      else
        m ← digits_value s;
        if Z.of_N m <=? hi then Some (Z.of_N m) else None
  end.

Definition lexical_cast_int : string -> option Z :=
  lexical_cast_signed INT_MIN INT_MAX.
Definition lexical_cast_int64 : string -> option Z :=
  lexical_cast_signed INT64_MIN INT64_MAX.

(** [boost::lexical_cast<uint32_t>]: a leading minus sign is accepted and the
    magnitude is negated modulo [2^32]. *)
Definition lexical_cast_uint32 (s : string) : option N :=
  match s with
  | EmptyString => None
  | String c r =>
      if Ascii.eqb c "-" then
        m ← digits_value r;
        if (m <=? UINT32_MAX)%N then Some (to_uint32 (- Z.of_N m)) else None
      else if Ascii.eqb c "+" then
        m ← digits_value r;
        if (m <=? UINT32_MAX)%N then Some m else None
      else
        m ← digits_value s;
        if (m <=? UINT32_MAX)%N then Some m else None
  end.

End Text.
Export Text.

(** ** [std::set] as a strictly increasing list

    A [std::set<T>] is kept as the list of its elements in iteration order
    ([begin()] first, [--end()] last).  [less] is [operator<] of [T]. *)

Module StdSet.

Class Less (A : Type) := less : A -> A -> bool.

Class LessOrder (A : Type) `{Less A} := {
  less_irrefl : forall x : A, less x x = false;
  less_trans : forall x y z : A,
    less x y = true -> less y z = true -> less x z = true;
  less_total : forall x y : A, less x y = false -> less y x = false -> x = y
}.

#[export] Instance Z_less : Less Z := Z.ltb.

(** [std::string::compare]: bytewise, a proper prefix is smaller. *)
Fixpoint string_lt (a b : string) : bool :=
  match a, b with
  | _, EmptyString => false
  | EmptyString, String _ _ => true
  | String x a', String y b' =>
      if (N_of_ascii x <? N_of_ascii y)%N then true
      else if (N_of_ascii y <? N_of_ascii x)%N then false
      else string_lt a' b'
  end.

#[export] Instance string_less : Less string := string_lt.

(** [operator<] of [std::pair]. *)
#[export] Instance pair_less {A B} `{Less A} `{Less B} : Less (A * B) :=
  fun p q =>
    less (fst p) (fst q) || (negb (less (fst q) (fst p)) && less (snd p) (snd q)).

(** [s.insert(x)]: no effect when an equivalent element is present. *)
Fixpoint set_insert {A} `{Less A} (x : A) (s : list A) : list A :=
  match s with
  | [] => [x]
  | y :: r =>
      if less x y then x :: s
      else if less y x then y :: set_insert x r
      else s
  end.

(** Inserting the elements of [l] one after the other into an empty set. *)
Definition set_of_list {A} `{Less A} (l : list A) : list A :=
  fold_left (fun s x => set_insert x s) l [].

Definition is_set {A} `{Less A} (s : list A) : Prop :=
  StronglySorted (fun x y => less x y = true) s.

End StdSet.
Export StdSet.

(** ** The node state and the collaborators of the fee code *)

(** Modelled from the spec: a fee cache entry is a (blockHeight,
    cumulativeCachedAmount) pair and a recipient an (address, amountReceived)
    pair.  The typedefs are in exodus/fees.h; the block is an [int] as in all
    of fees.cpp, the amounts are [int64_t]. *)
Definition feeCacheItem : Type := Z * Z.
Definition feeHistoryItem : Type := string * Z.

(** Constants, flags and functions that fees.cpp uses and other files of the
    node define; [W] is the state those functions work on (the tally map, the
    smart property database).  [update_tally_map] is the call with
    [TallyType BALANCE]; it returns its [bool] and the state it leaves. *)
Class Collaborators (W : Type) := {
  MAX_STATE_HISTORY : Z;
  EXODUS_FEE_THRESHOLD : Z;
  TEST_ECO_PROPERTY_1 : N;
  EXODUS_PROPERTY_EXODUS : N;
  EXODUS_PROPERTY_TEXODUS : N;
  exodus_debug_fees : bool;
  overrideforcedshutdown : bool;
  isTestEcosystemProperty : N -> bool;
  getTotalTokens : W -> N -> Z;
  peekNextSPID : W -> N -> N;
  STO_GetReceivers : W -> string -> N -> Z -> list (Z * string);
  update_tally_map : W -> string -> N -> Z -> bool * W
}.

Record State (W : Type) := mkState {
  feecache_db : gmap string string;        (* pdb of CExodusFeeCache *)
  feehistory_db : gmap string string;      (* pdb of CExodusFeeHistory *)
  distributionThresholds : gmap N Z;
  world : W;
  persist_exists : bool;                   (* the MP_persist directory *)
  log : list string                        (* PrintToLog of fatal messages *)
}.
Arguments mkState {W}.
Arguments feecache_db {W}.
Arguments feehistory_db {W}.
Arguments distributionThresholds {W}.
Arguments world {W}.
Arguments persist_exists {W}.
Arguments log {W}.

Inductive fault : Type :=
  | BadLexicalCast     (* boost::bad_lexical_cast leaves the function *)
  | AssertionFailed    (* assert(...) *)
  | NodeAborted.       (* AbortNode *)

Inductive outcome (S A : Type) : Type :=
  | Done (a : A) (s : S)
  | Abort (f : fault) (s : S).
Arguments Done {S A}.
Arguments Abort {S A}.

Definition M (W A : Type) : Type := State W -> outcome (State W) A.

Definition ret {W A} (a : A) : M W A := fun st => Done a st.
Definition bind {W A B} (m : M W A) (k : A -> M W B) : M W B :=
  fun st => match m st with
            | Done a st' => k a st'
            | Abort f st' => Abort f st'
            end.
Definition throw {W A} (f : fault) : M W A := fun st => Abort f st.
Definition get_state {W} : M W (State W) := fun st => Done st st.
Definition modify {W} (f : State W -> State W) : M W unit :=
  fun st => Done tt (f st).
Definition assert {W} (b : bool) : M W unit :=
  if b then ret tt else throw AssertionFailed.
Definition from_cast {W A} (o : option A) : M W A :=
  match o with Some a => ret a | None => throw BadLexicalCast end.

Notation "'let*' x ':=' m 'in' k" := (bind m (fun x => k))
  (at level 10, x name, m at level 100, k at level 200).
Notation "m ';;;' k" := (bind m (fun _ => k))
  (at level 100, k at level 200, right associativity).

Fixpoint for_each {W A} (l : list A) (body : A -> M W unit) : M W unit :=
  match l with
  | [] => ret tt
  | x :: r => body x ;;; for_each r body
  end.

Definition with_feecache_db {W} (f : gmap string string -> gmap string string)
  (st : State W) : State W :=
  mkState (f (feecache_db st)) (feehistory_db st) (distributionThresholds st)
    (world st) (persist_exists st) (log st).
Definition with_feehistory_db {W} (f : gmap string string -> gmap string string)
  (st : State W) : State W :=
  mkState (feecache_db st) (f (feehistory_db st)) (distributionThresholds st)
    (world st) (persist_exists st) (log st).
Definition with_thresholds {W} (f : gmap N Z -> gmap N Z)
  (st : State W) : State W :=
  mkState (feecache_db st) (feehistory_db st) (f (distributionThresholds st))
    (world st) (persist_exists st) (log st).
Definition with_world {W} (w : W) (st : State W) : State W :=
  mkState (feecache_db st) (feehistory_db st) (distributionThresholds st)
    w (persist_exists st) (log st).
Definition with_persist {W} (b : bool) (st : State W) : State W :=
  mkState (feecache_db st) (feehistory_db st) (distributionThresholds st)
    (world st) b (log st).
Definition with_log {W} (msg : string) (st : State W) : State W :=
  mkState (feecache_db st) (feehistory_db st) (distributionThresholds st)
    (world st) (persist_exists st) (log st ++ [msg]).

(** ** The member functions of fees.cpp

    Informational [PrintToLog]/[PrintToConsole] output and the [nWritten]
    statistics counter are left out; the fatal overflow message is kept in
    [log].  The stores are assumed open and their reads and writes to
    succeed ([assert(pdb)], [assert(status.ok())]). *)

Section FeeCode.
Context {W : Type} `{Collaborators W}.

Definition newline : string := String "010" EmptyString.

(** [strprintf("%d:%d", item.first, item.second)] *)
Definition fmt_cache_item (it : feeCacheItem) : string :=
  fmt_d (fst it) +:+ ":" +:+ fmt_d (snd it).

(** [if (!newValue.empty()) newValue += ","; newValue += strprintf(...)] *)
Definition readd (newValue : string) (tempItem : feeCacheItem) : string :=
  (if str_empty newValue then newValue else newValue +:+ ",")
  +:+ fmt_cache_item tempItem.

(** The loop of [GetCacheHistory] over the pieces of the stored value. *)
Fixpoint parse_cache_items (toks : list string) (acc : list feeCacheItem)
  : option (list feeCacheItem) :=
  match toks with
  | [] => Some acc
  | tok :: rest =>
      match split ":" tok with
      | [b; a] =>
          cacheItemBlock ← lexical_cast_int64 b;
          cacheItemAmount ← lexical_cast_int64 a;
          parse_cache_items rest
            (set_insert (to_int cacheItemBlock, cacheItemAmount) acc)
      | _ => parse_cache_items rest acc
      end
  end.

Definition GetCacheHistory (propertyId : N) : M W (list feeCacheItem) :=
  let key := fmt_010d propertyId in
  let* st := get_state in
  match feecache_db st !! key with
  | None => ret []
  | Some strValue => from_cast (parse_cache_items (split "," strValue) [])
  end.

(** [distributionThresholds[propertyId]]: [operator[]] of the [std::map]
    creates a zero entry for a key that is not there yet. *)
Definition threshold_entry (propertyId : N) : M W Z :=
  let* st := get_state in
  let v := default 0 (distributionThresholds st !! propertyId) in
  modify (with_thresholds (insert propertyId v)) ;;;
  ret v.

Definition GetDistributionThreshold (propertyId : N) : M W Z :=
  threshold_entry propertyId.

Definition UpdateDistributionThresholds (propertyId : N) : M W unit :=
  let* st := get_state in
  let distributionThreshold :=
    to_int64 (Z.quot (getTotalTokens (world st) propertyId) EXODUS_FEE_THRESHOLD) in
  let distributionThreshold :=
    if distributionThreshold <=? 0 then 1 else distributionThreshold in
  modify (with_thresholds (insert propertyId distributionThreshold)).

Definition GetCachedAmount (propertyId : N) : M W Z :=
  let* sCacheHistoryItems := GetCacheHistory propertyId in
  match last sCacheHistoryItems with
  | Some mostRecentItem => ret (snd mostRecentItem)
  | None => ret 0
  end.

Definition PruneCache (propertyId : N) (block : Z) : M W unit :=
  let pruneBlock := to_int (block - MAX_STATE_HISTORY) in
  let key := fmt_010d propertyId in
  let* sCacheHistoryItems := GetCacheHistory propertyId in
  match sCacheHistoryItems with
  | [] => ret tt
  | firstItem :: _ =>
      if pruneBlock <=? fst firstItem then ret tt
      else
        let newValue :=
          fold_left
            (fun newValue tempItem =>
               if (fst tempItem <? pruneBlock) && exodus_debug_fees
               then newValue
               else readd newValue tempItem)
            sCacheHistoryItems EmptyString in
        let newValue :=
          if str_empty newValue then
            match last sCacheHistoryItems with
            | Some mostRecentItem => fmt_cache_item mostRecentItem
            | None => newValue
            end
          else newValue in
        modify (with_feecache_db (insert key newValue))
  end.

Definition ClearCache (propertyId : N) (block : Z) : M W unit :=
  let key := fmt_010d propertyId in
  let* sCacheHistoryItems := GetCacheHistory propertyId in
  let newValue :=
    match sCacheHistoryItems with
    | [] => EmptyString
    | _ =>
        let newValue :=
          fold_left
            (fun newValue tempItem =>
               if fst tempItem =? block then newValue
               else readd newValue tempItem)
            sCacheHistoryItems EmptyString in
        if str_empty newValue then newValue else newValue +:+ ","
    end in
  let newValue := newValue +:+ fmt_cache_item (block, 0) in
  modify (with_feecache_db (insert key newValue)) ;;;
  PruneCache propertyId block.

Definition CountRecords : M W Z :=
  let* st := get_state in
  ret (to_int (Z.of_nat (size (feehistory_db st)))).

(** [strprintf("%s=%d,", recipient.first, recipient.second)] *)
Definition fmt_recipient (r : feeHistoryItem) : string :=
  fst r +:+ "=" +:+ fmt_d (snd r) +:+ ",".

Definition RecordFeeDistribution (propertyId : N) (block total : Z)
  (feeRecipients : list feeHistoryItem) : M W unit :=
  let* n := CountRecords in
  let count := to_int (n + 1) in
  let key := fmt_d count in
  let feeRecipientsStr :=
    match feeRecipients with
    | [] => EmptyString
    | _ =>
        let str :=
          fold_left (fun str tempRecipient => str +:+ fmt_recipient tempRecipient)
            feeRecipients EmptyString in
        if str_empty str then str else drop_last str
    end in
  let value :=
    fmt_d block +:+ ":" +:+ fmt_u propertyId +:+ ":" +:+ fmt_d total +:+ ":"
    +:+ feeRecipientsStr in
  modify (with_feehistory_db (insert key value)).

(** The receiver loop of [DistributeCache]; [rs] is the receiver set in the
    order the loop visits it. *)
Fixpoint credit_receivers (propertyId : N) (rs : list (Z * string))
  (sent_so_far : Z) (historyItems : list feeHistoryItem)
  : M W (Z * list feeHistoryItem) :=
  match rs with
  | [] => ret (sent_so_far, historyItems)
  | it :: rest =>
      let address := snd it in
      let will_really_receive := fst it in
      let sent_so_far := to_int64 (sent_so_far + will_really_receive) in
      let* st := get_state in
      let r := update_tally_map (world st) address propertyId will_really_receive in
      modify (with_world (snd r)) ;;;
      assert (fst r) ;;;
      credit_receivers propertyId rest sent_so_far
        (set_insert (address, will_really_receive) historyItems)
  end.

Definition DistributeCache (propertyId : N) (block : Z) : M W unit :=
  let* cachedAmount := GetCachedAmount propertyId in
  let* st := get_state in
  let receiversSet :=
    if isTestEcosystemProperty propertyId
    then STO_GetReceivers (world st) "FEEDISTRIBUTION" EXODUS_PROPERTY_TEXODUS cachedAmount
    else STO_GetReceivers (world st) "FEEDISTRIBUTION" EXODUS_PROPERTY_EXODUS cachedAmount in
  let* paid := credit_receivers propertyId (rev receiversSet) 0 [] in
  let sent_so_far := fst paid in
  let historyItems := snd paid in
  RecordFeeDistribution propertyId block sent_so_far historyItems ;;;
  assert (sent_so_far =? cachedAmount) ;;;
  ClearCache propertyId block.

Definition EvalCache (propertyId : N) (block : Z) : M W unit :=
  let* cached := GetCachedAmount propertyId in
  let* threshold := threshold_entry propertyId in
  if threshold <=? cached then DistributeCache propertyId block else ret tt.

(** Modelled from the spec: [AbortNode] is defined outside fees.cpp; the
    fatal accounting fault halts the process. *)
Definition AbortNode (strMessage userMessage : string) : M W unit :=
  throw NodeAborted.

Definition overflow_message (block : Z) (propertyId : N)
  (currentCachedAmount amount : Z) : string :=
  "Shutting down due to fee cache overflow (block " +:+ fmt_d block
  +:+ " property " +:+ fmt_u propertyId
  +:+ " current " +:+ fmt_d currentCachedAmount
  +:+ " amount " +:+ fmt_d amount +:+ ")" +:+ newline.

Definition AddFee (propertyId : N) (block : Z) (amount : Z) : M W unit :=
  let* currentCachedAmount := GetCachedAmount propertyId in
  (if (0 <? currentCachedAmount)
      && (to_int64 (INT64_MAX - currentCachedAmount) <? amount)
   then
     let msg := overflow_message block propertyId currentCachedAmount amount in
     modify (with_log msg) ;;;
     if negb overrideforcedshutdown then
       (let* st := get_state in
        if persist_exists st then modify (with_persist false) else ret tt) ;;;
       AbortNode msg msg
     else ret tt
   else ret tt) ;;;
  let newCachedAmount := to_int64 (currentCachedAmount + amount) in
  let key := fmt_010d propertyId in
  let* sCacheHistoryItems := GetCacheHistory propertyId in
  let newValue :=
    match sCacheHistoryItems with
    | [] => EmptyString
    | _ =>
        let newValue :=
          fold_left
            (fun newValue tempItem =>
               if fst tempItem =? block then newValue
               else readd newValue tempItem)
            sCacheHistoryItems EmptyString in
        if str_empty newValue then newValue else newValue +:+ ","
    end in
  let newValue := newValue +:+ fmt_cache_item (block, newCachedAmount) in
  modify (with_feecache_db (insert key newValue)) ;;;
  PruneCache propertyId block ;;;
  EvalCache propertyId block.

(** The property identifiers [first], [first + 1], ... below [next]. *)
Definition property_range (first next : N) : list N :=
  (fun i => (first + N.of_nat i)%N) <$> seq 0 (N.to_nat (next - first)).

Definition RollBackCache_property (block : Z) (propertyId : N) : M W unit :=
  let key := fmt_010d propertyId in
  let* sCacheHistoryItems := GetCacheHistory propertyId in
  match last sCacheHistoryItems with
  | None => ret tt
  | Some mostRecentItem =>
      if fst mostRecentItem <? block then ret tt
      else
        let newValue :=
          fold_left
            (fun newValue tempItem =>
               if block <=? fst tempItem then newValue
               else readd newValue tempItem)
            sCacheHistoryItems EmptyString in
        modify (with_feecache_db (insert key newValue))
  end.

Definition RollBackCache (block : Z) : M W unit :=
  for_each [1%N; 2%N] (fun ecosystem =>
    let startPropertyId :=
      if (ecosystem =? 1)%N then 1%N else TEST_ECO_PROPERTY_1 in
    let* st := get_state in
    for_each (property_range startPropertyId (peekNextSPID (world st) ecosystem))
      (RollBackCache_property block)).

(** The records of a store in the order a LevelDB iterator visits them:
    ascending keys, compared bytewise. *)
Definition key_le (a b : string * string) : Prop :=
  string_lt (fst b) (fst a) = false.
#[local] Instance key_le_dec a b : Decision (key_le a b).
Proof. unfold key_le. apply _. Defined.
Definition db_scan (db : gmap string string) : list (string * string) :=
  merge_sort key_le (map_to_list db).

(** The body of the scan of [RollBackHistory] for one record. *)
Definition RollBackHistory_record (block : Z) (record : string * string)
  : M W unit :=
  let strKey := fst record in
  let strValue := snd record in
  match split ":" strValue with
  | [b; _; _; _] =>
      let* feeBlock := from_cast (lexical_cast_int b) in
      if block <=? feeBlock
      then modify (with_feehistory_db (delete strKey))
      else ret tt
  | _ => ret tt
  end.

Definition RollBackHistory (block : Z) : M W unit :=
  let* st := get_state in
  for_each (db_scan (feehistory_db st)) (RollBackHistory_record block).

Definition GetDistributionData (id : Z) : M W (option (N * Z * Z)) :=
  let key := fmt_d id in
  let* st := get_state in
  match feehistory_db st !! key with
  | None => ret None
  | Some strValue =>
      match split ":" strValue with
      | [b; p; t; _] =>
          let* block := from_cast (lexical_cast_int b) in
          let* propertyId := from_cast (lexical_cast_uint32 p) in
          let* total := from_cast (lexical_cast_int64 t) in
          ret (Some (propertyId, block, total))
      | _ => ret None
      end
  end.

(** The loop of [GetFeeDistribution] over the recipient pieces. *)
Fixpoint parse_fee_items (toks : list string) (acc : list feeHistoryItem)
  : option (list feeHistoryItem) :=
  match toks with
  | [] => Some acc
  | tok :: rest =>
      match split "=" tok with
      | [address; a] =>
          feeHistoryItemAmount ← lexical_cast_int64 a;
          parse_fee_items rest (set_insert (address, feeHistoryItemAmount) acc)
      | _ => parse_fee_items rest acc
      end
  end.

Definition GetFeeDistribution (id : Z) : M W (list feeHistoryItem) :=
  let key := fmt_d id in
  let* st := get_state in
  match feehistory_db st !! key with
  | None => ret []
  | Some strValue =>
      match split ":" strValue with
      | [_; _; _; recipients] =>
          from_cast (parse_fee_items (split "," recipients) [])
      | _ => ret []
      end
  end.

(** The loop of [GetDistributionsForProperty] over the records of the store;
    [sDistributions] is the [std::set<int>] built so far. *)
Fixpoint scan_distributions (propertyId : N) (records : list (string * string))
  (sDistributions : list Z) : option (list Z) :=
  match records with
  | [] => Some sDistributions
  | record :: rest =>
      match split ":" (snd record) with
      | [_; p; _; _] =>
          prop ← lexical_cast_uint32 p;
          if (prop =? propertyId)%N then
            id ← lexical_cast_int (fst record);
            scan_distributions propertyId rest (set_insert id sDistributions)
          else scan_distributions propertyId rest sDistributions
      | _ => scan_distributions propertyId rest sDistributions
      end
  end.

Definition GetDistributionsForProperty (propertyId : N) : M W (list Z) :=
  let* st := get_state in
  from_cast (scan_distributions propertyId (db_scan (feehistory_db st)) []).

End FeeCode.

(** ** Vocabulary of the statements *)

Fixpoint string_forall (P : ascii -> bool) (s : string) : bool :=
  match s with
  | EmptyString => true
  | String c r => P c && string_forall P r
  end.

(** No character of [s] is one of [delims]. *)
Definition free_of (delims : string) (s : string) : bool :=
  string_forall (fun c => negb (is_any_of delims c)) s.

Definition dec_char (c : ascii) : bool := is_any_of "-0123456789" c.

(** Pieces separated by single commas. *)
Fixpoint join_comma (ts : list string) : string :=
  match ts with
  | [] => EmptyString
  | [t] => t
  | t :: r => t +:+ "," +:+ join_comma r
  end.

(** The text of a history: its entries, separated by commas. *)
Definition cache_text (l : list feeCacheItem) : string :=
  join_comma (fmt_cache_item <$> l).

(** A value of type [feeCacheItem]. *)
Definition typed_item (e : feeCacheItem) : Prop :=
  is_int (fst e) /\ is_int64 (snd e).

(** What [GetCacheHistory] reads for a property; [None] when the read throws. *)
Definition history {W} (st : State W) (propertyId : N)
  : option (list feeCacheItem) :=
  match feecache_db st !! fmt_010d propertyId with
  | None => Some []
  | Some strValue => parse_cache_items (split "," strValue) []
  end.

(** The amount of the most recent entry, 0 for an empty history. *)
Definition cached (h : list feeCacheItem) : Z :=
  match last h with Some mostRecentItem => snd mostRecentItem | None => 0 end.

(** The state with a new value stored for a property of the fee cache. *)
Definition put_cache {W} (propertyId : N) (value : string) (st : State W)
  : State W :=
  with_feecache_db (insert (fmt_010d propertyId) value) st.

(** [st'] differs from [st] at most in the fee cache record of one property. *)
Record cache_step {W} (propertyId : N) (st st' : State W) : Prop := {
  step_other : forall k, k <> fmt_010d propertyId ->
    feecache_db st' !! k = feecache_db st !! k;
  step_feehistory : feehistory_db st' = feehistory_db st;
  step_thresholds : distributionThresholds st' = distributionThresholds st;
  step_world : world st' = world st;
  step_persist : persist_exists st' = persist_exists st;
  step_log : log st' = log st
}.

(** The set that the rewrite loops of [AddFee] and [ClearCache] store: the
    entries of other blocks and the new entry. *)
Definition rewritten (block amount : Z) (h : list feeCacheItem)
  : list feeCacheItem :=
  set_insert (block, amount) (filter (fun e => fst e <> block) h).

Section Pruned.
Context {W : Type} `{Collaborators W}.

(** The set that [PruneCache] leaves in the store. *)
Definition pruned (block : Z) (h : list feeCacheItem) : list feeCacheItem :=
  let pruneBlock := to_int (block - MAX_STATE_HISTORY) in
  match h with
  | [] => []
  | firstItem :: _ =>
      if pruneBlock <=? fst firstItem then h
      else
        match filter (fun e => ((fst e <? pruneBlock) && exodus_debug_fees) = false) h with
        | [] => match last h with Some m => [m] | None => [] end
        | kept => kept
        end
  end.

End Pruned.

(** The pruning rule in the words of the specification: drop every entry
    below the cutoff, but keep the most recent entry if nothing else is left. *)
Definition prune_spec (cutoff : Z) (h : list feeCacheItem) : list feeCacheItem :=
  match filter (fun e => cutoff <= fst e) h with
  | [] => match last h with Some m => [m] | None => [] end
  | kept => kept
  end.

(** At most one entry for a block height. *)
Definition unique_heights (h : list feeCacheItem) : Prop := NoDup (fst <$> h).

(** An example node for the worked examples: the external state is the list
    of balance credits made so far, a distribution is split between two
    holders, and a credit of zero is refused. *)
Definition example_node (debug override : bool)
  : Collaborators (list (string * N * Z)) := {|
  MAX_STATE_HISTORY := 50;
  EXODUS_FEE_THRESHOLD := 100000;
  TEST_ECO_PROPERTY_1 := 2147483651%N;
  EXODUS_PROPERTY_EXODUS := 1%N;
  EXODUS_PROPERTY_TEXODUS := 2%N;
  exodus_debug_fees := debug;
  overrideforcedshutdown := override;
  isTestEcosystemProperty := fun p => (p =? 2)%N || (2147483651 <=? p)%N;
  getTotalTokens := fun _ _ => 10000000;
  peekNextSPID := fun _ e => if (e =? 1)%N then 5%N else 2147483653%N;
  STO_GetReceivers := fun _ _ _ amount =>
    [(amount - amount / 2, "addrA"); (amount / 2, "addrB")];
  update_tally_map := fun w address p amount =>
    (negb (amount =? 0), w ++ [(address, p, amount)])
|}.

(** A node state whose fee cache holds the given records. *)
Definition example_state (cache : list (string * string))
  : State (list (string * N * Z)) :=
  mkState (list_to_map cache) ∅ ∅ [] true [].

(** The value a computation returns, if it returns. *)
Definition returned {S A} (o : outcome S A) : option A :=
  match o with Done a _ => Some a | Abort _ _ => None end.

(** [st'] differs from [st] at most in the fee cache store. *)
Record cache_only {W} (st st' : State W) : Prop := {
  only_feehistory : feehistory_db st' = feehistory_db st;
  only_thresholds : distributionThresholds st' = distributionThresholds st;
  only_world : world st' = world st;
  only_persist : persist_exists st' = persist_exists st;
  only_log : log st' = log st
}.

(** The entries of a history below a block height. *)
Definition below (block : Z) (h : list feeCacheItem) : list feeCacheItem :=
  filter (fun e => fst e < block) h.

Section Known.
Context {W : Type} `{Collaborators W}.

(** The property identifiers that [RollBackCache] visits, in order. *)
Definition known_properties (w : W) : list N :=
  property_range 1 (peekNextSPID w 1)
  ++ property_range TEST_ECO_PROPERTY_1 (peekNextSPID w 2).

(** A known property, by the bounds of the two loops of [RollBackCache]: an
    identifier from 1 up to, but not including, the next identifier of the
    main ecosystem, or from [TEST_ECO_PROPERTY_1] up to, but not including,
    the next identifier of the test ecosystem. *)
Definition known_property (w : W) (p : N) : Prop :=
  (1 <= p < peekNextSPID w 1)%N
  \/ (TEST_ECO_PROPERTY_1 <= p < peekNextSPID w 2)%N.

End Known.

(** The block height stored in a fee history record of four fields. *)
Definition stored_block (strValue : string) : option Z :=
  match split ":" strValue with
  | [b; _; _; _] => lexical_cast_int b
  | _ => None
  end.

(** The scan of [RollBackHistory] gets past the record without an exception. *)
Definition scans (strValue : string) : Prop :=
  match split ":" strValue with
  | [b; _; _; _] => is_Some (lexical_cast_int b)
  | _ => True
  end.

(** The records that [RollBackHistory(block)] deletes. *)
Definition doomed (block : Z) (strValue : string) : bool :=
  match stored_block strValue with
  | Some feeBlock => block <=? feeBlock
  | None => false
  end.

(** The store after the scan of [RollBackHistory] has passed one record. *)
Definition rollback_step (block : Z) (db : gmap string string)
  (record : string * string) : gmap string string :=
  if doomed block (snd record) then delete (fst record) db else db.

(** [address=amount], the text of one recipient. *)
Definition recipient_text (r : feeHistoryItem) : string :=
  fst r +:+ "=" +:+ fmt_d (snd r).

(** The value [RecordFeeDistribution] stores. *)
Definition record_text (propertyId : N) (block total : Z)
  (recipients : list feeHistoryItem) : string :=
  fmt_d block +:+ ":" +:+ fmt_u propertyId +:+ ":" +:+ fmt_d total +:+ ":"
  +:+ join_comma (recipient_text <$> recipients).

(** The sequence id [RecordFeeDistribution] assigns. *)
Definition next_id {W} (st : State W) : Z :=
  to_int (to_int (Z.of_nat (size (feehistory_db st))) + 1).

(** An address without the separator characters of the record text. *)
Definition plain_address (a : string) : Prop := free_of ":,=" a = true.

Definition typed_recipient (r : feeHistoryItem) : Prop :=
  plain_address (fst r) /\ is_int64 (snd r).

(** A node state whose fee history holds the given records. *)
Definition example_history (records : list (string * string))
  : State (list (string * N * Z)) :=
  mkState ∅ (list_to_map records) ∅ [] true [].

(** Property 3 with entries at blocks 100, 150 and 200. *)
Definition example_cache : State (list (string * N * Z)) :=
  example_state [("0000000003", "100:5,150:9,200:7")].

(** A fee history with a record before block 500, one at block 500 and a
    value that is not a record. *)
Definition example_records : State (list (string * N * Z)) :=
  example_history [("1", "400:3:10:a=10"); ("2", "500:3:7:a=7");
                   ("3", "bad record")].

(** The fatal condition of [AddFee]: a positive cached amount and a sum
    above the largest [int64_t]. *)
Definition overflows (current amount : Z) : Prop :=
  0 < current /\ INT64_MAX < current + amount.

(** The sum of the shares of a receiver set. *)
Definition sum_shares (rs : list (Z * string)) : Z :=
  foldr (fun it s => fst it + s) 0 rs.

(** The recipient set [DistributeCache] builds from the receivers it visits. *)
Definition recipients_of (rs : list (Z * string)) : list feeHistoryItem :=
  set_of_list ((fun it => (snd it, fst it)) <$> rs).

Section Distribution.
Context {W : Type} `{Collaborators W}.

(** The receiver set the snapshot function returns for a property. *)
Definition receivers_for (w : W) (propertyId : N) (cachedAmount : Z)
  : list (Z * string) :=
  if isTestEcosystemProperty propertyId
  then STO_GetReceivers w "FEEDISTRIBUTION" EXODUS_PROPERTY_TEXODUS cachedAmount
  else STO_GetReceivers w "FEEDISTRIBUTION" EXODUS_PROPERTY_EXODUS cachedAmount.

(** Crediting the receivers one after the other: whether every credit
    succeeded, and the ledger after the last credit that was tried. *)
Fixpoint credit_all (w : W) (propertyId : N) (rs : list (Z * string)) : bool * W :=
  match rs with
  | [] => (true, w)
  | it :: rest =>
      let r := update_tally_map w (snd it) propertyId (fst it) in
      if fst r then credit_all (snd r) propertyId rest else (false, snd r)
  end.

(** A run of [AddFee] calls for one property, each with its block and amount. *)
Definition AddFees (propertyId : N) (calls : list (Z * Z)) : M W unit :=
  for_each calls (fun call => AddFee propertyId (fst call) (snd call)).

End Distribution.

(** The arguments of an [AddFee] call: an [int] block and an [int64_t] amount. *)
Definition typed_call (call : Z * Z) : Prop :=
  is_int (fst call) /\ is_int64 (snd call).

(** A node on which the distribution threshold of property 3 is 100 and no
    fee was ever cached. *)
Definition example_fresh : State (list (string * N * Z)) :=
  mkState ∅ ∅ {[ 3%N := 100 ]} [] true [].

(** The record of a key is a distribution of the property under the id. *)
Definition listed (propertyId : N) (k strValue : string) (id : Z) : Prop :=
  exists b q t r,
    split ":" strValue = [b; q; t; r] /\
    lexical_cast_uint32 q = Some propertyId /\
    lexical_cast_int k = Some id.

(** The scan of [GetDistributionsForProperty] gets past the record without
    an exception. *)
Definition listable (propertyId : N) (k strValue : string) : Prop :=
  match split ":" strValue with
  | [_; q; _; _] =>
      exists prop, lexical_cast_uint32 q = Some prop /\
        (prop = propertyId -> is_Some (lexical_cast_int k))
  | _ => True
  end.

(** Fee history records 1 and 3 remain, as after a rollback that removed
    record 2. *)
Definition example_gap : State (list (string * N * Z)) :=
  example_history [("1", "400:3:10:a=10"); ("3", "450:4:7:b=7")].

(** A fee cache record with a piece that is not an entry. *)
Definition example_junk : State (list (string * N * Z)) :=
  example_state [("0000000003", "100:5,garbage,1000:7")].

(** A fee cache record with an amount that is not a number. *)
Definition example_unreadable : State (list (string * N * Z)) :=
  example_state [("0000000003", "100:5,1000:x7")].

(** Property 7 with a threshold of 100 and 60 cached at block 200. *)
Definition example_accrued : State (list (string * N * Z)) :=
  mkState {[ "0000000007" := "200:60" ]} ∅ {[ 7%N := 100 ]} [] true [].

(** Property 3 with a threshold of 100 and 60 cached at block 200. *)
Definition example_accrued3 : State (list (string * N * Z)) :=
  mkState {[ "0000000003" := "200:60" ]} ∅ {[ 3%N := 100 ]} [] true [].

(** A node whose snapshot function pays out only half of the amount to one
    holder, and nothing at all for an amount of zero. *)
Definition example_short_node : Collaborators (list (string * N * Z)) := {|
  MAX_STATE_HISTORY := 50;
  EXODUS_FEE_THRESHOLD := 100000;
  TEST_ECO_PROPERTY_1 := 2147483651%N;
  EXODUS_PROPERTY_EXODUS := 1%N;
  EXODUS_PROPERTY_TEXODUS := 2%N;
  exodus_debug_fees := true;
  overrideforcedshutdown := false;
  isTestEcosystemProperty := fun p => (p =? 2)%N || (2147483651 <=? p)%N;
  getTotalTokens := fun _ _ => 10000000;
  peekNextSPID := fun _ e => if (e =? 1)%N then 5%N else 2147483653%N;
  STO_GetReceivers := fun _ _ _ amount =>
    if amount =? 0 then [] else [(amount / 2, "addrA")];
  update_tally_map := fun w address p amount =>
    (negb (amount =? 0), w ++ [(address, p, amount)])
|}.

(** A fee history with a four-field record whose block is not a number. *)
Definition example_bad_block : State (list (string * N * Z)) :=
  example_history [("1", "400:3:10:a=10"); ("2", "x500:3:7:a=7")].

(** * Properties *)

(** ** Machine integers *)

Lemma to_int_id z : is_int z -> to_int z = z.
Proof.
  unfold is_int, to_int, INT_MIN, INT_MAX. intros Hz.
  rewrite Z.mod_small; lia.
Qed.

Lemma to_int64_id z : is_int64 z -> to_int64 z = z.
Proof.
  unfold is_int64, to_int64, INT64_MIN, INT64_MAX. intros Hz.
  rewrite Z.mod_small; lia.
Qed.

Lemma to_int_is_int z : is_int (to_int z).
Proof.
  unfold is_int, to_int, INT_MIN, INT_MAX.
  pose proof (Z.mod_pos_bound (z + 2 ^ 31) (2 ^ 32)). lia.
Qed.

Lemma to_int64_is_int64 z : is_int64 (to_int64 z).
Proof.
  unfold is_int64, to_int64, INT64_MIN, INT64_MAX.
  pose proof (Z.mod_pos_bound (z + 2 ^ 63) (2 ^ 64)). lia.
Qed.

Lemma to_int64_add_l a b : to_int64 (to_int64 a + b) = to_int64 (a + b).
Proof.
  unfold to_int64.
  replace ((a + 2 ^ 63) mod 2 ^ 64 - 2 ^ 63 + b + 2 ^ 63)
    with ((a + 2 ^ 63) mod 2 ^ 64 + b) by lia.
  rewrite Zplus_mod_idemp_l. do 2 f_equal. lia.
Qed.

(** ** Strings *)

#[local] Arguments String.append !_ _ / : simpl nomatch.

Lemma str_empty_true s : str_empty s = true <-> s = EmptyString.
Proof. destruct s; simpl; split; congruence. Qed.

Lemma str_empty_app a b : str_empty (a +:+ b) = str_empty a && str_empty b.
Proof. destruct a; reflexivity. Qed.

Lemma app_empty_r s : s +:+ EmptyString = s.
Proof. induction s; simpl; congruence. Qed.

Lemma app_assoc_s a b c : (a +:+ b) +:+ c = a +:+ (b +:+ c).
Proof. induction a; simpl; congruence. Qed.

Lemma app_char d x : String d EmptyString +:+ x = String d x.
Proof. reflexivity. Qed.

Lemma string_forall_app P a b :
  string_forall P (a +:+ b) = string_forall P a && string_forall P b.
Proof. induction a; simpl; [reflexivity|]. rewrite IHa. apply andb_assoc. Qed.

Lemma string_forall_impl (P Q : ascii -> bool) s :
  (forall c, P c = true -> Q c = true) ->
  string_forall P s = true -> string_forall Q s = true.
Proof.
  intros HPQ. induction s; simpl; [done|].
  rewrite !andb_true_iff. intros [? ?]. auto.
Qed.

Lemma drop_last_snoc s c : drop_last (s +:+ String c EmptyString) = s.
Proof.
  induction s as [|d s IH]; simpl; [reflexivity|].
  rewrite IH. destruct s; reflexivity.
Qed.

(** ** Decimal text *)

Lemma uint_chars d : string_forall dec_char (NilEmpty.string_of_uint d) = true.
Proof. induction d; simpl; try rewrite IHd; reflexivity. Qed.

Lemma fmt_u_chars n : string_forall dec_char (fmt_u n) = true.
Proof.
  unfold fmt_u, NilZero.string_of_uint.
  destruct (N.to_uint n); try apply uint_chars; reflexivity.
Qed.

Lemma fmt_d_chars z : string_forall dec_char (fmt_d z) = true.
Proof.
  unfold fmt_d, NilZero.string_of_int.
  destruct (Z.to_int z) as [d|d]; unfold NilZero.string_of_uint.
  - destruct d; try apply uint_chars; reflexivity.
  - simpl. destruct d; try apply uint_chars; reflexivity.
Qed.

Lemma dec_char_free delims :
  free_of delims "-0123456789" = true ->
  forall c, dec_char c = true -> negb (is_any_of delims c) = true.
Proof.
  unfold free_of, dec_char. intros Hfree c Hc.
  remember "-0123456789" as ds eqn:E. clear E.
  induction ds as [|d ds IH]; simpl in *; [discriminate|].
  apply andb_true_iff in Hfree as [Hd Hds].
  destruct (Ascii.eqb c d) eqn:Ecd; [|auto].
  apply Ascii.eqb_eq in Ecd. now subst c.
Qed.

Lemma fmt_d_free delims z :
  free_of delims "-0123456789" = true -> free_of delims (fmt_d z) = true.
Proof.
  intros Hfree. unfold free_of.
  eapply string_forall_impl; [apply dec_char_free, Hfree | apply fmt_d_chars].
Qed.

Lemma fmt_u_free delims n :
  free_of delims "-0123456789" = true -> free_of delims (fmt_u n) = true.
Proof.
  intros Hfree. unfold free_of.
  eapply string_forall_impl; [apply dec_char_free, Hfree | apply fmt_u_chars].
Qed.

Lemma fmt_d_nonempty z : str_empty (fmt_d z) = false.
Proof.
  unfold fmt_d, NilZero.string_of_int.
  destruct (Z.to_int z) as [d|d]; [|reflexivity].
  destruct d; reflexivity.
Qed.

Lemma fmt_u_nonempty n : str_empty (fmt_u n) = false.
Proof. unfold fmt_u. destruct (N.to_uint n); reflexivity. Qed.

Lemma digits_value_pos p :
  digits_value (NilZero.string_of_uint (Pos.to_uint p)) = Some (Npos p).
Proof.
  unfold digits_value.
  rewrite NilZero.usu by apply DecimalPos.Unsigned.to_uint_nonnil.
  simpl. f_equal. apply DecimalPos.Unsigned.of_to.
Qed.

Lemma digits_value_fmt_u n : digits_value (fmt_u n) = Some n.
Proof.
  destruct n as [|p]; [reflexivity|]. apply digits_value_pos.
Qed.

Lemma uint_head_digit d c r :
  NilZero.string_of_uint d = String c r ->
  Ascii.eqb c "-" = false /\ Ascii.eqb c "+" = false.
Proof.
  destruct d; simpl; intros [= <- _]; split; reflexivity.
Qed.

Lemma lexical_cast_signed_fmt_d lo hi z :
  lo <= z <= hi -> lexical_cast_signed lo hi (fmt_d z) = Some z.
Proof.
  intros Hz. unfold fmt_d. destruct z as [|p|p]; simpl.
  - assert ((0 <=? hi) = true) as Hh by (apply Z.leb_le; lia).
    cbn. now rewrite Hh.
  - pose proof (digits_value_pos p) as Hd.
    unfold lexical_cast_signed.
    destruct (NilZero.string_of_uint (Pos.to_uint p)) as [|c r] eqn:E.
    + discriminate Hd.
    + destruct (uint_head_digit _ _ _ E) as [-> ->].
      rewrite Hd. simpl.
      assert ((Z.pos p <=? hi) = true) as -> by (apply Z.leb_le; lia). done.
  - rewrite digits_value_pos. simpl.
    assert ((Z.pos p <=? - lo) = true) as -> by (apply Z.leb_le; lia). done.
Qed.

Lemma lexical_cast_int_fmt_d z : is_int z -> lexical_cast_int (fmt_d z) = Some z.
Proof. apply lexical_cast_signed_fmt_d. Qed.

Lemma lexical_cast_int64_fmt_d z :
  is_int64 z -> lexical_cast_int64 (fmt_d z) = Some z.
Proof. apply lexical_cast_signed_fmt_d. Qed.

Lemma lexical_cast_uint32_fmt_u n :
  is_uint32 n -> lexical_cast_uint32 (fmt_u n) = Some n.
Proof.
  intros Hn. pose proof (digits_value_fmt_u n) as Hd.
  unfold lexical_cast_uint32.
  destruct (fmt_u n) as [|c r] eqn:E; [discriminate Hd|].
  destruct (uint_head_digit _ _ _ E) as [-> ->].
  rewrite Hd. simpl.
  assert ((n <=? UINT32_MAX)%N = true) as -> by (apply N.leb_le, Hn). done.
Qed.

Lemma lexical_cast_signed_range lo hi s z :
  lo <= 0 <= hi -> lexical_cast_signed lo hi s = Some z -> lo <= z <= hi.
Proof.
  intros Hlo. unfold lexical_cast_signed.
  destruct s as [|c r]; [discriminate|].
  destruct (Ascii.eqb c "-"); [|destruct (Ascii.eqb c "+")];
    intros Hs; apply bind_Some in Hs as (m & _ & Hm);
    case_match; simplify_eq; try apply Z.leb_le in H; lia.
Qed.

(** ** [boost::split] on text without separators inside the pieces *)

Lemma split_from_token p b t :
  string_forall (fun c => negb (p c)) t = true -> split_from p b t = [t].
Proof.
  revert b. induction t as [|c t IH]; intros b; simpl; [done|].
  rewrite andb_true_iff, negb_true_iff. intros [-> Ht].
  now rewrite (IH false Ht).
Qed.

Lemma split_from_field_first p t d rest :
  string_forall (fun c => negb (p c)) t = true ->
  p d = true ->
  split_from p false (t +:+ String d rest) = t :: split_from p true rest.
Proof.
  intros Ht Hd. induction t as [|c t IH]; simpl.
  - now rewrite Hd.
  - simpl in Ht. apply andb_true_iff in Ht as [Hc Ht].
    apply negb_true_iff in Hc. now rewrite Hc, (IH Ht).
Qed.

Lemma split_from_field p b t d rest :
  string_forall (fun c => negb (p c)) t = true ->
  b = false \/ str_empty t = false ->
  p d = true ->
  split_from p b (t +:+ String d rest) = t :: split_from p true rest.
Proof.
  intros Ht Hb Hd. destruct b; [|now apply split_from_field_first].
  destruct Hb as [|Hb]; [discriminate|].
  destruct t as [|c t]; [discriminate|].
  simpl in Ht. apply andb_true_iff in Ht as [Hc Ht].
  apply negb_true_iff in Hc. simpl. rewrite Hc.
  now rewrite (split_from_field_first p t d rest Ht Hd).
Qed.

Lemma split_token delims t : free_of delims t = true -> split delims t = [t].
Proof. apply split_from_token. Qed.

Lemma is_any_of_head d r : is_any_of (String d r) d = true.
Proof. simpl. now rewrite Ascii.eqb_refl. Qed.

(** The pieces of a comma-separated text are the texts joined. *)
Lemma split_join_comma b ts :
  ts <> [] ->
  Forall (fun t => free_of "," t = true /\ str_empty t = false) ts ->
  split_from (is_any_of ",") b (join_comma ts) = ts.
Proof.
  intros Hne Hts. revert b. induction Hts as [|t ts [Ht Hnt] Hts IH]; [done|].
  intros b. destruct ts as [|t' ts'].
  - simpl. now apply split_from_token.
  - change (join_comma (t :: t' :: ts'))
      with (t +:+ String "," (join_comma (t' :: ts'))).
    rewrite split_from_field; [|done|now right|reflexivity].
    f_equal. now apply IH.
Qed.

(** ** Ordered sets *)

Section SetFacts.
Context {A : Type} `{LessOrder A}.

Lemma less_asym (x y : A) : less x y = true -> less y x = false.
Proof.
  intros Hxy. destruct (less y x) eqn:Hyx; [|done].
  pose proof (less_trans _ _ _ Hxy Hyx) as Hxx.
  now rewrite less_irrefl in Hxx.
Qed.

Lemma set_insert_elem (x y : A) s : x ∈ set_insert y s <-> x = y \/ x ∈ s.
Proof.
  induction s as [|z s IH]; simpl.
  - rewrite list_elem_of_singleton, elem_of_nil. tauto.
  - destruct (less y z) eqn:Hyz; [apply elem_of_cons|].
    destruct (less z y) eqn:Hzy.
    + rewrite !elem_of_cons, IH. tauto.
    + rewrite (less_total _ _ Hyz Hzy), elem_of_cons. tauto.
Qed.

Lemma set_insert_is_set (x : A) s : is_set s -> is_set (set_insert x s).
Proof.
  unfold is_set. induction 1 as [|z s Hs IH Hz]; simpl.
  - repeat constructor.
  - destruct (less x z) eqn:Hxz.
    + constructor; [now constructor|].
      constructor; [done|].
      eapply Forall_impl; [exact Hz|]. intros w Hw. simpl in Hw.
      eapply less_trans; eauto.
    + destruct (less z x) eqn:Hzx; [|now constructor].
      constructor; [done|].
      apply Forall_forall. intros w Hw.
      apply set_insert_elem in Hw as [->|Hw]; [done|].
      rewrite Forall_forall in Hz. auto.
Qed.

(** Inserting an element above all others appends it. *)
Lemma set_insert_above (x : A) s :
  Forall (fun y => less y x = true) s -> set_insert x s = s ++ [x].
Proof.
  induction 1 as [|y s Hy Hs IH]; simpl; [done|].
  rewrite (less_asym _ _ Hy), Hy. now rewrite IH.
Qed.

Lemma set_insert_present (x : A) s : is_set s -> x ∈ s -> set_insert x s = s.
Proof.
  unfold is_set. induction 1 as [|z s Hs IH Hz]; intros Hx.
  - now apply elem_of_nil in Hx.
  - simpl. apply elem_of_cons in Hx as [->|Hx].
    + now rewrite less_irrefl.
    + rewrite Forall_forall in Hz. specialize (Hz _ Hx).
      rewrite (less_asym _ _ Hz), Hz. now rewrite IH.
Qed.

Lemma fold_insert_sorted (l acc : list A) :
  is_set (acc ++ l) -> fold_left (fun s x => set_insert x s) l acc = acc ++ l.
Proof.
  revert acc. induction l as [|x l IH]; intros acc Hs; simpl.
  - now rewrite app_nil_r.
  - assert (set_insert x acc = acc ++ [x]) as ->.
    { apply set_insert_above. unfold is_set in Hs.
      clear IH. induction acc as [|a acc IHacc]; [constructor|].
      simpl in Hs. apply StronglySorted_inv in Hs as [Hs Ha].
      constructor; [|auto].
      rewrite Forall_forall in Ha. apply Ha.
      apply elem_of_app. right. apply elem_of_cons. now left. }
    rewrite IH; rewrite <- app_assoc; done.
Qed.

Lemma set_of_list_id (s : list A) : is_set s -> set_of_list s = s.
Proof. intros Hs. unfold set_of_list. now rewrite fold_insert_sorted. Qed.

Lemma set_of_list_snoc (l : list A) x :
  set_of_list (l ++ [x]) = set_insert x (set_of_list l).
Proof. unfold set_of_list. now rewrite fold_left_app. Qed.

Lemma fold_insert_is_set (l acc : list A) :
  is_set acc -> is_set (fold_left (fun s x => set_insert x s) l acc).
Proof.
  revert acc. induction l as [|x l IH]; intros acc Hacc; simpl; [done|].
  apply IH. now apply set_insert_is_set.
Qed.

Lemma is_set_filter (P : A -> Prop) `{forall x, Decision (P x)} s :
  is_set s -> is_set (filter P s).
Proof.
  unfold is_set. induction 1 as [|z s Hs IH Hz]; [constructor|].
  rewrite filter_cons. case_decide; [|done].
  constructor; [done|].
  apply Forall_forall. intros w Hw. apply list_elem_of_filter in Hw as [_ Hw].
  rewrite Forall_forall in Hz. auto.
Qed.

Lemma is_set_NoDup s : is_set s -> NoDup s.
Proof.
  unfold is_set. induction 1 as [|z s Hs IH Hz]; constructor; [|done].
  intros Hin. rewrite Forall_forall in Hz. specialize (Hz _ Hin).
  now rewrite less_irrefl in Hz.
Qed.

(** [--end()] is above every other element. *)
Lemma is_set_last s m x :
  is_set s -> last s = Some m -> x ∈ s -> x = m \/ less x m = true.
Proof.
  unfold is_set. induction 1 as [|z s Hs IH Hz]; intros Hl Hx; [done|].
  destruct s as [|z' s'].
  - simpl in Hl. simplify_eq. left. now apply list_elem_of_singleton in Hx.
  - change (last (z :: z' :: s')) with (last (z' :: s')) in Hl.
    apply elem_of_cons in Hx as [->|Hx]; [|auto].
    right. rewrite Forall_forall in Hz. apply Hz.
    apply last_Some_elem_of. exact Hl.
Qed.

End SetFacts.

#[export] Instance Z_less_order : LessOrder Z.
Proof.
  split; unfold less, Z_less.
  - intros x. apply Z.ltb_irrefl.
  - intros x y z. rewrite !Z.ltb_lt. lia.
  - intros x y. rewrite !Z.ltb_ge. lia.
Qed.

Lemma N_of_ascii_inj x y : N_of_ascii x = N_of_ascii y -> x = y.
Proof.
  intros Hxy. rewrite <- (ascii_N_embedding x), <- (ascii_N_embedding y).
  now rewrite Hxy.
Qed.

#[export] Instance string_less_order : LessOrder string.
Proof.
  split; unfold less, string_less.
  - intros x. induction x as [|c x IH]; simpl; [done|].
    now rewrite N.ltb_irrefl.
  - intros x. induction x as [|a x IH]; intros [|b y] [|c z]; simpl; try done.
    destruct (N.ltb_spec (N_of_ascii a) (N_of_ascii b)),
      (N.ltb_spec (N_of_ascii b) (N_of_ascii a)),
      (N.ltb_spec (N_of_ascii b) (N_of_ascii c)),
      (N.ltb_spec (N_of_ascii c) (N_of_ascii b)),
      (N.ltb_spec (N_of_ascii a) (N_of_ascii c)),
      (N.ltb_spec (N_of_ascii c) (N_of_ascii a));
      try done; try lia.
    apply IH.
  - intros x. induction x as [|a x IH]; intros [|b y]; simpl; try done.
    destruct (N.ltb_spec (N_of_ascii a) (N_of_ascii b)),
      (N.ltb_spec (N_of_ascii b) (N_of_ascii a)); try done; try lia.
    intros Hxy Hyx. f_equal; [|now apply IH].
    apply N_of_ascii_inj. lia.
Qed.

#[export] Instance pair_less_order {A B} `{LessOrder A} `{LessOrder B} :
  LessOrder (A * B).
Proof.
  split; unfold less, pair_less.
  - intros [a b]. simpl. now rewrite !less_irrefl.
  - intros [a1 b1] [a2 b2] [a3 b3]. simpl.
    rewrite !orb_true_iff, !andb_true_iff, !negb_true_iff.
    intros [K12|[N21 L12]] [K23|[N32 L23]].
    + left. eapply less_trans; eauto.
    + destruct (less a1 a3) eqn:E13; [now left|].
      destruct (less a3 a2) eqn:E32; [discriminate|].
      destruct (less a2 a3) eqn:E23.
      * pose proof (less_trans _ _ _ K12 E23). congruence.
      * pose proof (less_total _ _ E23 E32). subst a3. congruence.
    + destruct (less a1 a3) eqn:E13; [now left|].
      destruct (less a1 a2) eqn:E12.
      * pose proof (less_trans _ _ _ E12 K23). congruence.
      * pose proof (less_total _ _ E12 N21). subst a2. congruence.
    + destruct (less a1 a2) eqn:E12, (less a2 a3) eqn:E23.
      * left. eapply less_trans; eauto.
      * pose proof (less_total _ _ E23 N32). subst a3. now left.
      * pose proof (less_total _ _ E12 N21). subst a2. now left.
      * pose proof (less_total _ _ E12 N21). subst a2.
        pose proof (less_total _ _ E23 N32). subst a3.
        right. rewrite less_irrefl. split; [done|].
        eapply less_trans; eauto.
  - intros [a1 b1] [a2 b2]. simpl.
    rewrite !orb_false_iff, !andb_false_iff, !negb_false_iff.
    intros [N12 K1] [N21 K2].
    pose proof (less_total _ _ N12 N21). subst a2.
    rewrite less_irrefl in *.
    destruct K1 as [|K1], K2 as [|K2]; try done.
    now rewrite (less_total _ _ K1 K2).
Qed.

(** ** The text of a fee cache history and what is read back from it *)

Lemma fmt_cache_item_nonempty e : str_empty (fmt_cache_item e) = false.
Proof.
  unfold fmt_cache_item. now rewrite str_empty_app, fmt_d_nonempty.
Qed.

Lemma fmt_cache_item_free e : free_of "," (fmt_cache_item e) = true.
Proof.
  unfold fmt_cache_item, free_of.
  rewrite !string_forall_app.
  pose proof (fmt_d_free "," (fst e) eq_refl) as H1.
  pose proof (fmt_d_free "," (snd e) eq_refl) as H2.
  unfold free_of in H1, H2. now rewrite H1, H2.
Qed.

Lemma split_cache_item e :
  split ":" (fmt_cache_item e) = [fmt_d (fst e); fmt_d (snd e)].
Proof.
  unfold split, fmt_cache_item.
  change (":" +:+ fmt_d (snd e)) with (String ":" (fmt_d (snd e))).
  rewrite split_from_field; [|apply (fmt_d_free ":"); reflexivity|now left|reflexivity].
  f_equal. apply split_from_token. apply (fmt_d_free ":"). reflexivity.
Qed.

Lemma cache_text_empty l : str_empty (cache_text l) = true <-> l = [].
Proof.
  unfold cache_text. destruct l as [|e [|e' l]]; simpl; split; try done.
  - now rewrite fmt_cache_item_nonempty.
  - now rewrite str_empty_app, fmt_cache_item_nonempty.
Qed.

Lemma cache_text_cons e l :
  l <> [] -> cache_text (e :: l) = fmt_cache_item e +:+ "," +:+ cache_text l.
Proof. destruct l; [done|reflexivity]. Qed.

(** The rebuilding loops produce the comma-separated text. *)
Lemma fold_readd l acc :
  fold_left readd l acc =
  match l with
  | [] => acc
  | _ => (if str_empty acc then acc else acc +:+ ",") +:+ cache_text l
  end.
Proof.
  revert acc. induction l as [|e l IH]; intros acc; [done|].
  simpl fold_left. rewrite IH. destruct l as [|e' l]; [done|].
  assert (str_empty (readd acc e) = false) as ->.
  { unfold readd. rewrite str_empty_app, fmt_cache_item_nonempty.
    apply andb_false_r. }
  rewrite (cache_text_cons e (e' :: l)) by done.
  unfold readd. now rewrite !app_assoc_s.
Qed.

Lemma fold_readd_skip (skip : feeCacheItem -> bool) l acc :
  fold_left (fun newValue tempItem =>
               if skip tempItem then newValue else readd newValue tempItem) l acc
  = fold_left readd (filter (fun e => skip e = false) l) acc.
Proof.
  revert acc. induction l as [|e l IH]; intros acc; [done|].
  simpl fold_left. rewrite filter_cons. rewrite IH.
  destruct (skip e); case_decide; done.
Qed.

Lemma parse_cache_items_text l acc :
  Forall typed_item l ->
  parse_cache_items (fmt_cache_item <$> l) acc
  = Some (fold_left (fun s x => set_insert x s) l acc).
Proof.
  intros Hl. revert acc. induction Hl as [|[b a] l [Hb Ha] Hl IH]; intros acc;
    [done|].
  rewrite fmap_cons. simpl parse_cache_items. rewrite split_cache_item.
  simpl in *. rewrite (lexical_cast_int64_fmt_d b), (lexical_cast_int64_fmt_d a);
    [|done|unfold is_int, is_int64, INT_MIN, INT_MAX, INT64_MIN, INT64_MAX in *; lia].
  simpl. rewrite to_int_id by done. apply IH.
Qed.

Lemma parse_cache_text l :
  Forall typed_item l ->
  parse_cache_items (split "," (cache_text l)) [] = Some (set_of_list l).
Proof.
  intros Hl. destruct l as [|e l]; [reflexivity|].
  unfold split, cache_text. rewrite split_join_comma.
  - now apply parse_cache_items_text.
  - done.
  - apply Forall_fmap, Forall_forall. intros x _. simpl.
    split; [apply fmt_cache_item_free|apply fmt_cache_item_nonempty].
Qed.

Lemma parse_cache_items_typed toks acc h :
  is_set acc -> Forall typed_item acc ->
  parse_cache_items toks acc = Some h -> is_set h /\ Forall typed_item h.
Proof.
  revert acc. induction toks as [|tok toks IH]; intros acc Hs Ht; simpl.
  - now intros [= <-].
  - destruct (split ":" tok) as [|b [|a [|? ?]]]; try (now apply IH).
    intros Hp. apply bind_Some in Hp as (zb & Hzb & Hp).
    apply bind_Some in Hp as (za & Hza & Hp).
    eapply IH; [| |exact Hp].
    + now apply set_insert_is_set.
    + apply Forall_forall. intros x Hx.
      apply set_insert_elem in Hx as [->|Hx].
      * split; [apply to_int_is_int|].
        eapply lexical_cast_signed_range; [|exact Hza].
        unfold INT64_MIN, INT64_MAX. lia.
      * rewrite Forall_forall in Ht. auto.
Qed.

Lemma history_typed {W} (st : State W) p h :
  history st p = Some h -> is_set h /\ Forall typed_item h.
Proof.
  unfold history. destruct (feecache_db st !! fmt_010d p).
  - apply parse_cache_items_typed; constructor.
  - intros [= <-]. split; constructor.
Qed.

(** ** Keys of the fee cache *)

Lemma uint_of_zeros k s :
  NilEmpty.uint_of_string (zeros k +:+ s)
  = Nat.iter k D0 <$> NilEmpty.uint_of_string s.
Proof.
  induction k as [|k IH]; simpl.
  - now destruct (NilEmpty.uint_of_string s).
  - rewrite IH. now destruct (NilEmpty.uint_of_string s).
Qed.

Lemma of_uint_zeros k d : N.of_uint (Nat.iter k D0 d) = N.of_uint d.
Proof. induction k as [|k IH]; [done|]. simpl. exact IH. Qed.

Lemma fmt_010d_value p :
  N.of_uint <$> NilEmpty.uint_of_string (fmt_010d p) = Some p.
Proof.
  unfold fmt_010d. rewrite uint_of_zeros.
  assert (NilEmpty.uint_of_string (fmt_u p) = Some (N.to_uint p)) as ->.
  { unfold fmt_u, NilZero.string_of_uint.
    destruct (N.to_uint p) eqn:E; try (rewrite <- E; apply NilEmpty.usu).
    destruct p; [discriminate|].
    simpl in E. now apply DecimalPos.Unsigned.to_uint_nonnil in E. }
  simpl. now rewrite of_uint_zeros, DecimalN.Unsigned.of_to.
Qed.

Lemma fmt_010d_inj p q : fmt_010d p = fmt_010d q -> p = q.
Proof.
  intros Hpq. pose proof (fmt_010d_value p) as Hp.
  rewrite Hpq, fmt_010d_value in Hp. congruence.
Qed.

(** ** Reading and writing a history *)

Section CacheFacts.
Context {W : Type}.
Implicit Types (st : State W) (p q : N) (h : list feeCacheItem).

Lemma GetCacheHistory_run st p h :
  history st p = Some h -> GetCacheHistory p st = Done h st.
Proof.
  unfold history, GetCacheHistory, bind, get_state.
  destruct (feecache_db st !! fmt_010d p); [|now intros [= <-]].
  now intros ->.
Qed.

Lemma GetCacheHistory_throws st p :
  history st p = None -> GetCacheHistory p st = Abort BadLexicalCast st.
Proof.
  unfold history, GetCacheHistory, bind, get_state.
  destruct (feecache_db st !! fmt_010d p); [|done]. now intros ->.
Qed.

Lemma GetCachedAmount_run st p h :
  history st p = Some h -> GetCachedAmount p st = Done (cached h) st.
Proof.
  intros Hh. unfold GetCachedAmount, bind, cached.
  rewrite (GetCacheHistory_run _ _ _ Hh). now destruct (last h).
Qed.

Lemma history_put_cache st p l :
  Forall typed_item l ->
  history (put_cache p (cache_text l) st) p = Some (set_of_list l).
Proof.
  intros Hl. unfold history, put_cache. simpl.
  rewrite lookup_insert_eq. now apply parse_cache_text.
Qed.

Lemma history_put_cache_other st p q v :
  q <> p -> history (put_cache p v st) q = history st q.
Proof.
  intros Hqp. unfold history, put_cache. simpl.
  rewrite lookup_insert_ne; [done|].
  intros Heq. apply Hqp. symmetry. now apply fmt_010d_inj.
Qed.

Lemma cache_step_refl p st : cache_step p st st.
Proof. done. Qed.

Lemma cache_step_put p v st : cache_step p st (put_cache p v st).
Proof.
  split; try done. intros k Hk. simpl. now rewrite lookup_insert_ne.
Qed.

Lemma cache_step_trans p st1 st2 st3 :
  cache_step p st1 st2 -> cache_step p st2 st3 -> cache_step p st1 st3.
Proof.
  intros [A1 A2 A3 A4 A5 A6] [B1 B2 B3 B4 B5 B6].
  split; try congruence. intros k Hk. rewrite B1, A1; done.
Qed.

Lemma cache_step_history p q st st' :
  cache_step p st st' -> q <> p -> history st' q = history st q.
Proof.
  intros Hstep Hqp. unfold history. rewrite (step_other _ _ _ Hstep); [done|].
  intros Heq. apply Hqp. now apply fmt_010d_inj.
Qed.

End CacheFacts.

(** ** Histories as ordered sets of (block, amount) pairs *)

Lemma item_less_fst (x y : feeCacheItem) : less x y = true -> fst x <= fst y.
Proof.
  unfold less, pair_less, less, Z_less.
  rewrite orb_true_iff, andb_true_iff, negb_true_iff, !Z.ltb_lt, Z.ltb_ge. lia.
Qed.

Lemma item_fst_less (x y : feeCacheItem) : fst x < fst y -> less x y = true.
Proof.
  unfold less, pair_less, less, Z_less. intros Hxy.
  apply orb_true_iff. left. now apply Z.ltb_lt.
Qed.

Lemma history_first_least (f : feeCacheItem) h e :
  is_set (f :: h) -> e ∈ f :: h -> fst f <= fst e.
Proof.
  intros Hs He. apply StronglySorted_inv in Hs as [_ Hf].
  apply elem_of_cons in He as [->|He]; [lia|].
  rewrite Forall_forall in Hf. now apply item_less_fst, Hf.
Qed.

Lemma history_last_greatest (h : list feeCacheItem) m e :
  is_set h -> last h = Some m -> e ∈ h -> fst e <= fst m.
Proof.
  intros Hs Hm He. destruct (is_set_last h m e Hs Hm He) as [->|Hlt]; [lia|].
  now apply item_less_fst.
Qed.

Lemma last_filter_keep {A} (P : A -> Prop) `{forall x, Decision (P x)} l m :
  last l = Some m -> P m -> last (filter P l) = Some m.
Proof.
  intros Hl HP. apply last_Some in Hl as [l' ->].
  rewrite filter_app, filter_cons, filter_nil.
  case_decide; [|done]. apply last_snoc.
Qed.

Lemma last_is_Some {A} (x : A) l : exists m, last (x :: l) = Some m.
Proof.
  destruct (last (x :: l)) as [m|] eqn:E; [eauto|].
  now apply last_None in E.
Qed.

Lemma rewritten_elem block amount h e :
  e ∈ rewritten block amount h <-> e = (block, amount) \/ (e ∈ h /\ fst e <> block).
Proof.
  unfold rewritten. rewrite set_insert_elem, list_elem_of_filter. tauto.
Qed.

Lemma rewritten_is_set block amount h : is_set h -> is_set (rewritten block amount h).
Proof. intros Hh. apply set_insert_is_set. now apply is_set_filter. Qed.

Lemma rewritten_typed block amount h :
  is_int block -> is_int64 amount -> Forall typed_item h ->
  Forall typed_item (rewritten block amount h).
Proof.
  intros Hb Ha Hh. apply Forall_forall. intros e He.
  apply rewritten_elem in He as [->|[He _]]; [done|].
  rewrite Forall_forall in Hh. auto.
Qed.

(** The new entry is the most recent one when no entry is above its block. *)
Lemma rewritten_last_new block amount h :
  (forall e, e ∈ h -> fst e <= block) ->
  last (rewritten block amount h) = Some (block, amount).
Proof.
  intros Hle. unfold rewritten. rewrite set_insert_above; [apply last_snoc|].
  apply Forall_forall. intros e He.
  apply list_elem_of_filter in He as [Hne He].
  apply item_fst_less. simpl. specialize (Hle _ He). lia.
Qed.

(** An entry above the block stays the most recent one. *)
Lemma rewritten_last_later block amount h m :
  is_set h -> last h = Some m -> block < fst m ->
  last (rewritten block amount h) = Some m.
Proof.
  intros Hs Hm Hlt.
  assert (is_set (rewritten block amount h)) as Hs' by now apply rewritten_is_set.
  assert (m ∈ rewritten block amount h) as Hin.
  { apply rewritten_elem. right. split; [|lia]. now apply last_Some_elem_of. }
  destruct (rewritten block amount h) as [|x r] eqn:E; [now apply elem_of_nil in Hin|].
  destruct (last_is_Some x r) as [m' Hm'].
  rewrite Hm'. f_equal.
  destruct (is_set_last _ m' m Hs' Hm' Hin) as [->|Hlt1]; [done|].
  assert (m' ∈ rewritten block amount h) as Hin'
    by (rewrite E; now apply last_Some_elem_of).
  apply rewritten_elem in Hin' as [->|[Hin' _]].
  - apply item_less_fst in Hlt1. simpl in Hlt1. lia.
  - destruct (is_set_last _ _ _ Hs Hm Hin') as [->|Hlt2]; [done|].
    pose proof (less_trans _ _ _ Hlt1 Hlt2) as Hmm.
    now rewrite less_irrefl in Hmm.
Qed.

Lemma filter_all {A} (P : A -> Prop) `{forall x, Decision (P x)} (l : list A) :
  Forall P l -> filter P l = l.
Proof.
  induction 1 as [|x l Hx Hl IH]; [done|].
  rewrite filter_cons_True by done. now rewrite IH.
Qed.

Lemma NoDup_fmap_inj_on {A B} (f : A -> B) (l : list A) x y :
  NoDup (f <$> l) -> x ∈ l -> y ∈ l -> f x = f y -> x = y.
Proof.
  induction l as [|a l IH]; [now intros _ ?%elem_of_nil|].
  rewrite fmap_cons, NoDup_cons, !elem_of_cons.
  intros [Ha Hnd] [->|Hx] [->|Hy] Hxy; auto.
  - exfalso. apply Ha. rewrite Hxy. now apply list_elem_of_fmap_2.
  - exfalso. apply Ha. rewrite <- Hxy. now apply list_elem_of_fmap_2.
Qed.

Lemma NoDup_fst_sub (h h' : list feeCacheItem) :
  NoDup h' -> (forall e, e ∈ h' -> e ∈ h) -> unique_heights h -> unique_heights h'.
Proof.
  unfold unique_heights. intros Hnd Hsub Hu.
  apply NoDup_fmap_2_strong; [|done].
  intros x y Hx Hy Hxy.
  apply (NoDup_fmap_inj_on fst h); auto.
Qed.

Lemma rewritten_unique block amount h :
  is_set h -> unique_heights h -> unique_heights (rewritten block amount h).
Proof.
  intros Hs Hu. unfold unique_heights.
  apply NoDup_fmap_2_strong.
  - intros x y Hx Hy Hxy.
    apply rewritten_elem in Hx as [->|[Hx Hxb]], Hy as [->|[Hy Hyb]];
      simpl in *; try done; try congruence.
    apply (NoDup_fmap_inj_on fst h); auto.
  - apply is_set_NoDup. now apply rewritten_is_set.
Qed.

Lemma rewritten_at_block block amount h e :
  e ∈ rewritten block amount h -> fst e = block -> e = (block, amount).
Proof. intros He Hb. apply rewritten_elem in He as [->|[_ ?]]; done. Qed.

Section PrunedFacts.
Context {W : Type} `{Collaborators W}.
Implicit Types (h : list feeCacheItem).

Lemma pruned_sub block h e : e ∈ pruned block h -> e ∈ h.
Proof.
  unfold pruned. destruct h as [|f h]; [done|].
  case_match; [done|].
  destruct (filter _ (f :: h)) as [|k kept] eqn:E.
  - destruct (last_is_Some f h) as [m Hm]. rewrite Hm.
    intros ->%list_elem_of_singleton. now apply last_Some_elem_of.
  - rewrite <- E. intros He. now apply list_elem_of_filter in He as [_ He].
Qed.

Lemma pruned_is_set block h : is_set h -> is_set (pruned block h).
Proof.
  intros Hs. unfold pruned. destruct h as [|f h]; [done|].
  case_match; [done|].
  destruct (filter _ (f :: h)) as [|k kept] eqn:E.
  - destruct (last_is_Some f h) as [m ->]. repeat constructor.
  - rewrite <- E. now apply is_set_filter.
Qed.

(** Pruning keeps the most recent entry. *)
Lemma pruned_last block h : is_set h -> last (pruned block h) = last h.
Proof.
  intros Hs. unfold pruned. destruct h as [|f h]; [done|].
  case_match; [done|].
  destruct (last_is_Some f h) as [m Hm].
  destruct (filter _ (f :: h)) as [|k kept] eqn:E.
  - now rewrite Hm.
  - assert (k ∈ k :: kept) as Hk by left.
    rewrite <- E in Hk. apply list_elem_of_filter in Hk as [Hkeep Hk].
    rewrite <- E, Hm. apply last_filter_keep; [done|].
    pose proof (history_last_greatest _ _ _ Hs Hm Hk) as Hle.
    apply andb_false_iff in Hkeep as [Hkeep|Hkeep];
      [|rewrite Hkeep; apply andb_false_r].
    apply andb_false_iff. left. apply Z.ltb_ge. apply Z.ltb_ge in Hkeep. lia.
Qed.

Lemma pruned_keeps block h e :
  e ∈ h -> to_int (block - MAX_STATE_HISTORY) <= fst e -> e ∈ pruned block h.
Proof.
  intros He Hle. unfold pruned. destruct h as [|f h]; [done|].
  case_match; [done|].
  assert (e ∈ filter (fun e => ((fst e <? to_int (block - MAX_STATE_HISTORY))
                                 && exodus_debug_fees) = false) (f :: h)) as Hin.
  { apply list_elem_of_filter. split; [|done].
    apply andb_false_iff. left. now apply Z.ltb_ge. }
  destruct (filter _ (f :: h)); [now apply elem_of_nil in Hin|done].
Qed.

Lemma pruned_unique block h :
  is_set h -> unique_heights h -> unique_heights (pruned block h).
Proof.
  intros Hs Hu. eapply NoDup_fst_sub; [|apply pruned_sub|done].
  apply is_set_NoDup. now apply pruned_is_set.
Qed.

Lemma pruned_typed block h : Forall typed_item h -> Forall typed_item (pruned block h).
Proof.
  rewrite !Forall_forall. intros Hh e He. apply Hh. eapply pruned_sub, He.
Qed.

(** Without the debug flag the loop of [PruneCache] skips nothing. *)
Lemma pruned_without_debug block h :
  exodus_debug_fees = false -> pruned block h = h.
Proof.
  intros Hd. unfold pruned. destruct h as [|f h]; [done|].
  case_match; [done|].
  rewrite Hd.
  assert (filter (fun e => ((fst e <? to_int (block - MAX_STATE_HISTORY)) && false) = false)
            (f :: h) = f :: h) as ->; [|done].
  apply filter_all. apply Forall_forall. intros e _. apply andb_false_r.
Qed.

(** With the debug flag the loop implements the pruning rule. *)
Lemma pruned_with_debug block h :
  exodus_debug_fees = true -> is_set h ->
  pruned block h = prune_spec (to_int (block - MAX_STATE_HISTORY)) h.
Proof.
  intros Hd Hs. unfold pruned, prune_spec. rewrite Hd.
  set (pb := to_int (block - MAX_STATE_HISTORY)).
  assert (filter (fun e => ((fst e <? pb) && true) = false) h
          = filter (fun e => pb <= fst e) h) as ->.
  { apply list_filter_iff. intros e. rewrite andb_true_r. apply Z.ltb_ge. }
  destruct h as [|f h]; [done|].
  destruct (Z.leb_spec pb (fst f)) as [Hle|Hlt]; [|done].
  assert (filter (fun e => pb <= fst e) (f :: h) = f :: h) as ->; [|done].
  apply filter_all. apply Forall_forall. intros e He.
  pose proof (history_first_least _ _ _ Hs He). lia.
Qed.

End PrunedFacts.

(** ** What the functions of the fee cache store *)

Lemma fold_readd_text l : fold_left readd l EmptyString = cache_text l.
Proof. rewrite fold_readd. now destruct l. Qed.

Lemma readd_text l e : readd (cache_text l) e = cache_text (l ++ [e]).
Proof.
  rewrite <- !fold_readd_text. now rewrite fold_left_app.
Qed.

(** The value that [AddFee] and [ClearCache] build for the store. *)
Lemma rewrite_loop_text block amount (h : list feeCacheItem) :
  match h with
  | [] => EmptyString
  | _ =>
      if str_empty
           (fold_left
              (fun newValue tempItem =>
                 if fst tempItem =? block then newValue
                 else readd newValue tempItem)
              h EmptyString)
      then
        fold_left
          (fun newValue tempItem =>
             if fst tempItem =? block then newValue
             else readd newValue tempItem)
          h EmptyString
      else
        fold_left
          (fun newValue tempItem =>
             if fst tempItem =? block then newValue
             else readd newValue tempItem)
          h EmptyString +:+ ","
  end +:+ fmt_cache_item (block, amount)
  = cache_text (filter (fun e => (fst e =? block) = false) h ++ [(block, amount)]).
Proof.
  rewrite <- readd_text.
  destruct h as [|f h]; [done|].
  rewrite (fold_readd_skip (fun e => fst e =? block)), fold_readd_text.
  reflexivity.
Qed.

Lemma rewritten_of_list block amount h :
  is_set h ->
  set_of_list (filter (fun e => (fst e =? block) = false) h ++ [(block, amount)])
  = rewritten block amount h.
Proof.
  intros Hs. rewrite set_of_list_snoc, set_of_list_id by now apply is_set_filter.
  unfold rewritten. f_equal. apply list_filter_iff. intros e. apply Z.eqb_neq.
Qed.

Section CacheRuns.
Context {W : Type} `{Collaborators W}.
Implicit Types (st : State W) (p : N) (h : list feeCacheItem).

Lemma history_rewrite st p block amount h :
  history st p = Some h -> is_int block -> is_int64 amount ->
  history
    (put_cache p
       (cache_text (filter (fun e => (fst e =? block) = false) h ++ [(block, amount)]))
       st) p
  = Some (rewritten block amount h).
Proof.
  intros Hh Hb Ha. destruct (history_typed _ _ _ Hh) as [Hs Ht].
  rewrite history_put_cache; [now rewrite rewritten_of_list|].
  apply Forall_app. split; [|constructor; [done|constructor]].
  apply Forall_forall. intros e He. apply list_elem_of_filter in He as [_ He].
  rewrite Forall_forall in Ht. auto.
Qed.

Lemma PruneCache_run st p block h :
  history st p = Some h ->
  exists st', PruneCache p block st = Done tt st' /\
    cache_step p st st' /\ history st' p = Some (pruned block h).
Proof.
  intros Hh. destruct (history_typed _ _ _ Hh) as [Hs Ht].
  unfold PruneCache, bind. rewrite (GetCacheHistory_run _ _ _ Hh).
  unfold pruned. destruct h as [|f h].
  { exists st. auto using cache_step_refl. }
  destruct (to_int (block - MAX_STATE_HISTORY) <=? fst f).
  { exists st. auto using cache_step_refl. }
  rewrite (fold_readd_skip
             (fun e => (fst e <? to_int (block - MAX_STATE_HISTORY)) && exodus_debug_fees)),
    fold_readd_text.
  assert (is_set (filter (fun e => ((fst e <? to_int (block - MAX_STATE_HISTORY))
                                    && exodus_debug_fees) = false) (f :: h))) as Hks
    by now apply is_set_filter.
  assert (Forall typed_item
            (filter (fun e => ((fst e <? to_int (block - MAX_STATE_HISTORY))
                               && exodus_debug_fees) = false) (f :: h))) as Hkt.
  { apply Forall_forall. intros e He. apply list_elem_of_filter in He as [_ He].
    rewrite Forall_forall in Ht. auto. }
  destruct (filter _ (f :: h)) as [|k kept].
  - destruct (last_is_Some f h) as [m Hm]. rewrite Hm.
    change (str_empty (cache_text [])) with true. cbv iota.
    exists (put_cache p (cache_text [m]) st).
    split; [reflexivity|]. split; [apply cache_step_put|].
    rewrite history_put_cache; [done|].
    repeat constructor; rewrite Forall_forall in Ht;
      apply Ht; now apply last_Some_elem_of.
  - assert (str_empty (cache_text (k :: kept)) = false) as ->.
    { destruct (str_empty (cache_text (k :: kept))) eqn:E; [|done].
      now apply cache_text_empty in E. }
    exists (put_cache p (cache_text (k :: kept)) st).
    split; [reflexivity|]. split; [apply cache_step_put|].
    rewrite history_put_cache by done. now rewrite set_of_list_id.
Qed.

(** [ClearCache] stores the rewritten set and then prunes. *)
Lemma ClearCache_steps st p block h :
  history st p = Some h -> is_int block ->
  exists st1, ClearCache p block st = PruneCache p block st1 /\
    cache_step p st st1 /\ history st1 p = Some (rewritten block 0 h).
Proof.
  intros Hh Hb.
  unfold ClearCache, bind at 1. rewrite (GetCacheHistory_run _ _ _ Hh).
  cbv beta iota zeta. rewrite rewrite_loop_text.
  eexists (put_cache p _ st). split; [reflexivity|].
  split; [apply cache_step_put|].
  apply history_rewrite; [done..|]. unfold is_int64, INT64_MIN, INT64_MAX. lia.
Qed.

Lemma ClearCache_run st p block h :
  history st p = Some h -> is_int block ->
  exists st', ClearCache p block st = Done tt st' /\
    cache_step p st st' /\
    history st' p = Some (pruned block (rewritten block 0 h)).
Proof.
  intros Hh Hb.
  destruct (ClearCache_steps _ _ _ _ Hh Hb) as (st1 & -> & Hstep1 & Hh1).
  destruct (PruneCache_run st1 p block _ Hh1) as (st' & Hrun & Hstep & Hh').
  exists st'. split; [done|]. split; [|done].
  eapply cache_step_trans; eauto.
Qed.

End CacheRuns.


(** ** [PruneCache] against the pruning rule *)

Section PruneRule.
Context {W : Type} `{Collaborators W}.

Lemma PruneCache_with_debug (st : State W) p block h :
  exodus_debug_fees = true ->
  history st p = Some h ->
  exists st', PruneCache p block st = Done tt st' /\
    history st' p = Some (prune_spec (to_int (block - MAX_STATE_HISTORY)) h).
Proof.
  intros Hd Hh. destruct (history_typed _ _ _ Hh) as [Hs _].
  destruct (PruneCache_run st p block h Hh) as (st' & Hrun & _ & Hh').
  exists st'. split; [done|]. now rewrite <- pruned_with_debug.
Qed.

Lemma PruneCache_without_debug (st : State W) p block h :
  exodus_debug_fees = false ->
  history st p = Some h ->
  exists st', PruneCache p block st = Done tt st' /\ history st' p = Some h.
Proof.
  intros Hd Hh.
  destruct (PruneCache_run st p block h Hh) as (st' & Hrun & _ & Hh').
  exists st'. split; [done|]. now rewrite pruned_without_debug in Hh'.
Qed.

End PruneRule.

(** ** Distribution thresholds *)

Lemma quot_int64 a d : is_int64 a -> 0 < d -> is_int64 (Z.quot a d).
Proof.
  unfold is_int64, INT64_MIN, INT64_MAX. intros Ha Hd.
  destruct (Z.le_gt_cases 0 a) as [Hpos|Hneg].
  - pose proof (Z.quot_pos a d Hpos Hd).
    pose proof (Z.quot_le_upper_bound a d a Hd). nia.
  - pose proof (Z.quot_opp_l a d ltac:(lia)) as Ho.
    pose proof (Z.quot_pos (- a) d ltac:(lia) Hd).
    pose proof (Z.quot_le_upper_bound (- a) d (- a) Hd). nia.
Qed.


(** ** Rolling back the fee cache *)

Lemma for_each_app {W A} (l1 l2 : list A) (body : A -> M W unit) st :
  for_each (l1 ++ l2) body st = (for_each l1 body ;;; for_each l2 body) st.
Proof.
  revert st. induction l1 as [|x l1 IH]; intros st.
  - simpl. unfold bind, ret. now destruct (for_each l2 body st).
  - simpl. unfold bind in *. destruct (body x st) as [[] st1|f st1]; [|done].
    now rewrite IH.
Qed.

Lemma cache_step_only {W} p (st st' : State W) :
  cache_step p st st' -> cache_only st st'.
Proof. intros [? ? ? ? ? ?]. now split. Qed.

Lemma cache_only_refl {W} (st : State W) : cache_only st st.
Proof. now split. Qed.

Lemma cache_only_trans {W} (st1 st2 st3 : State W) :
  cache_only st1 st2 -> cache_only st2 st3 -> cache_only st1 st3.
Proof. intros [? ? ? ? ?] [? ? ? ? ?]. split; congruence. Qed.

Lemma below_below block h : below block (below block h) = below block h.
Proof.
  unfold below. apply filter_all, Forall_forall.
  intros e He. now apply list_elem_of_filter in He as [? _].
Qed.

Section RollBackCacheFacts.
Context {W : Type} `{Collaborators W}.
Implicit Types (st : State W) (p : N) (h : list feeCacheItem).

Lemma RollBackCache_property_run st p block h :
  history st p = Some h ->
  exists st', RollBackCache_property block p st = Done tt st' /\
    cache_step p st st' /\ history st' p = Some (below block h).
Proof.
  intros Hh. destruct (history_typed _ _ _ Hh) as [Hs Ht].
  unfold RollBackCache_property, bind. rewrite (GetCacheHistory_run _ _ _ Hh).
  destruct (last h) as [m|] eqn:Hm.
  - destruct (Z.ltb_spec (fst m) block) as [Hlt|Hge].
    + exists st. split; [done|]. split; [apply cache_step_refl|].
      unfold below. rewrite filter_all; [done|].
      apply Forall_forall. intros e He.
      pose proof (history_last_greatest _ _ _ Hs Hm He). lia.
    + rewrite (fold_readd_skip (fun e => block <=? fst e)), fold_readd_text.
      eexists (put_cache p _ st). split; [reflexivity|].
      split; [apply cache_step_put|].
      rewrite history_put_cache.
      * rewrite set_of_list_id by now apply is_set_filter.
        f_equal. apply list_filter_iff. intros e. apply Z.leb_gt.
      * apply Forall_forall. intros e He.
        apply list_elem_of_filter in He as [_ He].
        rewrite Forall_forall in Ht. auto.
  - apply last_None in Hm. subst h.
    exists st. split; [done|]. split; [apply cache_step_refl|done].
Qed.

(** A history that is entirely below the block is not written at all. *)
Lemma RollBackCache_property_noop st p block h :
  history st p = Some h ->
  (forall e, e ∈ h -> fst e < block) ->
  RollBackCache_property block p st = Done tt st.
Proof.
  intros Hh Hlt.
  unfold RollBackCache_property, bind. rewrite (GetCacheHistory_run _ _ _ Hh).
  destruct (last h) as [m|] eqn:Hm; [|done].
  assert (fst m < block) as Hm' by (apply Hlt; now apply last_Some_elem_of).
  apply Z.ltb_lt in Hm'. now rewrite Hm'.
Qed.

Lemma rollback_loop (l : list N) block st :
  (forall p, p ∈ l -> is_Some (history st p)) ->
  exists st', for_each l (RollBackCache_property block) st = Done tt st' /\
    cache_only st st' /\
    (forall p h, history st p = Some h ->
       history st' p = Some (if decide (p ∈ l) then below block h else h)) /\
    (forall p, p ∉ l -> feecache_db st' !! fmt_010d p = feecache_db st !! fmt_010d p).
Proof.
  revert st. induction l as [|x l IH]; intros st Hall.
  - exists st. split; [done|]. split; [apply cache_only_refl|]. split; [|done].
    intros p h Hh. rewrite decide_False; [done|]. apply not_elem_of_nil.
  - destruct (Hall x ltac:(left)) as [hx Hhx].
    destruct (RollBackCache_property_run st x block hx Hhx)
      as (st1 & Hrun1 & Hstep1 & Hh1).
    destruct (IH st1) as (st' & Hrun & Honly & Hhist & Hother).
    { intros q Hq. destruct (decide (q = x)) as [->|Hne]; [eauto|].
      rewrite (cache_step_history _ _ _ _ Hstep1 Hne). apply Hall. now right. }
    exists st'. split; [|split; [|split]].
    + simpl. unfold bind. now rewrite Hrun1.
    + eapply cache_only_trans; [eapply cache_step_only|]; eauto.
    + intros q h Hh. destruct (decide (q = x)) as [->|Hne].
      * rewrite Hhx in Hh. simplify_eq. rewrite (Hhist _ _ Hh1).
        rewrite (decide_True (P := x ∈ x :: l)) by left.
        case_decide; [now rewrite below_below|done].
      * rewrite <- (cache_step_history _ _ _ _ Hstep1 Hne) in Hh.
        rewrite (Hhist _ _ Hh). f_equal.
        apply decide_ext. rewrite elem_of_cons. tauto.
    + intros q Hq. apply not_elem_of_cons in Hq as [Hne Hq].
      rewrite (Hother _ Hq). apply (step_other _ _ _ Hstep1).
      intros Heq. apply Hne. now apply fmt_010d_inj.
Qed.

Lemma rollback_loop_noop (l : list N) block st :
  (forall p, p ∈ l -> exists h, history st p = Some h /\
                                forall e, e ∈ h -> fst e < block) ->
  for_each l (RollBackCache_property block) st = Done tt st.
Proof.
  induction l as [|x l IH]; intros Hall; [done|].
  destruct (Hall x ltac:(left)) as (hx & Hhx & Hlt).
  simpl. unfold bind. rewrite (RollBackCache_property_noop _ _ _ _ Hhx Hlt).
  apply IH. intros q Hq. apply Hall. now right.
Qed.

Lemma RollBackCache_property_only st st' p block :
  RollBackCache_property block p st = Done tt st' -> cache_only st st'.
Proof.
  destruct (history st p) as [h|] eqn:Hh.
  - destruct (RollBackCache_property_run st p block h Hh) as (s & -> & Hstep & _).
    intros [= <-]. eapply cache_step_only, Hstep.
  - unfold RollBackCache_property, bind.
    now rewrite (GetCacheHistory_throws _ _ Hh).
Qed.

Lemma rollback_loop_only (l : list N) block st st' :
  for_each l (RollBackCache_property block) st = Done tt st' -> cache_only st st'.
Proof.
  revert st. induction l as [|x l IH]; intros st; simpl.
  - intros [= <-]. apply cache_only_refl.
  - unfold bind.
    destruct (RollBackCache_property block x st) as [[] st1|] eqn:E; [|done].
    intros Hl. eapply cache_only_trans; [|eapply IH, Hl].
    eapply RollBackCache_property_only, E.
Qed.

(** The two ecosystem loops visit the known properties one after the other. *)
Lemma RollBackCache_known block st st' :
  for_each (known_properties (world st)) (RollBackCache_property block) st
  = Done tt st' ->
  RollBackCache block st = Done tt st'.
Proof.
  unfold RollBackCache, known_properties. rewrite for_each_app.
  simpl for_each. unfold bind, get_state, ret. cbn [N.eqb Pos.eqb].
  destruct (for_each (property_range 1 (peekNextSPID (world st) 1)) _ st)
    as [[] st1|f st1] eqn:E1; [|done].
  rewrite (only_world _ _ (rollback_loop_only _ _ _ _ E1)).
  now destruct (for_each _ _ st1) as [[]|].
Qed.

End RollBackCacheFacts.


(** ** Rolling back the fee history *)

Lemma with_feehistory_db_same {W} (st : State W) :
  with_feehistory_db (fun _ => feehistory_db st) st = st.
Proof. now destruct st. Qed.

Lemma RollBackHistory_record_run {W} block (record : string * string) (st : State W) :
  scans (snd record) ->
  RollBackHistory_record block record st
  = Done tt (with_feehistory_db
               (fun _ => rollback_step block (feehistory_db st) record) st).
Proof.
  unfold scans, RollBackHistory_record, rollback_step, doomed, stored_block.
  destruct (split ":" (snd record)) as [|b [|f2 [|f3 [|f4 [|? ?]]]]];
    try (intros _; now rewrite with_feehistory_db_same).
  intros [fb Hfb]. unfold bind, from_cast. rewrite Hfb. unfold ret.
  destruct (block <=? fb); [reflexivity|now rewrite with_feehistory_db_same].
Qed.

Lemma rollback_history_loop {W} block (l : list (string * string)) (st : State W) :
  Forall (fun record => scans (snd record)) l ->
  for_each l (RollBackHistory_record block) st
  = Done tt (with_feehistory_db
               (fun _ => fold_left (rollback_step block) l (feehistory_db st)) st).
Proof.
  intros Hl. revert st. induction Hl as [|record l Hr Hl IH]; intros st.
  - simpl. unfold ret. now rewrite with_feehistory_db_same.
  - simpl. unfold bind. rewrite RollBackHistory_record_run by done.
    rewrite IH. reflexivity.
Qed.

Lemma rollback_fold_absent block l (db : gmap string string) k :
  db !! k = None -> fold_left (rollback_step block) l db !! k = None.
Proof.
  revert db. induction l as [|record l IH]; intros db Hk; [done|].
  simpl. apply IH. unfold rollback_step.
  destruct (doomed block (snd record)); [|done].
  rewrite lookup_delete. case_decide; done.
Qed.

Lemma rollback_fold_kept block l (db : gmap string string) k :
  (forall v, (k, v) ∈ l -> doomed block v = false) ->
  fold_left (rollback_step block) l db !! k = db !! k.
Proof.
  revert db. induction l as [|[k' v'] l IH]; intros db Hk; [done|].
  simpl. rewrite IH by (intros v Hv; apply Hk; now right).
  unfold rollback_step. simpl.
  destruct (doomed block v') eqn:Hd; [|done].
  apply lookup_delete_ne. intros ->.
  rewrite (Hk v') in Hd; [done|left].
Qed.

Lemma rollback_fold_deleted block l (db : gmap string string) k v :
  (k, v) ∈ l -> doomed block v = true ->
  fold_left (rollback_step block) l db !! k = None.
Proof.
  revert db. induction l as [|[k' v'] l IH]; intros db Hin Hd.
  - now apply elem_of_nil in Hin.
  - simpl. apply elem_of_cons in Hin as [[= <- <-]|Hin]; [|now apply IH].
    apply rollback_fold_absent. unfold rollback_step. simpl.
    rewrite Hd. apply lookup_delete_eq.
Qed.

Lemma elem_of_db_scan (db : gmap string string) k v :
  (k, v) ∈ db_scan db <-> db !! k = Some v.
Proof.
  unfold db_scan. rewrite merge_sort_Permutation. apply elem_of_map_to_list.
Qed.

Lemma doomed_stored block v :
  doomed block v = true <-> exists b, stored_block v = Some b /\ block <= b.
Proof.
  unfold doomed. destruct (stored_block v) as [b|].
  - rewrite Z.leb_le. split; [eauto|]. now intros (b' & [= <-] & ?).
  - split; [done|]. now intros (b & ? & _).
Qed.

(** ** The text of a fee history record and what is read back from it *)

Lemma recipients_loop_text (l : list feeHistoryItem) acc :
  l <> [] ->
  fold_left (fun str tempRecipient => str +:+ fmt_recipient tempRecipient) l acc
  = acc +:+ join_comma (recipient_text <$> l) +:+ ",".
Proof.
  revert acc. induction l as [|r l IH]; intros acc Hne; [done|].
  simpl fold_left. destruct l as [|r' l].
  - simpl. unfold fmt_recipient, recipient_text. now rewrite !app_assoc_s.
  - rewrite IH by done.
    change (join_comma (recipient_text <$> r :: r' :: l))
      with (recipient_text r +:+ "," +:+ join_comma (recipient_text <$> r' :: l)).
    unfold fmt_recipient, recipient_text. now rewrite !app_assoc_s.
Qed.

Lemma RecordFeeDistribution_run {W} (st : State W) p block total recipients :
  RecordFeeDistribution p block total recipients st
  = Done tt (with_feehistory_db
               (insert (fmt_d (next_id st)) (record_text p block total recipients))
               st).
Proof.
  unfold RecordFeeDistribution, CountRecords, bind, get_state, ret, modify.
  unfold record_text, next_id. do 3 f_equal.
  destruct recipients as [|r l]; [done|].
  rewrite recipients_loop_text by done.
  change (EmptyString +:+ ?x) with x.
  replace (join_comma (recipient_text <$> r :: l) +:+ ",")
    with (join_comma (recipient_text <$> r :: l) +:+ String "," EmptyString) by done.
  rewrite drop_last_snoc.
  destruct (join_comma _); reflexivity.
Qed.

Lemma free_of_weaken (big small : string) s :
  (forall c, is_any_of small c = true -> is_any_of big c = true) ->
  free_of big s = true -> free_of small s = true.
Proof.
  intros Hsub. unfold free_of. apply string_forall_impl.
  intros c Hc. apply negb_true_iff. apply negb_true_iff in Hc.
  destruct (is_any_of small c) eqn:E; [|done]. now rewrite (Hsub _ E) in Hc.
Qed.

Lemma plain_address_colon a : plain_address a -> free_of ":" a = true.
Proof.
  apply free_of_weaken. intros c. simpl.
  destruct (Ascii.eqb c ":"); [done|discriminate].
Qed.

Lemma plain_address_comma a : plain_address a -> free_of "," a = true.
Proof.
  apply free_of_weaken. intros c. simpl.
  destruct (Ascii.eqb c ","); [|discriminate]. intros _.
  now destruct (Ascii.eqb c ":").
Qed.

Lemma plain_address_equals a : plain_address a -> free_of "=" a = true.
Proof.
  apply free_of_weaken. intros c. simpl.
  destruct (Ascii.eqb c "="); [|discriminate]. intros _.
  now destruct (Ascii.eqb c ":"), (Ascii.eqb c ",").
Qed.

Lemma free_of_app delims a b :
  free_of delims (a +:+ b) = free_of delims a && free_of delims b.
Proof. apply string_forall_app. Qed.

Lemma recipient_text_free delims r :
  free_of delims "-0123456789" = true -> free_of delims "=" = true ->
  free_of delims (fst r) = true ->
  free_of delims (recipient_text r) = true.
Proof.
  intros Hd He Ha. unfold recipient_text.
  now rewrite !free_of_app, Ha, He, fmt_d_free.
Qed.

Lemma recipient_text_nonempty r : str_empty (recipient_text r) = false.
Proof.
  unfold recipient_text. rewrite !str_empty_app. apply andb_false_r.
Qed.

Lemma join_comma_free_colon (ts : list string) :
  Forall (fun t => free_of ":" t = true) ts -> free_of ":" (join_comma ts) = true.
Proof.
  induction 1 as [|t ts Ht Hts IH]; [done|].
  destruct ts as [|t' ts]; [done|].
  change (join_comma (t :: t' :: ts)) with (t +:+ "," +:+ join_comma (t' :: ts)).
  now rewrite !free_of_app, Ht, IH.
Qed.

Lemma split_record_text p block total recipients :
  Forall (fun r => plain_address (fst r)) recipients ->
  split ":" (record_text p block total recipients)
  = [fmt_d block; fmt_u p; fmt_d total; join_comma (recipient_text <$> recipients)].
Proof.
  intros Hr. unfold split, record_text. rewrite !app_char.
  rewrite split_from_field;
    [|apply (fmt_d_free ":"); reflexivity|now left|reflexivity].
  rewrite split_from_field;
    [|apply (fmt_u_free ":"); reflexivity|right; apply fmt_u_nonempty|reflexivity].
  rewrite split_from_field;
    [|apply (fmt_d_free ":"); reflexivity|right; apply fmt_d_nonempty|reflexivity].
  rewrite split_from_token; [done|].
  apply join_comma_free_colon, Forall_fmap, Forall_forall. intros r Hin.
  rewrite Forall_forall in Hr. simpl.
  apply recipient_text_free; [reflexivity..|]. now apply plain_address_colon, Hr.
Qed.

Lemma split_recipient_text r :
  free_of "=" (fst r) = true ->
  split "=" (recipient_text r) = [fst r; fmt_d (snd r)].
Proof.
  intros Ha. unfold split, recipient_text.
  change (("=" +:+ ?x)) with (String "=" x).
  rewrite split_from_field; [|done|now left|reflexivity].
  f_equal. apply split_from_token. apply (fmt_d_free "="). reflexivity.
Qed.

Lemma parse_fee_items_text (l acc : list feeHistoryItem) :
  Forall typed_recipient l ->
  parse_fee_items (recipient_text <$> l) acc
  = Some (fold_left (fun s x => set_insert x s) l acc).
Proof.
  intros Hl. revert acc. induction Hl as [|[a z] l [Ha Hz] Hl IH]; intros acc;
    [done|].
  rewrite fmap_cons. simpl parse_fee_items.
  rewrite split_recipient_text by now apply plain_address_equals.
  simpl in *. rewrite (lexical_cast_int64_fmt_d z) by done. simpl. apply IH.
Qed.

Lemma parse_fee_text (l : list feeHistoryItem) :
  Forall typed_recipient l ->
  parse_fee_items (split "," (join_comma (recipient_text <$> l))) []
  = Some (set_of_list l).
Proof.
  intros Hl. destruct l as [|r l]; [reflexivity|].
  unfold split. rewrite split_join_comma.
  - now apply parse_fee_items_text.
  - done.
  - apply Forall_fmap, Forall_forall. intros x Hx. simpl.
    rewrite Forall_forall in Hl. destruct (Hl _ Hx) as [Ha _].
    split; [|apply recipient_text_nonempty].
    apply recipient_text_free; [reflexivity..|]. now apply plain_address_comma.
Qed.


(** ** Distribution and [AddFee] *)

Lemma with_world_same {W} (st : State W) : with_world (world st) st = st.
Proof. now destruct st. Qed.

Lemma cached_int64 h : Forall typed_item h -> is_int64 (cached h).
Proof.
  intros Ht. unfold cached. destruct (last h) as [m|] eqn:Hm.
  - rewrite Forall_forall in Ht. apply Ht. now apply last_Some_elem_of.
  - unfold is_int64, INT64_MIN, INT64_MAX. lia.
Qed.

Section DistributionFacts.
Context {W : Type} `{Collaborators W}.
Implicit Types (st : State W) (p : N) (h : list feeCacheItem).

Lemma credit_receivers_run p rs sent items st :
  is_int64 sent ->
  credit_receivers p rs sent items st
  = if fst (credit_all (world st) p rs)
    then Done (to_int64 (sent + sum_shares rs),
               fold_left (fun s x => set_insert x s)
                 ((fun it => (snd it, fst it)) <$> rs) items)
           (with_world (snd (credit_all (world st) p rs)) st)
    else Abort AssertionFailed (with_world (snd (credit_all (world st) p rs)) st).
Proof.
  revert sent items st. induction rs as [|it rs IH]; intros sent items st Hsent.
  - simpl. rewrite Z.add_0_r, to_int64_id, with_world_same by done. reflexivity.
  - simpl credit_receivers. unfold bind at 1, get_state. unfold bind at 1, modify.
    unfold bind at 1. simpl credit_all.
    destruct (update_tally_map (world st) (snd it) p (fst it)) as [ok w1]. simpl.
    destruct ok; [|reflexivity]. unfold assert, ret.
    rewrite IH by apply to_int64_is_int64. cbn [world with_world].
    rewrite to_int64_add_l, Z.add_assoc.
    destruct (credit_all w1 p rs) as [ok w2]. reflexivity.
Qed.

(** [DistributeCache], step by step. *)
Lemma DistributeCache_steps st p block h :
  history st p = Some h ->
  DistributeCache p block st
  = let rs := rev (receivers_for (world st) p (cached h)) in
    let r := credit_all (world st) p rs in
    let st_paid := with_world (snd r) st in
    let st_recorded :=
      with_feehistory_db
        (insert (fmt_d (next_id st))
           (record_text p block (to_int64 (sum_shares rs)) (recipients_of rs)))
        st_paid in
    if fst r then
      if to_int64 (sum_shares rs) =? cached h
      then ClearCache p block st_recorded
      else Abort AssertionFailed st_recorded
    else Abort AssertionFailed st_paid.
Proof.
  intros Hh. unfold DistributeCache, bind at 1.
  rewrite (GetCachedAmount_run _ _ _ Hh).
  unfold bind at 1, get_state. unfold bind at 1.
  fold (receivers_for (world st) p (cached h)).
  rewrite credit_receivers_run by (unfold is_int64, INT64_MIN, INT64_MAX; lia).
  cbv zeta. destruct (credit_all (world st) p _) as [ok w1]. cbn [fst snd].
  destruct ok; [|reflexivity].
  unfold bind at 1. rewrite RecordFeeDistribution_run.
  unfold bind at 1, assert. rewrite Z.add_0_l.
  destruct (_ =? cached h); reflexivity.
Qed.

Lemma EvalCache_steps st p block h :
  history st p = Some h ->
  EvalCache p block st
  = let v := default 0 (distributionThresholds st !! p) in
    let st1 := with_thresholds (insert p v) st in
    if v <=? cached h then DistributeCache p block st1 else Done tt st1.
Proof.
  intros Hh. unfold EvalCache, bind at 1.
  rewrite (GetCachedAmount_run _ _ _ Hh).
  unfold threshold_entry, bind, get_state, modify, ret. cbv zeta.
  destruct (_ <=? cached h); reflexivity.
Qed.

(** [AddFee] up to the point where the rewritten history is in the store. *)
Lemma AddFee_steps st p block amount h :
  history st p = Some h -> is_int block -> is_int64 amount ->
  let c := cached h in
  let msg := overflow_message block p c amount in
  let stored := fun s0 =>
    put_cache p
      (cache_text (filter (fun e => (fst e =? block) = false) h
                   ++ [(block, to_int64 (c + amount))])) s0 in
  AddFee p block amount st =
  if decide (overflows c amount) then
    if overrideforcedshutdown
    then (PruneCache p block ;;; EvalCache p block) (stored (with_log msg st))
    else Abort NodeAborted
           (if persist_exists st then with_persist false (with_log msg st)
            else with_log msg st)
  else (PruneCache p block ;;; EvalCache p block) (stored st).
Proof.
  intros Hh Hb Ha c msg stored.
  destruct (history_typed _ _ _ Hh) as [Hs Ht].
  pose proof (cached_int64 h Ht) as Hc. fold c in Hc.
  assert (((0 <? c) && (to_int64 (INT64_MAX - c) <? amount)) = true
          <-> overflows c amount) as Hcond.
  { unfold overflows. destruct (Z.ltb_spec 0 c) as [Hpos|Hneg].
    - rewrite to_int64_id by (unfold is_int64, INT64_MIN, INT64_MAX in *; lia).
      rewrite andb_true_l, Z.ltb_lt. lia.
    - rewrite andb_false_l. split; [done|lia]. }
  unfold AddFee. unfold bind at 1. rewrite (GetCachedAmount_run _ _ _ Hh).
  cbv beta iota zeta. fold c. fold msg. unfold bind at 1.
  destruct ((0 <? c) && (to_int64 (INT64_MAX - c) <? amount)) eqn:E.
  - rewrite decide_True by now apply Hcond.
    unfold bind at 1, modify. cbv beta iota.
    destruct overrideforcedshutdown.
    + change (negb true) with false. cbv beta iota. unfold ret at 1.
      unfold bind at 1.
      rewrite (GetCacheHistory_run (with_log msg st) p h Hh).
      cbv beta iota. unfold bind at 1. rewrite rewrite_loop_text. reflexivity.
    + change (negb false) with true. cbv beta iota.
      unfold bind at 1. unfold bind at 1. unfold get_state at 1.
      cbn [persist_exists with_log].
      destruct (persist_exists st); reflexivity.
  - rewrite decide_False by (rewrite <- Hcond; congruence).
    unfold ret at 1. unfold bind at 1.
    rewrite (GetCacheHistory_run _ _ _ Hh).
    cbv beta iota. unfold bind at 1. rewrite rewrite_loop_text. reflexivity.
Qed.

End DistributionFacts.


Lemma sum_shares_app rs1 rs2 :
  sum_shares (rs1 ++ rs2) = sum_shares rs1 + sum_shares rs2.
Proof.
  unfold sum_shares. induction rs1 as [|it rs1 IH]; simpl; [done|].
  rewrite IH. lia.
Qed.

Lemma sum_shares_rev rs : sum_shares (rev rs) = sum_shares rs.
Proof.
  induction rs as [|it rs IH]; [done|].
  simpl rev. rewrite sum_shares_app, IH. unfold sum_shares. simpl. lia.
Qed.

Section FeeRuns.
Context {W : Type} `{Collaborators W}.
Implicit Types (st : State W) (p : N) (h : list feeCacheItem).

Lemma pruned_singleton block (e : feeCacheItem) : pruned block [e] = [e].
Proof.
  unfold pruned. case_match; [done|].
  rewrite filter_cons, filter_nil. now case_decide.
Qed.

(** What [PruneCache] and [EvalCache] leave when they both return. *)
Lemma fee_continuation st1 st' p block hr :
  history st1 p = Some hr -> is_int block ->
  (PruneCache p block ;;; EvalCache p block) st1 = Done tt st' ->
  let h1 := pruned block hr in
  let v := default 0 (distributionThresholds st1 !! p) in
  history st' p = Some (if v <=? cached h1 then pruned block (rewritten block 0 h1) else h1).
Proof.
  intros Hh Hb. unfold bind.
  destruct (PruneCache_run st1 p block hr Hh) as (st2 & -> & Hstep & Hh2).
  rewrite (EvalCache_steps _ _ _ _ Hh2). cbv zeta.
  rewrite (step_thresholds _ _ _ Hstep).
  destruct (_ <=? cached (pruned block hr)); [|now intros [= <-]].
  set (st3 := with_thresholds _ st2).
  assert (history st3 p = Some (pruned block hr)) as Hh3 by exact Hh2.
  rewrite (DistributeCache_steps _ _ _ _ Hh3). cbv zeta.
  destruct (fst (credit_all _ _ _)); [|done].
  destruct (_ =? _); [|done].
  set (st4 := with_feehistory_db _ _).
  assert (history st4 p = Some (pruned block hr)) as Hh4 by exact Hh2.
  destruct (ClearCache_run st4 p block _ Hh4 Hb) as (st5 & -> & _ & Hh5).
  now intros [= <-].
Qed.

(** Below the threshold nothing is distributed. *)
Lemma fee_continuation_quiet st1 p block hr thr :
  history st1 p = Some hr ->
  distributionThresholds st1 !! p = Some thr ->
  cached (pruned block hr) < thr ->
  exists st', (PruneCache p block ;;; EvalCache p block) st1 = Done tt st' /\
    history st' p = Some (pruned block hr) /\
    distributionThresholds st' !! p = Some thr /\
    feehistory_db st' = feehistory_db st1 /\
    world st' = world st1.
Proof.
  intros Hh Hthr Hlt. unfold bind.
  destruct (PruneCache_run st1 p block hr Hh) as (st2 & -> & Hstep & Hh2).
  rewrite (EvalCache_steps _ _ _ _ Hh2). cbv zeta.
  rewrite (step_thresholds _ _ _ Hstep), Hthr.
  change (default 0 (Some thr)) with thr.
  apply Z.leb_gt in Hlt. rewrite Hlt.
  eexists. split; [reflexivity|]. split; [exact Hh2|].
  cbn [distributionThresholds feehistory_db world with_thresholds].
  rewrite lookup_insert_eq.
  now rewrite (step_feehistory _ _ _ Hstep), (step_world _ _ _ Hstep).
Qed.

Lemma AddFee_done st st' p block amount h :
  history st p = Some h -> is_int block -> is_int64 amount ->
  AddFee p block amount st = Done tt st' ->
  let h1 := pruned block (rewritten block (to_int64 (cached h + amount)) h) in
  let v := default 0 (distributionThresholds st !! p) in
  history st' p = Some (if v <=? cached h1 then pruned block (rewritten block 0 h1) else h1).
Proof.
  intros Hh Hb Ha. rewrite (AddFee_steps _ _ _ _ _ Hh Hb Ha). cbv zeta.
  pose proof (history_rewrite st p block (to_int64 (cached h + amount)) h Hh Hb
                (to_int64_is_int64 _)) as Hst.
  case_decide.
  - destruct overrideforcedshutdown; [|done].
    intros Hdone. eapply (fee_continuation _ _ _ _ _ _ Hb Hdone).
    Unshelve. exact Hst.
  - intros Hdone. eapply (fee_continuation _ _ _ _ _ _ Hb Hdone).
    Unshelve. exact Hst.
Qed.

Lemma AddFee_quiet st p block amount h thr :
  history st p = Some h -> is_int block -> is_int64 amount ->
  ~ overflows (cached h) amount ->
  distributionThresholds st !! p = Some thr ->
  cached (pruned block (rewritten block (to_int64 (cached h + amount)) h)) < thr ->
  exists st', AddFee p block amount st = Done tt st' /\
    history st' p
    = Some (pruned block (rewritten block (to_int64 (cached h + amount)) h)) /\
    distributionThresholds st' !! p = Some thr /\
    feehistory_db st' = feehistory_db st /\
    world st' = world st.
Proof.
  intros Hh Hb Ha Hno Hthr Hlt. rewrite (AddFee_steps _ _ _ _ _ Hh Hb Ha). cbv zeta.
  rewrite decide_False by done.
  pose proof (history_rewrite st p block (to_int64 (cached h + amount)) h Hh Hb
                (to_int64_is_int64 _)) as Hst.
  destruct (fee_continuation_quiet _ p block _ thr Hst Hthr Hlt)
    as (st' & Hrun & Hh' & Hthr' & Hfh & Hw).
  exists st'. split; [done|]. split; [done|]. split; [done|]. split; done.
Qed.

End FeeRuns.

(** ** The fee history after [AddFee] *)

Section FeeRecords.
Context {W : Type} `{Collaborators W}.
Implicit Types (st : State W) (p : N) (h : list feeCacheItem).

(** When [PruneCache] and [EvalCache] both return, the fee history has one
    more record exactly when the threshold entry was reached. *)
Lemma fee_continuation_record st1 st' p block hr :
  history st1 p = Some hr -> is_int block ->
  (PruneCache p block ;;; EvalCache p block) st1 = Done tt st' ->
  let h1 := pruned block hr in
  let v := default 0 (distributionThresholds st1 !! p) in
  feehistory_db st'
  = if v <=? cached h1
    then <[fmt_d (next_id st1) :=
             record_text p block (cached h1)
               (recipients_of (rev (receivers_for (world st1) p (cached h1))))]>
           (feehistory_db st1)
    else feehistory_db st1.
Proof.
  intros Hh Hb. unfold bind.
  destruct (PruneCache_run st1 p block hr Hh) as (st2 & -> & Hstep & Hh2).
  rewrite (EvalCache_steps _ _ _ _ Hh2). cbv zeta.
  rewrite (step_thresholds _ _ _ Hstep).
  destruct (_ <=? cached (pruned block hr)).
  2:{ intros [= <-]. exact (step_feehistory _ _ _ Hstep). }
  set (st3 := with_thresholds _ st2).
  assert (history st3 p = Some (pruned block hr)) as Hh3 by exact Hh2.
  rewrite (DistributeCache_steps _ _ _ _ Hh3). cbv zeta.
  destruct (fst (credit_all _ _ _)); [|done].
  destruct (_ =? _) eqn:Esum; [|done]. apply Z.eqb_eq in Esum.
  set (st4 := with_feehistory_db _ _).
  assert (history st4 p = Some (pruned block hr)) as Hh4 by exact Hh2.
  destruct (ClearCache_run st4 p block _ Hh4 Hb) as (st5 & -> & Hstep5 & _).
  intros [= <-]. rewrite (step_feehistory _ _ _ Hstep5).
  unfold st4. cbn [feehistory_db with_feehistory_db with_world].
  rewrite Esum. unfold st3, next_id.
  cbn [feehistory_db world with_thresholds].
  now rewrite (step_feehistory _ _ _ Hstep), (step_world _ _ _ Hstep).
Qed.

Lemma AddFee_record st st' p block amount h :
  history st p = Some h -> is_int block -> is_int64 amount ->
  AddFee p block amount st = Done tt st' ->
  let h1 := pruned block (rewritten block (to_int64 (cached h + amount)) h) in
  let v := default 0 (distributionThresholds st !! p) in
  feehistory_db st'
  = if v <=? cached h1
    then <[fmt_d (next_id st) :=
             record_text p block (cached h1)
               (recipients_of (rev (receivers_for (world st) p (cached h1))))]>
           (feehistory_db st)
    else feehistory_db st.
Proof.
  intros Hh Hb Ha. rewrite (AddFee_steps _ _ _ _ _ Hh Hb Ha). cbv zeta.
  pose proof (history_rewrite st p block (to_int64 (cached h + amount)) h Hh Hb
                (to_int64_is_int64 _)) as Hst.
  case_decide.
  - destruct overrideforcedshutdown; [|done].
    intros Hdone. eapply (fee_continuation_record _ _ _ _ _ _ Hb Hdone).
    Unshelve. exact Hst.
  - intros Hdone. eapply (fee_continuation_record _ _ _ _ _ _ Hb Hdone).
    Unshelve. exact Hst.
Qed.

End FeeRecords.

(** ** The properties [RollBackCache] visits *)

Lemma elem_of_property_range (first next p : N) :
  p ∈ property_range first next <-> (first <= p < next)%N.
Proof.
  unfold property_range. rewrite list_elem_of_fmap. split.
  - intros (i & -> & Hi). apply elem_of_seq in Hi. lia.
  - intros Hp. exists (N.to_nat (p - first)). split; [lia|].
    apply elem_of_seq. lia.
Qed.

Lemma elem_of_known_properties {W : Type} `{Collaborators W} (w : W) (p : N) :
  p ∈ known_properties w <-> known_property w p.
Proof.
  unfold known_properties, known_property.
  now rewrite elem_of_app, !elem_of_property_range.
Qed.

(** * The claims *)

(** C4. Pruning never deletes the most recent entry of a property: for every
    stored history and every block passed to [PruneCache], the call returns,
    the entry with the greatest block height is still the most recent entry
    of the stored history, and so the current cached amount is unchanged,
    whatever the age of that entry. *)
Theorem C4_prune_keeps_most_recent
  {W : Type} `{Collaborators W} (st : State W) (p : N) (block : Z)
  (h : list feeCacheItem) (m : feeCacheItem) :
  history st p = Some h ->
  last h = Some m ->
  exists st' h',
    PruneCache p block st = Done tt st' /\
    history st' p = Some h' /\
    last h' = Some m /\
    m ∈ h' /\
    GetCachedAmount p st' = Done (snd m) st' /\
    GetCachedAmount p st = Done (snd m) st.
Proof.
  intros Hh Hm. destruct (history_typed _ _ _ Hh) as [Hs _].
  destruct (PruneCache_run st p block h Hh) as (st' & Hrun & _ & Hh').
  exists st', (pruned block h).
  assert (last (pruned block h) = Some m) as Hlast
    by (rewrite pruned_last; done).
  repeat split; try done.
  - now apply last_Some_elem_of.
  - rewrite (GetCachedAmount_run _ _ _ Hh'). unfold cached. now rewrite Hlast.
  - rewrite (GetCachedAmount_run _ _ _ Hh). unfold cached. now rewrite Hm.
Qed.

(** C10 (as amended).  [ClearCache(propertyId, block)] returns, and of the
    history it leaves: every entry is (block, 0) or an entry of another
    block that was there before, so the entry of exactly that block is
    replaced; every other entry at or above the cutoff
    [block - MAX_STATE_HISTORY] of the closing [PruneCache] call is kept, and
    so is the most recent entry; with [exodus_debug_fees] set, an entry below
    the cutoff is left only if it is the most recent one; (block, 0) is there
    when the block is not below the cutoff or no entry is above the block.
    The cached amount read afterwards is 0 when no entry is above the block,
    and it is the amount of the later entry, which is kept, when the history
    has an entry with a greater height. *)
Theorem C10_clear_cache_zero_only_at_latest_block
  {W : Type} `{Collaborators W} (st : State W) (p : N) (block : Z)
  (h : list feeCacheItem) :
  history st p = Some h ->
  is_int block ->
  exists st' h',
    ClearCache p block st = Done tt st' /\
    history st' p = Some h' /\
    (forall e, e ∈ h' -> e = (block, 0) \/ (e ∈ h /\ fst e <> block)) /\
    (forall e, e ∈ h -> fst e <> block ->
       to_int (block - MAX_STATE_HISTORY) <= fst e -> e ∈ h') /\
    (exodus_debug_fees = true ->
       forall e, e ∈ h' ->
         to_int (block - MAX_STATE_HISTORY) <= fst e \/ last h' = Some e) /\
    (to_int (block - MAX_STATE_HISTORY) <= block
       \/ (forall e, e ∈ h -> fst e <= block) -> (block, 0) ∈ h') /\
    ((forall e, e ∈ h -> fst e <= block) ->
       GetCachedAmount p st' = Done 0 st') /\
    (forall m, last h = Some m -> block < fst m ->
       m ∈ h' /\ GetCachedAmount p st' = Done (snd m) st').
Proof.
  intros Hh Hb. destruct (history_typed _ _ _ Hh) as [Hs _].
  destruct (ClearCache_run _ _ _ _ Hh Hb) as (st' & Hrun & _ & Hh').
  assert (is_set (rewritten block 0 h)) as Hs1 by now apply rewritten_is_set.
  exists st', (pruned block (rewritten block 0 h)).
  split; [done|]. split; [done|].
  split; [intros e He; apply pruned_sub in He; now apply rewritten_elem in He|].
  split.
  { intros e He Hne Hcut. apply pruned_keeps; [|done].
    apply rewritten_elem. now right. }
  split.
  { intros Hd e. rewrite pruned_with_debug by done. unfold prune_spec.
    destruct (filter _ (rewritten block 0 h)) as [|k kept] eqn:E.
    - destruct (last (rewritten block 0 h)) as [m|]; [|now intros ?%elem_of_nil].
      intros ->%list_elem_of_singleton. now right.
    - rewrite <- E. intros He. apply list_elem_of_filter in He as [He _].
      now left. }
  split.
  { intros [Hcut|Hle].
    - apply pruned_keeps; [|done]. apply rewritten_elem. now left.
    - apply last_Some_elem_of. now rewrite pruned_last, rewritten_last_new. }
  split.
  - intros Hle. rewrite (GetCachedAmount_run _ _ _ Hh'). unfold cached.
    now rewrite pruned_last, rewritten_last_new.
  - intros m Hm Hlt.
    assert (last (pruned block (rewritten block 0 h)) = Some m) as Hlast
      by now rewrite pruned_last, (rewritten_last_later _ _ _ m).
    split; [now apply last_Some_elem_of|].
    rewrite (GetCachedAmount_run _ _ _ Hh'). unfold cached. now rewrite Hlast.
Qed.

Lemma C4_witness :
  exists st' h',
    PruneCache (H := example_node true false) 3 2000
      (example_state [("0000000003", "100:5,1000:7")]) = Done tt st' /\
    history st' 3 = Some h' /\
    last h' = Some (1000, 7) /\
    (1000, 7) ∈ h' /\
    GetCachedAmount 3 st' = Done 7 st' /\
    GetCachedAmount 3 (example_state [("0000000003", "100:5,1000:7")])
    = Done 7 (example_state [("0000000003", "100:5,1000:7")]).
Proof.
  apply (C4_prune_keeps_most_recent (H := example_node true false)
           (example_state [("0000000003", "100:5,1000:7")]) 3 2000
           [(100, 5); (1000, 7)] (1000, 7)); reflexivity.
Defined.

Lemma C10_witness :
  exists st' h',
    ClearCache (H := example_node true false) 3 1000
      (example_state [("0000000003", "100:5,1000:7,2000:9")]) = Done tt st' /\
    history st' 3 = Some h' /\
    (forall e, e ∈ h' ->
       e = (1000, 0) \/ (e ∈ [(100, 5); (1000, 7); (2000, 9)] /\ fst e <> 1000)) /\
    (forall e, e ∈ [(100, 5); (1000, 7); (2000, 9)] -> fst e <> 1000 ->
       to_int (1000 - 50) <= fst e -> e ∈ h') /\
    (true = true ->
       forall e, e ∈ h' -> to_int (1000 - 50) <= fst e \/ last h' = Some e) /\
    (to_int (1000 - 50) <= 1000
       \/ (forall e, e ∈ [(100, 5); (1000, 7); (2000, 9)] -> fst e <= 1000) ->
     (1000, 0) ∈ h') /\
    ((forall e, e ∈ [(100, 5); (1000, 7); (2000, 9)] -> fst e <= 1000) ->
       GetCachedAmount 3 st' = Done 0 st') /\
    (forall m, last [(100, 5); (1000, 7); (2000, 9)] = Some m -> 1000 < fst m ->
       m ∈ h' /\ GetCachedAmount 3 st' = Done (snd m) st').
Proof.
  apply (C10_clear_cache_zero_only_at_latest_block (H := example_node true false)
           (example_state [("0000000003", "100:5,1000:7,2000:9")]) 3 1000
           [(100, 5); (1000, 7); (2000, 9)]).
  - reflexivity.
  - unfold is_int, INT_MIN, INT_MAX. lia.
Defined.

(** C10, the claim as stated fails where it says that all other entries are
    kept: on a node with [exodus_debug_fees] set and [MAX_STATE_HISTORY] 50,
    with the entries (100, 5), (1000, 7) and (2000, 9) stored for property 3,
    [ClearCache(3, 1000)] returns and leaves (1000, 0) and (2000, 9); the
    entry (100, 5) of another block is gone. *)
Lemma C10_counterexample :
  exists st',
    history (example_state [("0000000003", "100:5,1000:7,2000:9")]) 3
    = Some [(100, 5); (1000, 7); (2000, 9)] /\
    ClearCache (H := example_node true false) 3 1000
      (example_state [("0000000003", "100:5,1000:7,2000:9")]) = Done tt st' /\
    history st' 3 = Some [(1000, 0); (2000, 9)] /\
    fst (100, 5) <> 1000 /\
    ((100, 5) ∉ [(1000, 0); (2000, 9)]) /\
    returned (GetCachedAmount 3 st') = Some 9.
Proof.
  eexists. split; [reflexivity|]. split; [vm_compute; reflexivity|].
  split; [reflexivity|]. split; [simpl; lia|]. split; [|reflexivity].
  rewrite !elem_of_cons, elem_of_nil. intros [[=]|[[=]|[]]].
Qed.

(** C3. With [exodus_debug_fees] switched off, [PruneCache] for property 3 at
    block 1000 (cutoff 950) leaves the entry of block 100 in the store, where
    the pruning rule keeps only the entry of block 1000: the [continue] that
    discards a matured entry is inside the debug branch. *)
Theorem C3_prune_without_debug_keeps_matured_entry :
  exists st',
    PruneCache (H := example_node false false) 3 1000
      (example_state [("0000000003", "100:5,1000:7")]) = Done tt st' /\
    history st' 3 = Some [(100, 5); (1000, 7)] /\
    prune_spec (1000 - 50) [(100, 5); (1000, 7)] = [(1000, 7)].
Proof.
  eexists. split; [vm_compute; reflexivity|]. split; reflexivity.
Qed.

(** C5 (as amended). After [UpdateDistributionThresholds] for a property whose
    total supply is an [int64_t] value and with a positive divisor, the
    threshold that [GetDistributionThreshold] returns, which is the map entry
    that [EvalCache] compares with, is max(1, supply / divisor), so at
    least 1. *)
Theorem C5_threshold_after_update
  {W : Type} `{Collaborators W} (st : State W) (p : N) :
  is_int64 (getTotalTokens (world st) p) ->
  0 < EXODUS_FEE_THRESHOLD ->
  exists st1 st2,
    UpdateDistributionThresholds p st = Done tt st1 /\
    GetDistributionThreshold p st1
    = Done (Z.max 1 (Z.quot (getTotalTokens (world st) p) EXODUS_FEE_THRESHOLD)) st2 /\
    threshold_entry p st1
    = Done (Z.max 1 (Z.quot (getTotalTokens (world st) p) EXODUS_FEE_THRESHOLD)) st2 /\
    1 <= Z.max 1 (Z.quot (getTotalTokens (world st) p) EXODUS_FEE_THRESHOLD).
Proof.
  intros Hsupply Hdiv.
  set (q := Z.quot (getTotalTokens (world st) p) EXODUS_FEE_THRESHOLD).
  assert (to_int64 q = q) as Hq by (apply to_int64_id, quot_int64; done).
  assert ((if q <=? 0 then 1 else q) = Z.max 1 q) as Hmax.
  { destruct (Z.leb_spec q 0); lia. }
  exists (with_thresholds (insert p (Z.max 1 q)) st).
  exists (with_thresholds (insert p (Z.max 1 q))
            (with_thresholds (insert p (Z.max 1 q)) st)).
  split.
  { unfold UpdateDistributionThresholds, bind, get_state, modify.
    fold q. now rewrite Hq, Hmax. }
  unfold GetDistributionThreshold, threshold_entry, bind, get_state, modify, ret.
  cbn [distributionThresholds with_thresholds].
  rewrite lookup_insert_eq. cbn [default].
  split; [reflexivity|]. split; [reflexivity|]. lia.
Qed.

Lemma C5_witness :
  exists st1 st2,
    UpdateDistributionThresholds (H := example_node true false) 3 (example_state [])
    = Done tt st1 /\
    GetDistributionThreshold 3 st1 = Done (Z.max 1 (Z.quot 10000000 100000)) st2 /\
    threshold_entry 3 st1 = Done (Z.max 1 (Z.quot 10000000 100000)) st2 /\
    1 <= Z.max 1 (Z.quot 10000000 100000).
Proof.
  apply (C5_threshold_after_update (H := example_node true false)
           (example_state []) 3).
  - unfold is_int64, INT64_MIN, INT64_MAX. simpl. lia.
  - simpl. lia.
Defined.

(** C5, the claim as stated fails: on a node where the threshold of property 3
    was never updated, [GetDistributionThreshold] returns 0, not
    max(1, 10000000 / 100000) = 100. *)
Lemma C5_counterexample :
  returned (GetDistributionThreshold 3 (example_state [])) = Some 0 /\
  Z.max 1 (Z.quot (getTotalTokens (Collaborators := example_node true false)
                     (world (example_state [])) 3)
             (EXODUS_FEE_THRESHOLD (Collaborators := example_node true false)))
  = 100 /\
  returned (GetDistributionThreshold 3 (example_state []))
  <> Some (Z.max 1 (Z.quot (getTotalTokens (Collaborators := example_node true false)
                              (world (example_state [])) 3)
                      (EXODUS_FEE_THRESHOLD (Collaborators := example_node true false)))).
Proof. split; [reflexivity|]. split; [reflexivity|discriminate]. Qed.

(** C6. The known properties are those with an identifier from 1 below the
    next identifier of the main ecosystem, or from [TEST_ECO_PROPERTY_1]
    below the next identifier of the test ecosystem.  [RollBackCache(block)]
    returns when their stored histories can be read; for every known property
    it leaves exactly the entries with a height below [block]: every entry
    at or above [block] is discarded and every entry below is preserved;
    nothing but the fee cache store is changed, records of other properties
    are untouched, and a second [RollBackCache(block)] changes nothing at
    all. *)
Theorem C6_rollback_cache
  {W : Type} `{Collaborators W} (st : State W) (block : Z) :
  (forall p,
     (1 <= p < peekNextSPID (world st) 1)%N
     \/ (TEST_ECO_PROPERTY_1 <= p < peekNextSPID (world st) 2)%N ->
     is_Some (history st p)) ->
  exists st',
    RollBackCache block st = Done tt st' /\
    (forall p h,
       (1 <= p < peekNextSPID (world st) 1)%N
       \/ (TEST_ECO_PROPERTY_1 <= p < peekNextSPID (world st) 2)%N ->
       history st p = Some h ->
       exists h',
         history st' p = Some h' /\
         (forall e, e ∈ h' <-> e ∈ h /\ fst e < block) /\
         (forall e, e ∈ h -> block <= fst e -> e ∉ h') /\
         (forall e, e ∈ h -> fst e < block -> e ∈ h') /\
         h' = below block h) /\
    (forall p,
       ~ ((1 <= p < peekNextSPID (world st) 1)%N
          \/ (TEST_ECO_PROPERTY_1 <= p < peekNextSPID (world st) 2)%N) ->
       feecache_db st' !! fmt_010d p = feecache_db st !! fmt_010d p) /\
    cache_only st st' /\
    RollBackCache block st' = Done tt st'.
Proof.
  intros Hall.
  assert (forall p, p ∈ known_properties (world st) -> is_Some (history st p))
    as Hall' by (intros p Hp; now apply Hall, elem_of_known_properties).
  destruct (rollback_loop (known_properties (world st)) block st Hall')
    as (st' & Hrun & Honly & Hhist & Hother).
  exists st'. split; [now apply RollBackCache_known|].
  split; [|split; [|split; [done|]]].
  - intros p h Hp Hh. apply elem_of_known_properties in Hp.
    exists (below block h).
    rewrite (Hhist _ _ Hh), decide_True by done.
    assert (forall e, e ∈ below block h <-> e ∈ h /\ fst e < block) as Hin
      by (intros e; unfold below; rewrite list_elem_of_filter; tauto).
    split; [done|]. split; [done|]. split; [|split; [|done]].
    + intros e _ Hge [_ Hlt]%Hin. lia.
    + intros e He Hlt. now apply Hin.
  - intros p Hp. apply Hother. now rewrite elem_of_known_properties.
  - apply RollBackCache_known. rewrite (only_world _ _ Honly).
    apply rollback_loop_noop.
    intros p Hp. destruct (Hall' p Hp) as [h Hh].
    exists (below block h). split.
    + now rewrite (Hhist _ _ Hh), decide_True.
    + intros e He. now apply list_elem_of_filter in He as [? _].
Qed.

Lemma C6_witness :
  exists st',
    RollBackCache (H := example_node true false) 150 example_cache = Done tt st' /\
    history example_cache 3 = Some [(100, 5); (150, 9); (200, 7)] /\
    history st' 3 = Some [(100, 5)] /\
    ((150, 9) ∉ [(100, 5)]) /\ ((200, 7) ∉ [(100, 5)]) /\
    cache_only example_cache st' /\
    RollBackCache (H := example_node true false) 150 st' = Done tt st'.
Proof.
  assert (forall p : N,
            (1 <= p < peekNextSPID (Collaborators := example_node true false)
                        (world example_cache) 1)%N
            \/ (TEST_ECO_PROPERTY_1 (Collaborators := example_node true false) <= p
                 < peekNextSPID (Collaborators := example_node true false)
                     (world example_cache) 2)%N ->
            is_Some (history example_cache p)) as Hall.
  { intros p Hp. simpl in Hp.
    assert (p = 1 \/ p = 2 \/ p = 3 \/ p = 4
            \/ p = 2147483651 \/ p = 2147483652)%N
      as [->|[->|[->|[->|[->| ->]]]]] by lia;
      eexists; reflexivity. }
  destruct (C6_rollback_cache (H := example_node true false) example_cache 150 Hall)
    as (st' & Hrun & Hhist & _ & Honly & Hagain).
  exists st'. split; [exact Hrun|]. split; [reflexivity|].
  destruct (Hhist 3%N [(100, 5); (150, 9); (200, 7)]) as (h' & Hh' & _ & _ & _ & ->).
  { left. simpl. lia. }
  { reflexivity. }
  split; [exact Hh'|].
  split; [rewrite list_elem_of_singleton; intros [=]|].
  split; [rewrite list_elem_of_singleton; intros [=]|].
  split; [exact Honly|exact Hagain].
Defined.

(** C7. [RollBackHistory(block)] returns when no four-field record has an
    unreadable block field; afterwards the store holds exactly the records it
    held before whose stored block height is not at or above [block], each
    under its old key with its old content, and the rest of the node state is
    unchanged. *)
Theorem C7_rollback_history
  {W : Type} (st : State W) (block : Z) :
  (forall k v, feehistory_db st !! k = Some v -> scans v) ->
  exists st',
    RollBackHistory block st = Done tt st' /\
    (forall k v,
       feehistory_db st' !! k = Some v <->
       feehistory_db st !! k = Some v /\
       ~ exists b, stored_block v = Some b /\ block <= b) /\
    feecache_db st' = feecache_db st /\
    distributionThresholds st' = distributionThresholds st /\
    world st' = world st.
Proof.
  intros Hscan.
  exists (with_feehistory_db
            (fun _ => fold_left (rollback_step block)
                        (db_scan (feehistory_db st)) (feehistory_db st)) st).
  split.
  { unfold RollBackHistory, bind, get_state.
    apply rollback_history_loop, Forall_forall.
    intros [k v] Hin. apply elem_of_db_scan in Hin. eapply Hscan, Hin. }
  split; [|done]. intros k v. cbn [feehistory_db with_feehistory_db].
  rewrite <- doomed_stored.
  destruct (feehistory_db st !! k) as [v0|] eqn:Hk.
  - destruct (doomed block v0) eqn:Hd.
    + rewrite (rollback_fold_deleted block _ _ k v0); [|now apply elem_of_db_scan|done].
      split; [done|]. intros [[= <-] Hnd]. now rewrite Hd in Hnd.
    + rewrite rollback_fold_kept, Hk.
      * split; [intros [= <-]|intros [? _]; done].
        split; [done|]. now rewrite Hd.
      * intros v' Hin. apply elem_of_db_scan in Hin. congruence.
  - rewrite rollback_fold_absent by done. split; [done|]. now intros [? _].
Qed.

Lemma C7_witness :
  exists st',
    RollBackHistory 500 example_records = Done tt st' /\
    (forall k v,
       feehistory_db st' !! k = Some v <->
       feehistory_db example_records !! k = Some v /\
       ~ exists b, stored_block v = Some b /\ 500 <= b) /\
    feecache_db st' = feecache_db example_records /\
    distributionThresholds st' = distributionThresholds example_records /\
    world st' = world example_records.
Proof.
  apply (C7_rollback_history example_records 500).
  intros k v Hkv.
  unfold example_records, example_history in Hkv.
  cbn [feehistory_db list_to_map foldr fst snd] in Hkv.
  rewrite !lookup_insert_Some, lookup_empty in Hkv.
  destruct Hkv as [[_ <-]|[_ [[_ <-]|[_ [[_ <-]|[_ ?]]]]]]; [..|done];
    vm_compute; eauto.
Defined.

(** C9 (as amended). Writing a fee history record with
    [RecordFeeDistribution] and reading it back under the sequence id it was
    given reproduces the property id, the block, the total and the set of
    (address, amount) recipients, for a set of zero, one or many recipients
    whose addresses contain none of the characters ':', ',' and '='. *)
Theorem C9_fee_history_round_trip
  {W : Type} (st : State W) (p : N) (block total : Z)
  (recipients : list feeHistoryItem) :
  is_uint32 p -> is_int block -> is_int64 total ->
  is_set recipients ->
  Forall typed_recipient recipients ->
  exists st',
    RecordFeeDistribution p block total recipients st = Done tt st' /\
    GetDistributionData (next_id st) st' = Done (Some (p, block, total)) st' /\
    GetFeeDistribution (next_id st) st' = Done recipients st'.
Proof.
  intros Hp Hb Ht Hset Hrec.
  assert (Forall (fun r : feeHistoryItem => plain_address (fst r)) recipients) as Hplain.
  { eapply Forall_impl; [exact Hrec|]. now intros r [? _]. }
  eexists. split; [apply RecordFeeDistribution_run|].
  unfold GetDistributionData, GetFeeDistribution, bind, get_state.
  cbn [feehistory_db with_feehistory_db].
  rewrite lookup_insert_eq, split_record_text by done.
  split.
  - unfold from_cast.
    rewrite lexical_cast_int_fmt_d, lexical_cast_uint32_fmt_u,
      lexical_cast_int64_fmt_d by done.
    reflexivity.
  - rewrite parse_fee_text by done. now rewrite set_of_list_id.
Qed.

Lemma C9_witness :
  exists st',
    RecordFeeDistribution 3 201 105 [("addrA", 53); ("addrB", 52)] example_records
    = Done tt st' /\
    GetDistributionData (next_id example_records) st' = Done (Some (3%N, 201, 105)) st' /\
    GetFeeDistribution (next_id example_records) st'
    = Done [("addrA", 53); ("addrB", 52)] st'.
Proof.
  apply (C9_fee_history_round_trip example_records 3 201 105
           [("addrA", 53); ("addrB", 52)]).
  - unfold is_uint32, UINT32_MAX. lia.
  - unfold is_int, INT_MIN, INT_MAX. lia.
  - unfold is_int64, INT64_MIN, INT64_MAX. lia.
  - repeat constructor.
  - repeat constructor; unfold is_int64, INT64_MIN, INT64_MAX; simpl; lia.
Defined.

(** C9, the claim as stated fails: a record with the one recipient
    ("a:b", 10) is stored as "5:3:10:a:b=10", which has five fields, and
    [GetDistributionData] reports it as not readable. *)
Lemma C9_counterexample :
  exists st',
    RecordFeeDistribution 3 5 10 [("a:b", 10)] (example_history []) = Done tt st' /\
    next_id (example_history []) = 1 /\
    feehistory_db st' !! "1" = Some "5:3:10:a:b=10" /\
    returned (GetDistributionData 1 st') = Some None /\
    returned (GetFeeDistribution 1 st') = Some [].
Proof.
  eexists. split; [vm_compute; reflexivity|]. repeat split; reflexivity.
Qed.

(** C8. In [AddFee], with [current] the cached amount read first: exactly when
    [current > 0] and [current + amount] exceeds the largest [int64_t] the
    fault is reported in the log; then, without the override flag, the
    persisted state is erased and the node aborts with both stores as they
    were, and with the override flag the addition proceeds with the wrapped
    sum.  In every other case nothing is reported and the entry written for
    the block holds [current + amount] (when that sum is not below the
    smallest [int64_t]); pruning and evaluation follow. *)
Theorem C8_add_fee_overflow
  {W : Type} `{Collaborators W} (st : State W) (p : N) (block amount : Z)
  (h : list feeCacheItem) :
  history st p = Some h -> is_int block -> is_int64 amount ->
  (overflows (cached h) amount -> overrideforcedshutdown = false ->
     exists st_halt,
       AddFee p block amount st = Abort NodeAborted st_halt /\
       log st_halt = log st ++ [overflow_message block p (cached h) amount] /\
       persist_exists st_halt = false /\
       feecache_db st_halt = feecache_db st /\
       feehistory_db st_halt = feehistory_db st) /\
  (overflows (cached h) amount -> overrideforcedshutdown = true ->
     exists st1,
       AddFee p block amount st = (PruneCache p block ;;; EvalCache p block) st1 /\
       history st1 p = Some (rewritten block (to_int64 (cached h + amount)) h) /\
       log st1 = log st ++ [overflow_message block p (cached h) amount] /\
       persist_exists st1 = persist_exists st) /\
  (~ overflows (cached h) amount ->
     exists st1,
       AddFee p block amount st = (PruneCache p block ;;; EvalCache p block) st1 /\
       history st1 p = Some (rewritten block (to_int64 (cached h + amount)) h) /\
       (INT64_MIN <= cached h + amount ->
          history st1 p = Some (rewritten block (cached h + amount) h)) /\
       log st1 = log st /\
       persist_exists st1 = persist_exists st).
Proof.
  intros Hh Hb Ha.
  pose proof (AddFee_steps st p block amount h Hh Hb Ha) as Hsteps.
  cbv zeta in Hsteps.
  pose proof (history_rewrite st p block (to_int64 (cached h + amount)) h Hh Hb
                (to_int64_is_int64 _)) as Hst.
  destruct (history_typed _ _ _ Hh) as [_ Ht].
  pose proof (cached_int64 h Ht) as Hc.
  split; [|split].
  - intros Hov Hno. rewrite decide_True, Hno in Hsteps by done.
    eexists. split; [exact Hsteps|].
    destruct (persist_exists st) eqn:Hp; simpl; rewrite ?Hp; done.
  - intros Hov Hyes. rewrite decide_True, Hyes in Hsteps by done.
    eexists. split; [exact Hsteps|]. split; [exact Hst|]. done.
  - intros Hno. rewrite decide_False in Hsteps by done.
    eexists. split; [exact Hsteps|]. split; [exact Hst|].
    split; [|done]. intros Hlow.
    rewrite <- (to_int64_id (cached h + amount)) at 2; [exact Hst|].
    unfold overflows in Hno. unfold is_int64, INT64_MIN, INT64_MAX in *. lia.
Qed.

Lemma C8_witness :
  exists st_halt,
    AddFee (H := example_node true false) 3 201 9223372036854775800
      (example_state [("0000000003", "100:60")]) = Abort NodeAborted st_halt /\
    log st_halt = [overflow_message 201 3 60 9223372036854775800] /\
    persist_exists st_halt = false /\
    feecache_db st_halt = feecache_db (example_state [("0000000003", "100:60")]) /\
    feehistory_db st_halt = ∅.
Proof.
  apply (proj1 (C8_add_fee_overflow (H := example_node true false)
                  (example_state [("0000000003", "100:60")]) 3 201
                  9223372036854775800 [(100, 60)] eq_refl
                  ltac:(unfold is_int, INT_MIN, INT_MAX; lia)
                  ltac:(unfold is_int64, INT64_MIN, INT64_MAX; lia))).
  - split; reflexivity.
  - reflexivity.
Defined.




(** C1 (as amended). Let [DistributeCache(propertyId, block)] run on a
    readable history none of whose entries is above [block], with every
    balance credit succeeding.  If the shares of the receiver set sum to the
    cached amount, the call returns, [GetCachedAmount] is 0 afterwards, the
    ledger is the one obtained by crediting every receiver its share (shares
    that sum to the cached amount), and the fee history gains one record
    under the next sequence id with that total.  If the amount sent differs
    from the cached amount, the call stops at the assertion. *)
Theorem C1_distribute_cache
  {W : Type} `{Collaborators W} (st : State W) (p : N) (block : Z)
  (h : list feeCacheItem) (w' : W) :
  history st p = Some h ->
  is_int block ->
  credit_all (world st) p (rev (receivers_for (world st) p (cached h))) = (true, w') ->
  (sum_shares (receivers_for (world st) p (cached h)) = cached h ->
   (forall e, e ∈ h -> fst e <= block) ->
   exists st',
     DistributeCache p block st = Done tt st' /\
     GetCachedAmount p st' = Done 0 st' /\
     world st' = w' /\
     sum_shares (rev (receivers_for (world st) p (cached h))) = cached h /\
     feehistory_db st'
     = <[fmt_d (next_id st) :=
           record_text p block (cached h)
             (recipients_of (rev (receivers_for (world st) p (cached h))))]>
         (feehistory_db st)) /\
  (to_int64 (sum_shares (rev (receivers_for (world st) p (cached h)))) <> cached h ->
   exists st_failed,
     DistributeCache p block st = Abort AssertionFailed st_failed).
Proof.
  intros Hh Hb Hcredit.
  pose proof (DistributeCache_steps st p block h Hh) as Hsteps.
  cbv zeta in Hsteps. rewrite Hcredit in Hsteps. cbn [fst snd] in Hsteps.
  destruct (history_typed _ _ _ Hh) as [Hs Ht].
  pose proof (cached_int64 h Ht) as Hc.
  split.
  - intros Hsum Hle. rewrite sum_shares_rev, Hsum in Hsteps |- *.
    rewrite to_int64_id, Z.eqb_refl in Hsteps by done.
    set (st_recorded := with_feehistory_db _ _) in Hsteps.
    assert (history st_recorded p = Some h) as Hh' by exact Hh.
    destruct (ClearCache_run st_recorded p block h Hh' Hb)
      as (st' & Hrun & Hstep & Hhist).
    exists st'. split; [congruence|]. split; [|split; [|split]].
    + rewrite (GetCachedAmount_run _ _ _ Hhist). unfold cached.
      rewrite pruned_last by now apply rewritten_is_set.
      now rewrite rewritten_last_new.
    + now rewrite (step_world _ _ _ Hstep).
    + done.
    + now rewrite (step_feehistory _ _ _ Hstep).
  - intros Hne. apply Z.eqb_neq in Hne. rewrite Hne in Hsteps. eauto.
Qed.

Lemma C1_witness :
  exists st',
    DistributeCache (H := example_node true false) 3 201
      (example_state [("0000000003", "200:60,201:105")]) = Done tt st' /\
    GetCachedAmount 3 st' = Done 0 st' /\
    world st' = [("addrB", 3%N, 52); ("addrA", 3%N, 53)] /\
    sum_shares (rev [(53, "addrA"); (52, "addrB")]) = 105 /\
    feehistory_db st' = {[ "1" := "201:3:105:addrA=53,addrB=52" ]}.
Proof.
  apply (proj1 (C1_distribute_cache (H := example_node true false)
                  (example_state [("0000000003", "200:60,201:105")]) 3 201
                  [(200, 60); (201, 105)]
                  [("addrB", 3%N, 52); ("addrA", 3%N, 53)]
                  eq_refl ltac:(unfold is_int, INT_MIN, INT_MAX; lia) eq_refl)).
  - reflexivity.
  - intros e He. rewrite !elem_of_cons, elem_of_nil in He.
    destruct He as [->|[->|[]]]; simpl; lia.
Defined.

(** C1, the claim as stated fails for a block below the latest entry: with
    the one entry (200, 50) stored for property 3, [DistributeCache(3, 100)]
    pays out 50 in two credits that succeed and returns, and
    [GetCachedAmount(3)] is 50 afterwards, not 0. *)
Lemma C1_counterexample :
  exists st',
    DistributeCache (H := example_node true false) 3 100
      (example_state [("0000000003", "200:50")]) = Done tt st' /\
    sum_shares (receivers_for (H := example_node true false)
                  (world (example_state [("0000000003", "200:50")])) 3 50) = 50 /\
    world st' = [("addrB", 3%N, 25); ("addrA", 3%N, 25)] /\
    history st' 3 = Some [(100, 0); (200, 50)] /\
    returned (GetCachedAmount 3 st') = Some 50.
Proof.
  eexists. split; [vm_compute; reflexivity|]. repeat split; reflexivity.
Qed.

(** * Further properties of the fee cache *)

Lemma parse_cache_items_skip toks1 junk toks2 acc :
  length (split ":" junk) <> 2%nat ->
  parse_cache_items (toks1 ++ junk :: toks2) acc
  = parse_cache_items (toks1 ++ toks2) acc.
Proof.
  intros Hjunk. revert acc. induction toks1 as [|tok toks1 IH]; intros acc.
  - simpl. destruct (split ":" junk) as [|b [|a [|? ?]]]; try done.
  - simpl. destruct (split ":" tok) as [|b [|a [|? ?]]]; try apply IH.
    destruct (lexical_cast_int64 b); [|done].
    destruct (lexical_cast_int64 a); [|done]. simpl. apply IH.
Qed.

Lemma parse_cache_items_throws toks tok b a acc :
  tok ∈ toks -> split ":" tok = [b; a] ->
  lexical_cast_int64 b = None \/ lexical_cast_int64 a = None ->
  parse_cache_items toks acc = None.
Proof.
  intros Hin Htok Hbad. revert acc.
  induction toks as [|t toks IH]; intros acc; [now apply elem_of_nil in Hin|].
  apply elem_of_cons in Hin as [<-|Hin].
  - simpl. rewrite Htok. destruct Hbad as [->| ->]; [done|].
    now destruct (lexical_cast_int64 b).
  - simpl. destruct (split ":" t) as [|b' [|a' [|? ?]]]; try now apply IH.
    destruct (lexical_cast_int64 b'); [|done].
    destruct (lexical_cast_int64 a'); [|done]. simpl. now apply IH.
Qed.

(** X1. For a property without a record in the fee cache, and for one whose
    record is the empty text that a rollback can leave, [GetCacheHistory]
    returns the empty set and [GetCachedAmount] returns 0; neither changes the
    state. *)
Theorem X1_empty_history_reads_zero {W : Type} (st : State W) (p : N) :
  feecache_db st !! fmt_010d p = None \/
  feecache_db st !! fmt_010d p = Some EmptyString ->
  GetCacheHistory p st = Done [] st /\ GetCachedAmount p st = Done 0 st.
Proof.
  intros Hrec. assert (history st p = Some []) as Hh.
  { unfold history. destruct Hrec as [-> | ->]; reflexivity. }
  split; [now apply GetCacheHistory_run|].
  now rewrite (GetCachedAmount_run _ _ _ Hh).
Qed.

Lemma X1_witness :
  GetCacheHistory 3 (example_state [("0000000003", "")])
  = Done [] (example_state [("0000000003", "")]) /\
  GetCachedAmount 3 (example_state [("0000000003", "")])
  = Done 0 (example_state [("0000000003", "")]).
Proof.
  apply (X1_empty_history_reads_zero (example_state [("0000000003", "")]) 3).
  right. reflexivity.
Defined.

(** X2. A piece of a fee cache record that does not consist of exactly two
    colon-separated fields is skipped: [GetCacheHistory] returns what it
    returns for the other pieces. *)
Theorem X2_malformed_piece_is_skipped {W : Type} (st : State W) (p : N)
  (strValue junk : string) (before after : list string) :
  feecache_db st !! fmt_010d p = Some strValue ->
  split "," strValue = before ++ junk :: after ->
  length (split ":" junk) <> 2%nat ->
  GetCacheHistory p st = from_cast (parse_cache_items (before ++ after) []) st.
Proof.
  intros Hrec Hsplit Hjunk. unfold GetCacheHistory, bind, get_state.
  now rewrite Hrec, Hsplit, parse_cache_items_skip.
Qed.

Lemma X2_witness :
  GetCacheHistory 3 example_junk
  = from_cast (parse_cache_items (["100:5"] ++ ["1000:7"]) []) example_junk.
Proof.
  apply (X2_malformed_piece_is_skipped example_junk 3 "100:5,garbage,1000:7"
           "garbage" ["100:5"] ["1000:7"]).
  - reflexivity.
  - reflexivity.
  - vm_compute. discriminate.
Defined.

(** X3. A piece with two fields of which one is not a number makes the read
    throw: [GetCacheHistory], [GetCachedAmount], [PruneCache], [ClearCache]
    and [AddFee] for that property all end with the exception and leave the
    state as it was. *)
Theorem X3_unreadable_number_throws {W : Type} `{Collaborators W}
  (st : State W) (p : N) (strValue tok b a : string) (block amount : Z) :
  feecache_db st !! fmt_010d p = Some strValue ->
  tok ∈ split "," strValue ->
  split ":" tok = [b; a] ->
  lexical_cast_int64 b = None \/ lexical_cast_int64 a = None ->
  GetCacheHistory p st = Abort BadLexicalCast st /\
  GetCachedAmount p st = Abort BadLexicalCast st /\
  PruneCache p block st = Abort BadLexicalCast st /\
  ClearCache p block st = Abort BadLexicalCast st /\
  AddFee p block amount st = Abort BadLexicalCast st.
Proof.
  intros Hrec Hin Htok Hbad.
  assert (GetCacheHistory p st = Abort BadLexicalCast st) as Hget.
  { apply GetCacheHistory_throws. unfold history. rewrite Hrec.
    eapply parse_cache_items_throws; eauto. }
  assert (GetCachedAmount p st = Abort BadLexicalCast st) as Hamount
    by (unfold GetCachedAmount, bind; now rewrite Hget).
  split; [done|]. split; [done|].
  split; [unfold PruneCache, bind; now rewrite Hget|].
  split; [unfold ClearCache, bind; now rewrite Hget|].
  unfold AddFee, bind. now rewrite Hamount.
Qed.

Lemma X3_witness :
  GetCacheHistory 3 example_unreadable = Abort BadLexicalCast example_unreadable /\
  GetCachedAmount 3 example_unreadable = Abort BadLexicalCast example_unreadable /\
  PruneCache (H := example_node true false) 3 1000 example_unreadable
  = Abort BadLexicalCast example_unreadable /\
  ClearCache (H := example_node true false) 3 1000 example_unreadable
  = Abort BadLexicalCast example_unreadable /\
  AddFee (H := example_node true false) 3 1000 5 example_unreadable
  = Abort BadLexicalCast example_unreadable.
Proof.
  apply (X3_unreadable_number_throws (H := example_node true false)
           example_unreadable 3 "100:5,1000:x7" "1000:x7" "1000" "x7" 1000 5).
  - reflexivity.
  - vm_compute. right. left.
  - reflexivity.
  - right. reflexivity.
Defined.

(** X4. What the rewrite loops store is read back as it was: for every set of
    entries with [int] blocks and [int64_t] amounts, [GetCacheHistory] returns
    that set from the record built by appending the entries with commas. *)
Theorem X4_cache_record_round_trip {W : Type} (st : State W) (p : N)
  (h : list feeCacheItem) :
  is_set h -> Forall typed_item h ->
  GetCacheHistory p
    (with_feecache_db (insert (fmt_010d p) (fold_left readd h EmptyString)) st)
  = Done h
      (with_feecache_db (insert (fmt_010d p) (fold_left readd h EmptyString)) st).
Proof.
  intros Hs Ht. apply GetCacheHistory_run. rewrite fold_readd_text.
  change (with_feecache_db (insert (fmt_010d p) (cache_text h)) st)
    with (put_cache p (cache_text h) st).
  rewrite history_put_cache by done. now rewrite set_of_list_id.
Qed.

Lemma X4_witness :
  GetCacheHistory 7
    (with_feecache_db
       (insert (fmt_010d 7) (fold_left readd [(100, 5); (1000, -7)] EmptyString))
       example_cache)
  = Done [(100, 5); (1000, -7)]
      (with_feecache_db
         (insert (fmt_010d 7) (fold_left readd [(100, 5); (1000, -7)] EmptyString))
         example_cache).
Proof.
  apply (X4_cache_record_round_trip example_cache 7 [(100, 5); (1000, -7)]).
  - repeat constructor.
  - repeat constructor; simpl;
      unfold is_int, is_int64, INT_MIN, INT_MAX, INT64_MIN, INT64_MAX; lia.
Defined.

Section FurtherCacheFacts.
Context {W : Type} `{Collaborators W}.
Implicit Types (st : State W) (p : N) (h : list feeCacheItem).

Lemma PruneCache_done st st' p block :
  PruneCache p block st = Done tt st' -> cache_step p st st'.
Proof.
  destruct (history st p) as [h|] eqn:Hh.
  - destruct (PruneCache_run st p block h Hh) as (s1 & -> & Hstep & _).
    now intros [= <-].
  - unfold PruneCache, bind. now rewrite (GetCacheHistory_throws _ _ Hh).
Qed.

Lemma ClearCache_done st st' p block :
  is_int block -> ClearCache p block st = Done tt st' -> cache_step p st st'.
Proof.
  intros Hb. destruct (history st p) as [h|] eqn:Hh.
  - destruct (ClearCache_run st p block h Hh Hb) as (s1 & -> & Hstep & _).
    now intros [= <-].
  - unfold ClearCache, bind. now rewrite (GetCacheHistory_throws _ _ Hh).
Qed.

(** [PruneCache] and [EvalCache] touch no record of another property. *)
Lemma fee_continuation_frame st1 st' p block hr :
  history st1 p = Some hr -> is_int block ->
  (PruneCache p block ;;; EvalCache p block) st1 = Done tt st' ->
  forall k, k <> fmt_010d p -> feecache_db st' !! k = feecache_db st1 !! k.
Proof.
  intros Hh Hb. unfold bind.
  destruct (PruneCache_run st1 p block hr Hh) as (st2 & -> & Hstep & Hh2).
  rewrite (EvalCache_steps _ _ _ _ Hh2). cbv zeta.
  destruct (_ <=? cached (pruned block hr)).
  - set (st3 := with_thresholds _ st2).
    assert (history st3 p = Some (pruned block hr)) as Hh3 by exact Hh2.
    rewrite (DistributeCache_steps _ _ _ _ Hh3). cbv zeta.
    destruct (fst (credit_all _ _ _)); [|done].
    destruct (_ =? _); [|done].
    set (st4 := with_feehistory_db _ _).
    assert (history st4 p = Some (pruned block hr)) as Hh4 by exact Hh2.
    destruct (ClearCache_run st4 p block _ Hh4 Hb) as (st5 & -> & Hstep5 & _).
    intros [= <-] k Hk. rewrite (step_other _ _ _ Hstep5 k Hk).
    apply (step_other _ _ _ Hstep k Hk).
  - intros [= <-] k Hk. apply (step_other _ _ _ Hstep k Hk).
Qed.

End FurtherCacheFacts.

(** X5. Fees accumulate: when no entry of the history is above the block, the
    sum stays within [int64_t] and below the property's threshold, [AddFee]
    returns, the cached amount afterwards is the amount cached before plus the
    fee, and neither the fee history nor the ledger is touched. *)
Theorem X5_add_fee_accumulates
  {W : Type} `{Collaborators W} (st : State W) (p : N) (block amount thr : Z)
  (h : list feeCacheItem) :
  history st p = Some h -> is_int block -> is_int64 amount ->
  (forall e, e ∈ h -> fst e <= block) ->
  is_int64 (cached h + amount) ->
  distributionThresholds st !! p = Some thr ->
  cached h + amount < thr ->
  exists st',
    AddFee p block amount st = Done tt st' /\
    GetCachedAmount p st' = Done (cached h + amount) st' /\
    feehistory_db st' = feehistory_db st /\
    world st' = world st.
Proof.
  intros Hh Hb Ha Hle Hsum Hthr Hlt.
  destruct (history_typed _ _ _ Hh) as [Hs _].
  assert (cached (pruned block (rewritten block (to_int64 (cached h + amount)) h))
          = cached h + amount) as Hc.
  { unfold cached. rewrite pruned_last by now apply rewritten_is_set.
    rewrite rewritten_last_new by done. now apply to_int64_id. }
  destruct (AddFee_quiet st p block amount h thr Hh Hb Ha)
    as (st' & Hrun & Hh' & _ & Hfh & Hw).
  - unfold overflows. unfold is_int64, INT64_MIN, INT64_MAX in *. lia.
  - done.
  - now rewrite Hc.
  - exists st'. split; [done|]. split; [|done].
    now rewrite (GetCachedAmount_run _ _ _ Hh'), Hc.
Qed.

Lemma X5_witness :
  exists st',
    AddFee (H := example_node true false) 7 201 30 example_accrued = Done tt st' /\
    GetCachedAmount 7 st' = Done (cached [(200, 60)] + 30) st' /\
    feehistory_db st' = feehistory_db example_accrued /\
    world st' = world example_accrued.
Proof.
  apply (X5_add_fee_accumulates (H := example_node true false)
           example_accrued 7 201 30 100 [(200, 60)]).
  - reflexivity.
  - unfold is_int, INT_MIN, INT_MAX. lia.
  - unfold is_int64, INT64_MIN, INT64_MAX. lia.
  - intros e He. apply list_elem_of_singleton in He. subst e. simpl. lia.
  - unfold is_int64, INT64_MIN, INT64_MAX, cached. simpl. lia.
  - reflexivity.
  - unfold cached. simpl. lia.
Defined.

(** X6. A fee that brings the cache to the threshold is distributed at once:
    with no entry above the block, a sum within [int64_t] at or above the
    threshold entry, a receiver set whose shares sum to that amount and
    credits that all succeed, [AddFee] returns with a cached amount of 0, the
    ledger credited with every share, and one fee history record for the
    whole amount under the next sequence id. *)
Theorem X6_add_fee_distributes_at_threshold
  {W : Type} `{Collaborators W} (st : State W) (p : N) (block amount : Z)
  (h : list feeCacheItem) (w' : W) :
  history st p = Some h -> is_int block -> is_int64 amount ->
  (forall e, e ∈ h -> fst e <= block) ->
  ~ overflows (cached h) amount ->
  is_int64 (cached h + amount) ->
  default 0 (distributionThresholds st !! p) <= cached h + amount ->
  credit_all (world st) p
    (rev (receivers_for (world st) p (cached h + amount))) = (true, w') ->
  sum_shares (receivers_for (world st) p (cached h + amount)) = cached h + amount ->
  exists st',
    AddFee p block amount st = Done tt st' /\
    GetCachedAmount p st' = Done 0 st' /\
    world st' = w' /\
    feehistory_db st'
    = <[fmt_d (next_id st) :=
          record_text p block (cached h + amount)
            (recipients_of (rev (receivers_for (world st) p (cached h + amount))))]>
        (feehistory_db st).
Proof.
  intros Hh Hb Ha Hle Hno Hsum Hthr Hcredit Hshares.
  destruct (history_typed _ _ _ Hh) as [Hs _].
  set (new := cached h + amount) in *.
  rewrite (AddFee_steps _ _ _ _ _ Hh Hb Ha). cbv zeta.
  rewrite decide_False by done.
  pose proof (history_rewrite st p block (to_int64 (cached h + amount)) h Hh Hb
                (to_int64_is_int64 _)) as Hst.
  fold new in Hst. rewrite (to_int64_id new) in Hst by done. fold new.
  rewrite (to_int64_id new) by done.
  set (st1 := put_cache p _ st) in *.
  unfold bind.
  destruct (PruneCache_run st1 p block _ Hst) as (st2 & -> & Hstep & Hh2).
  assert (is_set (rewritten block new h)) as Hsr by now apply rewritten_is_set.
  assert (cached (pruned block (rewritten block new h)) = new) as Hc.
  { unfold cached. now rewrite pruned_last, rewritten_last_new. }
  rewrite (EvalCache_steps _ _ _ _ Hh2). cbv zeta.
  rewrite (step_thresholds _ _ _ Hstep), Hc.
  change (distributionThresholds st1) with (distributionThresholds st).
  apply Z.leb_le in Hthr. rewrite Hthr.
  set (st3 := with_thresholds _ st2).
  assert (history st3 p = Some (pruned block (rewritten block new h))) as Hh3
    by exact Hh2.
  rewrite (DistributeCache_steps _ _ _ _ Hh3). cbv zeta. rewrite Hc.
  change (world st3) with (world st2). rewrite (step_world _ _ _ Hstep).
  change (world st1) with (world st). rewrite Hcredit. cbn [fst snd].
  rewrite sum_shares_rev, Hshares, (to_int64_id new), Z.eqb_refl by done.
  assert (next_id st3 = next_id st) as ->.
  { unfold next_id. change (feehistory_db st3) with (feehistory_db st2).
    now rewrite (step_feehistory _ _ _ Hstep). }
  set (st4 := with_feehistory_db _ _).
  assert (history st4 p = Some (pruned block (rewritten block new h))) as Hh4
    by exact Hh2.
  destruct (ClearCache_run st4 p block _ Hh4 Hb) as (st5 & -> & Hstep5 & Hh5).
  exists st5. split; [done|]. split; [|split].
  - rewrite (GetCachedAmount_run _ _ _ Hh5). unfold cached.
    rewrite pruned_last by now apply rewritten_is_set, pruned_is_set.
    rewrite rewritten_last_new; [done|].
    intros e He. apply pruned_sub in He.
    apply rewritten_elem in He as [->|[He _]]; [simpl; lia|auto].
  - now rewrite (step_world _ _ _ Hstep5).
  - rewrite (step_feehistory _ _ _ Hstep5). unfold st4.
    cbn [feehistory_db with_feehistory_db with_world].
    change (feehistory_db st3) with (feehistory_db st2).
    now rewrite (step_feehistory _ _ _ Hstep).
Qed.

Lemma X6_witness :
  exists st',
    AddFee (H := example_node true false) 7 201 45 example_accrued = Done tt st' /\
    GetCachedAmount 7 st' = Done 0 st' /\
    world st' = [("addrB", 7%N, 52); ("addrA", 7%N, 53)] /\
    feehistory_db st'
    = <[fmt_d (next_id example_accrued) :=
          record_text 7 201 (cached [(200, 60)] + 45)
            (recipients_of
               (rev (receivers_for (H := example_node true false)
                       (world example_accrued) 7 (cached [(200, 60)] + 45))))]>
        (feehistory_db example_accrued).
Proof.
  apply (X6_add_fee_distributes_at_threshold (H := example_node true false)
           example_accrued 7 201 45 [(200, 60)]).
  - reflexivity.
  - unfold is_int, INT_MIN, INT_MAX. lia.
  - unfold is_int64, INT64_MIN, INT64_MAX. lia.
  - intros e He. apply list_elem_of_singleton in He. subst e. simpl. lia.
  - unfold overflows, cached, INT64_MAX. simpl. lia.
  - unfold is_int64, INT64_MIN, INT64_MAX, cached. simpl. lia.
  - vm_compute. discriminate.
  - reflexivity.
  - reflexivity.
Defined.

Lemma AddFee_other_records
  {W : Type} `{Collaborators W} (st st' : State W) (p q : N) (block amount : Z) :
  is_int block -> is_int64 amount ->
  AddFee p block amount st = Done tt st' ->
  q <> p ->
  feecache_db st' !! fmt_010d q = feecache_db st !! fmt_010d q.
Proof.
  intros Hb Ha Hdone Hqp.
  assert (fmt_010d q <> fmt_010d p) as Hk
    by (intros Heq; apply Hqp; now apply fmt_010d_inj).
  destruct (history st p) as [h|] eqn:Hh.
  - rewrite (AddFee_steps _ _ _ _ _ Hh Hb Ha) in Hdone. cbv zeta in Hdone.
    pose proof (history_rewrite st p block (to_int64 (cached h + amount)) h Hh Hb
                  (to_int64_is_int64 _)) as Hst.
    case_decide.
    + destruct overrideforcedshutdown; [|done].
      match type of Hdone with
      | _ ?s1 = _ =>
          assert (history s1 p
                  = Some (rewritten block (to_int64 (cached h + amount)) h))
            as Hst' by exact Hst
      end.
      rewrite (fee_continuation_frame _ _ _ _ _ Hst' Hb Hdone _ Hk).
      cbn [feecache_db put_cache with_feecache_db with_log].
      now rewrite lookup_insert_ne.
    + rewrite (fee_continuation_frame _ _ _ _ _ Hst Hb Hdone _ Hk).
      cbn [feecache_db put_cache with_feecache_db].
      now rewrite lookup_insert_ne.
  - unfold AddFee, bind, GetCachedAmount, bind in Hdone.
    now rewrite (GetCacheHistory_throws _ _ Hh) in Hdone.
Qed.

(** X7. [AddFee] for one property never changes the record or the history of
    another property, whether or not it distributes. *)
Theorem X7_add_fee_leaves_other_properties
  {W : Type} `{Collaborators W} (st st' : State W) (p q : N) (block amount : Z) :
  is_int block -> is_int64 amount ->
  AddFee p block amount st = Done tt st' ->
  q <> p ->
  feecache_db st' !! fmt_010d q = feecache_db st !! fmt_010d q /\
  history st' q = history st q.
Proof.
  intros Hb Ha Hdone Hqp.
  pose proof (AddFee_other_records st st' p q block amount Hb Ha Hdone Hqp) as Hsame.
  split; [done|]. unfold history. now rewrite Hsame.
Qed.

Lemma X7_witness :
  exists st',
    AddFee (H := example_node true false) 7 201 45 example_accrued = Done tt st' /\
    feecache_db st' !! fmt_010d 3 = feecache_db example_accrued !! fmt_010d 3 /\
    history st' 3 = history example_accrued 3.
Proof.
  eexists. split; [vm_compute; reflexivity|].
  apply (X7_add_fee_leaves_other_properties (H := example_node true false)
           example_accrued _ 7 3 201 45).
  - unfold is_int, INT_MIN, INT_MAX. lia.
  - unfold is_int64, INT64_MIN, INT64_MAX. lia.
  - vm_compute. reflexivity.
  - discriminate.
Defined.

(** X8. [PruneCache] and [ClearCache] for one property change nothing but the
    fee cache record of that property: the fee history, the thresholds, the
    ledger and the records of all other properties stay as they are. *)
Theorem X8_prune_and_clear_touch_one_record
  {W : Type} `{Collaborators W} (st st' : State W) (p : N) (block : Z) :
  is_int block ->
  PruneCache p block st = Done tt st' \/ ClearCache p block st = Done tt st' ->
  cache_only st st' /\
  forall q, q <> p ->
    feecache_db st' !! fmt_010d q = feecache_db st !! fmt_010d q /\
    history st' q = history st q.
Proof.
  intros Hb Hrun.
  assert (cache_step p st st') as Hstep.
  { destruct Hrun as [Hrun|Hrun];
      [eapply PruneCache_done|eapply ClearCache_done]; eauto. }
  split; [eapply cache_step_only, Hstep|].
  intros q Hqp. split; [|now apply (cache_step_history p)].
  apply (step_other _ _ _ Hstep).
  intros Heq. apply Hqp. now apply fmt_010d_inj.
Qed.

Lemma X8_witness :
  exists st',
    ClearCache (H := example_node true false) 3 250 example_cache = Done tt st' /\
    cache_only example_cache st' /\
    forall q, q <> 3%N ->
      feecache_db st' !! fmt_010d q = feecache_db example_cache !! fmt_010d q /\
      history st' q = history example_cache q.
Proof.
  eexists. split; [vm_compute; reflexivity|].
  apply (X8_prune_and_clear_touch_one_record (H := example_node true false)
           example_cache _ 3 250).
  - unfold is_int, INT_MIN, INT_MAX. lia.
  - right. vm_compute. reflexivity.
Defined.

(** X9. Whatever the debug flag, [PruneCache] returns for a readable history,
    never adds an entry, never removes an entry whose block is at or above the
    cutoff, and never leaves a non-empty history empty. *)
Theorem X9_prune_is_conservative
  {W : Type} `{Collaborators W} (st : State W) (p : N) (block : Z)
  (h : list feeCacheItem) :
  history st p = Some h ->
  exists st' h',
    PruneCache p block st = Done tt st' /\
    history st' p = Some h' /\
    (forall e, e ∈ h' -> e ∈ h) /\
    (forall e, e ∈ h -> to_int (block - MAX_STATE_HISTORY) <= fst e -> e ∈ h') /\
    (h <> [] -> h' <> []).
Proof.
  intros Hh. destruct (history_typed _ _ _ Hh) as [Hs _].
  destruct (PruneCache_run st p block h Hh) as (st' & Hrun & _ & Hh').
  exists st', (pruned block h). split; [done|]. split; [done|].
  split; [apply pruned_sub|]. split; [apply pruned_keeps|].
  intros Hne Hnil. pose proof (pruned_last block h Hs) as Hlast.
  rewrite Hnil in Hlast. symmetry in Hlast. now apply last_None in Hlast.
Qed.

Lemma X9_witness :
  exists st' h',
    PruneCache (H := example_node true false) 3 230 example_cache = Done tt st' /\
    history st' 3 = Some h' /\
    (forall e, e ∈ h' -> e ∈ [(100, 5); (150, 9); (200, 7)]) /\
    (forall e, e ∈ [(100, 5); (150, 9); (200, 7)] ->
       to_int (230 - MAX_STATE_HISTORY (Collaborators := example_node true false))
       <= fst e -> e ∈ h') /\
    ([(100, 5); (150, 9); (200, 7)] <> [] -> h' <> []).
Proof.
  apply (X9_prune_is_conservative (H := example_node true false)
           example_cache 3 230 [(100, 5); (150, 9); (200, 7)]).
  reflexivity.
Defined.

(** X10. With [exodus_debug_fees] set and a cutoff [block - MAX_STATE_HISTORY]
    that is an [int], [PruneCache] leaves exactly the entries at or above the
    cutoff, or just the most recent entry when no entry is that recent. *)
Theorem X10_prune_rule_with_debug
  {W : Type} `{Collaborators W} (st : State W) (p : N) (block : Z)
  (h : list feeCacheItem) :
  exodus_debug_fees = true ->
  is_int (block - MAX_STATE_HISTORY) ->
  history st p = Some h ->
  exists st',
    PruneCache p block st = Done tt st' /\
    history st' p = Some (prune_spec (block - MAX_STATE_HISTORY) h).
Proof.
  intros Hd Hcut Hh.
  destruct (PruneCache_with_debug st p block h Hd Hh) as (st' & Hrun & Hh').
  exists st'. split; [done|]. now rewrite to_int_id in Hh'.
Qed.

Lemma X10_witness :
  exists st',
    PruneCache (H := example_node true false) 3 230 example_cache = Done tt st' /\
    history st' 3
    = Some (prune_spec
              (230 - MAX_STATE_HISTORY (Collaborators := example_node true false))
              [(100, 5); (150, 9); (200, 7)]).
Proof.
  apply (X10_prune_rule_with_debug (H := example_node true false)
           example_cache 3 230 [(100, 5); (150, 9); (200, 7)]).
  - reflexivity.
  - unfold is_int, INT_MIN, INT_MAX. simpl. lia.
  - reflexivity.
Defined.

Lemma is_set_ext {A : Type} `{LessOrder A} (l1 l2 : list A) :
  is_set l1 -> is_set l2 -> (forall x, x ∈ l1 <-> x ∈ l2) -> l1 = l2.
Proof.
  unfold is_set. intros Hs1. revert l2.
  induction Hs1 as [|a r1 Hr1 IH Ha]; intros l2 Hs2 Hext.
  - destruct l2 as [|b r2]; [done|].
    exfalso. eapply elem_of_nil, Hext. left.
  - destruct Hs2 as [|b r2 Hr2 Hb].
    { exfalso. eapply elem_of_nil, Hext. left. }
    rewrite Forall_forall in Ha, Hb.
    assert (a = b) as ->.
    { assert (a ∈ b :: r2) as Ha2 by (apply Hext; left).
      assert (b ∈ a :: r1) as Hb1 by (apply Hext; left).
      apply elem_of_cons in Ha2 as [->|Ha2]; [done|].
      apply elem_of_cons in Hb1 as [->|Hb1]; [done|].
      pose proof (less_asym _ _ (Ha _ Hb1)) as Hab.
      now rewrite (Hb _ Ha2) in Hab. }
    f_equal. apply IH; [done|]. intros x. split; intros Hx.
    + assert (x ∈ b :: r2) as Hx2 by (apply Hext; now right).
      apply elem_of_cons in Hx2 as [->|Hx2]; [|done].
      pose proof (Ha _ Hx) as Hbb. now rewrite less_irrefl in Hbb.
    + assert (x ∈ b :: r1) as Hx1 by (apply Hext; now right).
      apply elem_of_cons in Hx1 as [->|Hx1]; [|done].
      pose proof (Hb _ Hx) as Hbb. now rewrite less_irrefl in Hbb.
Qed.

Section RollBackCacheErrors.
Context {W : Type} `{Collaborators W}.
Implicit Types (st : State W) (p : N).

Lemma RollBackCache_property_throws st p block :
  history st p = None ->
  RollBackCache_property block p st = Abort BadLexicalCast st.
Proof.
  intros Hh. unfold RollBackCache_property, bind.
  now rewrite (GetCacheHistory_throws _ _ Hh).
Qed.

Lemma rollback_loop_throws (l : list N) block st p :
  p ∈ l -> history st p = None ->
  exists sx, for_each l (RollBackCache_property block) st = Abort BadLexicalCast sx.
Proof.
  revert st. induction l as [|x l IH]; intros st Hin Hnone;
    [now apply elem_of_nil in Hin|].
  simpl. unfold bind.
  destruct (history st x) as [hx|] eqn:Hx.
  - destruct (RollBackCache_property_run st x block hx Hx) as (st1 & -> & Hstep & _).
    apply elem_of_cons in Hin as [->|Hin]; [congruence|].
    assert (p <> x) as Hne by congruence.
    apply IH; [done|]. now rewrite (cache_step_history _ _ _ _ Hstep Hne).
  - rewrite (RollBackCache_property_throws _ _ _ Hx). eauto.
Qed.

Lemma rollback_loop_done_frame (l : list N) block st st' p :
  for_each l (RollBackCache_property block) st = Done tt st' ->
  p ∉ l -> history st' p = history st p.
Proof.
  revert st. induction l as [|x l IH]; intros st; simpl.
  - now intros [= <-].
  - unfold bind. intros Hrun Hp. apply not_elem_of_cons in Hp as [Hne Hp].
    destruct (history st x) as [hx|] eqn:Hx.
    + destruct (RollBackCache_property_run st x block hx Hx)
        as (st1 & Hrun1 & Hstep & _).
      rewrite Hrun1 in Hrun. rewrite (IH _ Hrun Hp).
      now apply (cache_step_history x).
    + now rewrite (RollBackCache_property_throws _ _ _ Hx) in Hrun.
Qed.

Lemma rollback_loop_fault (l : list N) block st f sx :
  for_each l (RollBackCache_property block) st = Abort f sx -> f = BadLexicalCast.
Proof.
  revert st. induction l as [|x l IH]; intros st; simpl; [done|].
  unfold bind. destruct (history st x) as [hx|] eqn:Hx.
  - destruct (RollBackCache_property_run st x block hx Hx) as (st1 & -> & _).
    apply IH.
  - rewrite (RollBackCache_property_throws _ _ _ Hx). now intros [= <- _].
Qed.

End RollBackCacheErrors.

(** X11. A rollback undoes an accrual: when every entry of a known property's
    history is below the block and inside the retention window, and the other
    known properties are readable, an [AddFee] at that block that stays below
    the threshold followed by [RollBackCache] of that block gives back the
    history and the cached amount from before the [AddFee]. *)
Theorem X11_rollback_undoes_add_fee
  {W : Type} `{Collaborators W} (st : State W) (p : N) (block amount thr : Z)
  (h : list feeCacheItem) :
  history st p = Some h -> is_int block -> is_int64 amount ->
  (forall e, e ∈ h -> to_int (block - MAX_STATE_HISTORY) <= fst e < block) ->
  is_int64 (cached h + amount) ->
  distributionThresholds st !! p = Some thr ->
  cached h + amount < thr ->
  p ∈ known_properties (world st) ->
  (forall q, q ∈ known_properties (world st) -> is_Some (history st q)) ->
  exists st1 st2,
    AddFee p block amount st = Done tt st1 /\
    RollBackCache block st1 = Done tt st2 /\
    history st2 p = Some h /\
    GetCachedAmount p st2 = Done (cached h) st2.
Proof.
  intros Hh Hb Ha Hwin Hsum Hthr Hlt Hknown Hall.
  destruct (history_typed _ _ _ Hh) as [Hs _].
  set (new := to_int64 (cached h + amount)).
  assert (is_set (rewritten block new h)) as Hsr by now apply rewritten_is_set.
  assert (cached (pruned block (rewritten block new h)) = cached h + amount) as Hc.
  { unfold cached. rewrite pruned_last by done.
    rewrite rewritten_last_new; [now apply to_int64_id|].
    intros e He. specialize (Hwin e He). lia. }
  destruct (AddFee_quiet st p block amount h thr Hh Hb Ha)
    as (st1 & Hrun1 & Hh1 & _ & _ & Hw1).
  { unfold overflows. unfold is_int64, INT64_MIN, INT64_MAX in *. lia. }
  { done. }
  { fold new. now rewrite Hc. }
  fold new in Hh1.
  destruct (rollback_loop (known_properties (world st)) block st1)
    as (st2 & Hrun2 & _ & Hhist & _).
  { intros q Hq. destruct (decide (q = p)) as [->|Hne]; [eauto|].
    unfold history.
    rewrite (AddFee_other_records st st1 p q block amount Hb Ha Hrun1 Hne).
    apply (Hall q Hq). }
  assert (history st2 p = Some h) as Hh2.
  { rewrite (Hhist _ _ Hh1), decide_True by done. f_equal.
    apply is_set_ext; [now apply is_set_filter, pruned_is_set|done|].
    intros e. unfold below. rewrite list_elem_of_filter. split.
    - intros [Hlow He]. apply pruned_sub in He.
      apply rewritten_elem in He as [->|[He _]]; [simpl in Hlow; lia|done].
    - intros He. specialize (Hwin e He). split; [lia|].
      apply pruned_keeps; [|lia]. apply rewritten_elem. right. split; [done|lia]. }
  exists st1, st2. split; [done|]. split; [|split; [done|]].
  - apply RollBackCache_known. now rewrite Hw1.
  - now rewrite (GetCachedAmount_run _ _ _ Hh2).
Qed.

Lemma X11_witness :
  exists st1 st2,
    AddFee (H := example_node true false) 3 201 30 example_accrued3 = Done tt st1 /\
    RollBackCache (H := example_node true false) 201 st1 = Done tt st2 /\
    history st2 3 = Some [(200, 60)] /\
    GetCachedAmount 3 st2 = Done (cached [(200, 60)]) st2.
Proof.
  apply (X11_rollback_undoes_add_fee (H := example_node true false)
           example_accrued3 3 201 30 100 [(200, 60)]).
  - reflexivity.
  - unfold is_int, INT_MIN, INT_MAX. lia.
  - unfold is_int64, INT64_MIN, INT64_MAX. lia.
  - intros e He. apply list_elem_of_singleton in He. subst e. vm_compute.
    repeat split; discriminate.
  - unfold is_int64, INT64_MIN, INT64_MAX, cached. simpl. lia.
  - reflexivity.
  - unfold cached. simpl. lia.
  - vm_compute known_properties. right. right. left.
  - apply Forall_forall. vm_compute known_properties.
    repeat constructor; eexists; reflexivity.
Defined.

(** X12. [RollBackCache] does not catch the exception of an unreadable
    record: if the fee cache record of one known property cannot be read, the
    whole rollback ends with [bad_lexical_cast]. *)
Theorem X12_rollback_cache_throws
  {W : Type} `{Collaborators W} (st : State W) (p : N) (block : Z) :
  p ∈ known_properties (world st) ->
  history st p = None ->
  exists sx, RollBackCache block st = Abort BadLexicalCast sx.
Proof.
  intros Hknown Hnone. unfold RollBackCache, known_properties in *.
  simpl for_each. unfold bind, get_state. cbn [N.eqb Pos.eqb].
  destruct (for_each (property_range 1 (peekNextSPID (world st) 1)) _ st)
    as [[] st1|f sx] eqn:E1.
  - rewrite (only_world _ _ (rollback_loop_only _ _ _ _ E1)).
    apply elem_of_app in Hknown as [Hin|Hin].
    + destruct (rollback_loop_throws _ block st p Hin Hnone) as (sx & Hab).
      congruence.
    + destruct (decide (p ∈ property_range 1 (peekNextSPID (world st) 1)))
        as [Hin1|Hout].
      * destruct (rollback_loop_throws _ block st p Hin1 Hnone) as (sx & Hab).
        congruence.
      * pose proof (rollback_loop_done_frame _ _ _ _ p E1 Hout) as Hsame.
        rewrite Hnone in Hsame.
        destruct (rollback_loop_throws _ block st1 p Hin Hsame) as (sx & ->).
        eauto.
  - rewrite (rollback_loop_fault _ _ _ _ _ E1). eauto.
Qed.

Lemma X12_witness :
  exists sx,
    RollBackCache (H := example_node true false) 500 example_unreadable
    = Abort BadLexicalCast sx.
Proof.
  apply (X12_rollback_cache_throws (H := example_node true false)
           example_unreadable 3 500).
  - vm_compute known_properties. right. right. left.
  - reflexivity.
Defined.

(** * Further properties of the fee history *)

Lemma rollback_scan_lookup block (db : gmap string string) k :
  fold_left (rollback_step block) (db_scan db) db !! k
  = match db !! k with
    | Some v => if doomed block v then None else Some v
    | None => None
    end.
Proof.
  destruct (db !! k) as [v|] eqn:Hk.
  - destruct (doomed block v) eqn:Hd.
    + apply (rollback_fold_deleted block _ _ k v); [now apply elem_of_db_scan|done].
    + rewrite rollback_fold_kept; [done|].
      intros v' Hin. apply elem_of_db_scan in Hin. congruence.
  - now apply rollback_fold_absent.
Qed.

Lemma RollBackHistory_run {W} (st : State W) block :
  (forall k v, feehistory_db st !! k = Some v -> scans v) ->
  RollBackHistory block st
  = Done tt (with_feehistory_db
               (fun _ => fold_left (rollback_step block)
                           (db_scan (feehistory_db st)) (feehistory_db st)) st).
Proof.
  intros Hscan. unfold RollBackHistory, bind, get_state.
  apply rollback_history_loop, Forall_forall.
  intros [k v] Hin. apply elem_of_db_scan in Hin. eapply Hscan, Hin.
Qed.

Lemma GetDistributionData_lookup {W} (s1 s2 : State W) id :
  feehistory_db s1 !! fmt_d id = feehistory_db s2 !! fmt_d id ->
  returned (GetDistributionData id s1) = returned (GetDistributionData id s2).
Proof.
  intros Heq. unfold GetDistributionData, bind, get_state. rewrite Heq.
  destruct (feehistory_db s2 !! fmt_d id) as [v|]; [|done].
  destruct (split ":" v) as [|b [|q [|t [|r [|? ?]]]]]; try done.
  unfold from_cast.
  destruct (lexical_cast_int b); [|done].
  destruct (lexical_cast_uint32 q); [|done].
  now destruct (lexical_cast_int64 t).
Qed.

Lemma GetFeeDistribution_lookup {W} (s1 s2 : State W) id :
  feehistory_db s1 !! fmt_d id = feehistory_db s2 !! fmt_d id ->
  returned (GetFeeDistribution id s1) = returned (GetFeeDistribution id s2).
Proof.
  intros Heq. unfold GetFeeDistribution, bind, get_state. rewrite Heq.
  destruct (feehistory_db s2 !! fmt_d id) as [v|]; [|done].
  destruct (split ":" v) as [|b [|q [|t [|r [|? ?]]]]]; try done.
  unfold from_cast. now destruct (parse_fee_items _ _).
Qed.

Lemma stored_block_record_text p block total recipients :
  is_int block ->
  Forall (fun r : feeHistoryItem => plain_address (fst r)) recipients ->
  stored_block (record_text p block total recipients) = Some block.
Proof.
  intros Hb Hr. unfold stored_block. rewrite split_record_text by done.
  now apply lexical_cast_int_fmt_d.
Qed.

(** X13. The sequence id is the record count plus one, not a fresh id: when
    that key is already in use (as after a rollback that removed an earlier
    record), [RecordFeeDistribution] replaces the record stored under it, the
    record count stays the same, and the other records are untouched. *)
Theorem X13_record_overwrites_on_id_collision
  {W : Type} (st : State W) (p : N) (block total : Z)
  (recipients : list feeHistoryItem) (old : string) :
  feehistory_db st !! fmt_d (next_id st) = Some old ->
  exists st',
    RecordFeeDistribution p block total recipients st = Done tt st' /\
    feehistory_db st' !! fmt_d (next_id st)
    = Some (record_text p block total recipients) /\
    (forall k, k <> fmt_d (next_id st) ->
       feehistory_db st' !! k = feehistory_db st !! k) /\
    returned (CountRecords st') = returned (CountRecords st).
Proof.
  intros Hold. eexists. split; [apply RecordFeeDistribution_run|].
  cbn [feehistory_db with_feehistory_db]. split; [apply lookup_insert_eq|].
  split; [intros k Hk; now apply lookup_insert_ne|].
  unfold CountRecords, bind, get_state, ret. cbn [returned feehistory_db with_feehistory_db].
  rewrite map_size_insert_Some; [done|]. now rewrite Hold.
Qed.

Lemma X13_witness :
  exists st',
    RecordFeeDistribution 4 460 9 [("c", 9)] example_gap = Done tt st' /\
    feehistory_db st' !! fmt_d (next_id example_gap)
    = Some (record_text 4 460 9 [("c", 9)]) /\
    (forall k, k <> fmt_d (next_id example_gap) ->
       feehistory_db st' !! k = feehistory_db example_gap !! k) /\
    returned (CountRecords st') = returned (CountRecords example_gap).
Proof.
  apply (X13_record_overwrites_on_id_collision example_gap 4 460 9 [("c", 9)]
           "450:4:7:b=7").
  reflexivity.
Defined.

(** X14. After [RollBackHistory(block)] a distribution recorded at or above
    the block can no longer be read ([GetDistributionData] reports it as not
    found, [GetFeeDistribution] returns the empty set), and every other id
    reads exactly as before. *)
Theorem X14_rolled_back_record_is_gone
  {W : Type} (st : State W) (block : Z) :
  (forall k v, feehistory_db st !! k = Some v -> scans v) ->
  exists st',
    RollBackHistory block st = Done tt st' /\
    (forall id v b,
       feehistory_db st !! fmt_d id = Some v ->
       stored_block v = Some b -> block <= b ->
       GetDistributionData id st' = Done None st' /\
       GetFeeDistribution id st' = Done [] st') /\
    (forall id,
       (forall v b, feehistory_db st !! fmt_d id = Some v ->
                    stored_block v = Some b -> b < block) ->
       returned (GetDistributionData id st') = returned (GetDistributionData id st) /\
       returned (GetFeeDistribution id st') = returned (GetFeeDistribution id st)).
Proof.
  intros Hscan. eexists. split; [now apply RollBackHistory_run|].
  split.
  - intros id v b Hv Hb Hle.
    assert (doomed block v = true) as Hd by (apply doomed_stored; eauto).
    unfold GetDistributionData, GetFeeDistribution, bind, get_state.
    cbn [feehistory_db with_feehistory_db].
    now rewrite rollback_scan_lookup, Hv, Hd.
  - intros id Hkeep.
    assert (fold_left (rollback_step block) (db_scan (feehistory_db st))
                (feehistory_db st) !! fmt_d id
            = feehistory_db st !! fmt_d id) as Hsame.
    { rewrite rollback_scan_lookup.
      destruct (feehistory_db st !! fmt_d id) as [v|] eqn:Hv; [|done].
      destruct (doomed block v) eqn:Hd; [|done].
      apply doomed_stored in Hd as (b & Hb & Hle).
      specialize (Hkeep v b eq_refl Hb). lia. }
    split; [apply GetDistributionData_lookup|apply GetFeeDistribution_lookup];
      exact Hsame.
Qed.

Lemma X14_witness :
  exists st',
    RollBackHistory 500 example_records = Done tt st' /\
    (forall id v b,
       feehistory_db example_records !! fmt_d id = Some v ->
       stored_block v = Some b -> 500 <= b ->
       GetDistributionData id st' = Done None st' /\
       GetFeeDistribution id st' = Done [] st') /\
    (forall id,
       (forall v b, feehistory_db example_records !! fmt_d id = Some v ->
                    stored_block v = Some b -> b < 500) ->
       returned (GetDistributionData id st')
       = returned (GetDistributionData id example_records) /\
       returned (GetFeeDistribution id st')
       = returned (GetFeeDistribution id example_records)).
Proof.
  apply (X14_rolled_back_record_is_gone example_records 500).
  intros k v Hkv.
  unfold example_records, example_history in Hkv.
  cbn [feehistory_db list_to_map foldr fst snd] in Hkv.
  rewrite !lookup_insert_Some, lookup_empty in Hkv.
  destruct Hkv as [[_ <-]|[_ [[_ <-]|[_ [[_ <-]|[_ ?]]]]]]; [..|done];
    vm_compute; eauto.
Defined.

(** X15. A distribution recorded at block [b] is removed by
    [RollBackHistory(block)] exactly when [block <= b]: for a larger block the
    record stays under its id with its content. *)
Theorem X15_rollback_removes_record_from_its_block
  {W : Type} (st : State W) (p : N) (b total block : Z)
  (recipients : list feeHistoryItem) :
  is_int b ->
  Forall (fun r : feeHistoryItem => plain_address (fst r)) recipients ->
  (forall k v, feehistory_db st !! k = Some v -> scans v) ->
  exists st1 st2,
    RecordFeeDistribution p b total recipients st = Done tt st1 /\
    RollBackHistory block st1 = Done tt st2 /\
    (block <= b -> feehistory_db st2 !! fmt_d (next_id st) = None) /\
    (b < block ->
       feehistory_db st2 !! fmt_d (next_id st)
       = Some (record_text p b total recipients)).
Proof.
  intros Hb Hr Hscan.
  pose proof (stored_block_record_text p b total recipients Hb Hr) as Hstored.
  eexists _, _. split; [apply RecordFeeDistribution_run|].
  split.
  { apply RollBackHistory_run. cbn [feehistory_db with_feehistory_db].
    intros k v Hkv. apply lookup_insert_Some in Hkv as [[_ <-]|[_ Hkv]]; [|eauto].
    unfold scans. unfold stored_block in Hstored.
    destruct (split ":" (record_text p b total recipients))
      as [|f1 [|f2 [|f3 [|f4 [|? ?]]]]]; try done; eauto. }
  cbn [feehistory_db with_feehistory_db].
  rewrite rollback_scan_lookup, lookup_insert_eq.
  unfold doomed. rewrite Hstored. split; intros Hcmp.
  - apply Z.leb_le in Hcmp. now rewrite Hcmp.
  - apply Z.leb_gt in Hcmp. now rewrite Hcmp.
Qed.

Lemma X15_witness :
  exists st1 st2,
    RecordFeeDistribution 3 450 9 [("c", 9)] example_records = Done tt st1 /\
    RollBackHistory 450 st1 = Done tt st2 /\
    (450 <= 450 -> feehistory_db st2 !! fmt_d (next_id example_records) = None) /\
    (450 < 450 ->
       feehistory_db st2 !! fmt_d (next_id example_records)
       = Some (record_text 3 450 9 [("c", 9)])).
Proof.
  apply (X15_rollback_removes_record_from_its_block example_records 3 450 9 450
           [("c", 9)]).
  - unfold is_int, INT_MIN, INT_MAX. lia.
  - repeat constructor.
  - intros k v Hkv.
    unfold example_records, example_history in Hkv.
    cbn [feehistory_db list_to_map foldr fst snd] in Hkv.
    rewrite !lookup_insert_Some, lookup_empty in Hkv.
    destruct Hkv as [[_ <-]|[_ [[_ <-]|[_ [[_ <-]|[_ ?]]]]]]; [..|done];
      vm_compute; eauto.
Defined.

(** X16. [RollBackHistory] is idempotent: a second rollback to the same block
    finds nothing to delete and leaves the store as the first one left it. *)
Theorem X16_rollback_history_idempotent
  {W : Type} (st : State W) (block : Z) :
  (forall k v, feehistory_db st !! k = Some v -> scans v) ->
  exists st',
    RollBackHistory block st = Done tt st' /\
    exists st'',
      RollBackHistory block st' = Done tt st'' /\
      feehistory_db st'' = feehistory_db st'.
Proof.
  intros Hscan. eexists. split; [now apply RollBackHistory_run|].
  eexists. split.
  { apply RollBackHistory_run. cbn [feehistory_db with_feehistory_db].
    intros k v. rewrite rollback_scan_lookup.
    destruct (feehistory_db st !! k) as [v0|] eqn:Hk; [|done].
    destruct (doomed block v0); [done|]. intros [= <-]. eauto. }
  cbn [feehistory_db with_feehistory_db].
  apply map_eq. intros k. rewrite !rollback_scan_lookup.
  destruct (feehistory_db st !! k) as [v0|]; [|done].
  destruct (doomed block v0) eqn:Hd; [done|]. now rewrite Hd.
Qed.

Lemma X16_witness :
  exists st',
    RollBackHistory 500 example_records = Done tt st' /\
    exists st'',
      RollBackHistory 500 st' = Done tt st'' /\
      feehistory_db st'' = feehistory_db st'.
Proof.
  apply (X16_rollback_history_idempotent example_records 500).
  intros k v Hkv.
  unfold example_records, example_history in Hkv.
  cbn [feehistory_db list_to_map foldr fst snd] in Hkv.
  rewrite !lookup_insert_Some, lookup_empty in Hkv.
  destruct Hkv as [[_ <-]|[_ [[_ <-]|[_ [[_ <-]|[_ ?]]]]]]; [..|done];
    vm_compute; eauto.
Defined.

Lemma rollback_history_loop_throws {W} block (l : list (string * string))
  (st : State W) k v b f2 f3 f4 :
  (k, v) ∈ l -> split ":" v = [b; f2; f3; f4] -> lexical_cast_int b = None ->
  exists sx, for_each l (RollBackHistory_record block) st = Abort BadLexicalCast sx.
Proof.
  intros Hin Hsplit Hcast. revert st.
  induction l as [|record l IH]; intros st; [now apply elem_of_nil in Hin|].
  simpl. unfold bind at 1.
  apply elem_of_cons in Hin as [<-|Hin].
  - unfold RollBackHistory_record. simpl. rewrite Hsplit.
    unfold bind, from_cast. rewrite Hcast. unfold throw. eauto.
  - unfold RollBackHistory_record at 1.
    destruct (split ":" (snd record)) as [|b' [|g2 [|g3 [|g4 [|? ?]]]]];
      try (unfold ret; now apply IH).
    unfold bind, from_cast. destruct (lexical_cast_int b') as [fb|].
    + unfold ret. destruct (block <=? fb); [unfold modify|]; now apply IH.
    + unfold throw. eauto.
Qed.

(** X17. [RollBackHistory] does not catch the exception of an unreadable
    block field: one record with four fields whose first field is not a
    number ends the whole scan with [bad_lexical_cast]. *)
Theorem X17_rollback_history_throws
  {W : Type} (st : State W) (block : Z) (k v b f2 f3 f4 : string) :
  feehistory_db st !! k = Some v ->
  split ":" v = [b; f2; f3; f4] ->
  lexical_cast_int b = None ->
  exists sx, RollBackHistory block st = Abort BadLexicalCast sx.
Proof.
  intros Hkv Hsplit Hcast. unfold RollBackHistory, bind, get_state.
  apply (rollback_history_loop_throws block _ st k v b f2 f3 f4);
    [now apply elem_of_db_scan|done|done].
Qed.

Lemma X17_witness :
  exists sx, RollBackHistory 500 example_bad_block = Abort BadLexicalCast sx.
Proof.
  apply (X17_rollback_history_throws example_bad_block 500
           "2" "x500:3:7:a=7" "x500" "3" "7" "a=7"); reflexivity.
Defined.

Lemma scan_distributions_spec p (l : list (string * string)) (acc : list Z) :
  Forall (fun record => listable p (fst record) (snd record)) l ->
  exists ids,
    scan_distributions p l acc = Some ids /\
    (is_set acc -> is_set ids) /\
    forall id, id ∈ ids <->
      id ∈ acc \/ exists k v, (k, v) ∈ l /\ listed p k v id.
Proof.
  intros Hl. revert acc. induction Hl as [|[k v] l Hr Hl IH]; intros acc.
  - exists acc. split; [done|]. split; [done|]. intros id. split; [now left|].
    intros [?|(k & v & Hin & _)]; [done|]. now apply elem_of_nil in Hin.
  - simpl in Hr. unfold listable in Hr. simpl scan_distributions.
    assert (forall acc' : list Z,
              (forall id, ~ listed p k v id) ->
              exists ids, scan_distributions p l acc' = Some ids /\
                (is_set acc' -> is_set ids) /\
                forall id, id ∈ ids <->
                  id ∈ acc' \/ exists k0 v0, (k0, v0) ∈ (k, v) :: l /\ listed p k0 v0 id)
      as Hskip.
    { intros acc' Hnot. destruct (IH acc') as (ids & Hrun & Hset & Hmem).
      exists ids. split; [done|]. split; [done|]. intros id. rewrite Hmem.
      split; (intros [?|(k0 & v0 & Hin & Hlisted)]; [now left|right]).
      - exists k0, v0. split; [now right|done].
      - apply elem_of_cons in Hin as [[= -> ->]|Hin]; [now apply Hnot in Hlisted|].
        eauto. }
    destruct (split ":" v) as [|b [|q [|t [|r [|? ?]]]]] eqn:Hsplit;
      try (apply Hskip; intros id (b0 & q0 & t0 & r0 & Hs & _); congruence).
    destruct Hr as (prop & Hprop & Hkey). rewrite Hprop. simpl.
    destruct (N.eqb_spec prop p) as [->|Hne].
    + destruct (Hkey eq_refl) as [id0 Hid0]. rewrite Hid0. simpl.
      destruct (IH (set_insert id0 acc)) as (ids & Hrun & Hset & Hmem).
      exists ids. split; [done|].
      split; [intros Hacc; now apply Hset, set_insert_is_set|].
      intros id. rewrite Hmem, set_insert_elem. split.
      * intros [[->|?]|(k0 & v0 & Hin & Hlisted)]; [right|now left|right].
        -- exists k, v. split; [left|]. exists b, q, t, r. done.
        -- exists k0, v0. split; [now right|done].
      * intros [?|(k0 & v0 & Hin & Hlisted)]; [left; now right|].
        apply elem_of_cons in Hin as [[= -> ->]|Hin]; [|right; eauto].
        destruct Hlisted as (b0 & q0 & t0 & r0 & _ & _ & Hid).
        left. left. congruence.
    + apply Hskip. intros id (b0 & q0 & t0 & r0 & Hs & Hq & _).
      rewrite Hsplit in Hs. now simplify_eq.
Qed.

Lemma GetDistributionsForProperty_run {W} (st : State W) p :
  (forall k v, feehistory_db st !! k = Some v -> listable p k v) ->
  exists ids,
    GetDistributionsForProperty p st = Done ids st /\
    is_set ids /\
    forall id, id ∈ ids <->
      exists k v, feehistory_db st !! k = Some v /\ listed p k v id.
Proof.
  intros Hall.
  destruct (scan_distributions_spec p (db_scan (feehistory_db st)) [])
    as (ids & Hrun & Hset & Hmem).
  { apply Forall_forall. intros [k v] Hin. apply elem_of_db_scan in Hin.
    now apply Hall. }
  exists ids. split; [|split].
  - unfold GetDistributionsForProperty, bind, get_state. now rewrite Hrun.
  - apply Hset. constructor.
  - intros id. rewrite Hmem. split.
    + intros [Hnil|(k & v & Hin & Hlisted)]; [now apply elem_of_nil in Hnil|].
      exists k, v. split; [now apply elem_of_db_scan|done].
    + intros (k & v & Hkv & Hlisted). right.
      exists k, v. split; [now apply elem_of_db_scan|done].
Qed.

(** X18. [GetDistributionsForProperty] returns, as an ordered set, exactly the
    ids (the keys read as [int]) of the four-field records whose property
    field is the property asked for; values that are not four-field records
    are passed over.  It returns whenever the property fields, and the keys
    of the matching records, are numbers. *)
Theorem X18_distributions_for_property
  {W : Type} (st : State W) (p : N) :
  (forall k v, feehistory_db st !! k = Some v -> listable p k v) ->
  exists ids,
    GetDistributionsForProperty p st = Done ids st /\
    is_set ids /\
    forall id, id ∈ ids <->
      exists k v, feehistory_db st !! k = Some v /\ listed p k v id.
Proof. apply GetDistributionsForProperty_run. Qed.

Lemma X18_witness :
  exists ids,
    GetDistributionsForProperty 3 example_records = Done ids example_records /\
    is_set ids /\
    forall id, id ∈ ids <->
      exists k v, feehistory_db example_records !! k = Some v /\ listed 3 k v id.
Proof.
  apply (X18_distributions_for_property example_records 3).
  intros k v Hkv.
  unfold example_records, example_history in Hkv.
  cbn [feehistory_db list_to_map foldr fst snd] in Hkv.
  rewrite !lookup_insert_Some, lookup_empty in Hkv.
  destruct Hkv as [[<- <-]|[_ [[<- <-]|[_ [[<- <-]|[_ ?]]]]]]; [..|done].
  - exists 3%N. split; [reflexivity|]. intros _. vm_compute. eauto.
  - exists 3%N. split; [reflexivity|]. intros _. vm_compute. eauto.
  - exact I.
Defined.

(** X19. A distribution that was just recorded is listed for its property:
    after [RecordFeeDistribution] for a [uint32_t] property with plain
    recipient addresses, [GetDistributionsForProperty] of that property
    contains the sequence id the record was given. *)
Theorem X19_recorded_distribution_is_listed
  {W : Type} (st : State W) (p : N) (block total : Z)
  (recipients : list feeHistoryItem) :
  is_uint32 p ->
  Forall (fun r : feeHistoryItem => plain_address (fst r)) recipients ->
  (forall k v, feehistory_db st !! k = Some v -> listable p k v) ->
  exists st1 ids,
    RecordFeeDistribution p block total recipients st = Done tt st1 /\
    GetDistributionsForProperty p st1 = Done ids st1 /\
    next_id st ∈ ids.
Proof.
  intros Hp Hr Hall.
  pose proof (split_record_text p block total recipients Hr) as Hsplit.
  assert (lexical_cast_int (fmt_d (next_id st)) = Some (next_id st)) as Hid
    by apply lexical_cast_int_fmt_d, to_int_is_int.
  eexists. destruct (GetDistributionsForProperty_run
    (with_feehistory_db
       (insert (fmt_d (next_id st)) (record_text p block total recipients)) st) p)
    as (ids & Hrun & _ & Hmem).
  { cbn [feehistory_db with_feehistory_db]. intros k v Hkv.
    apply lookup_insert_Some in Hkv as [[<- <-]|[_ Hkv]]; [|eauto].
    unfold listable. rewrite Hsplit. exists p.
    split; [now apply lexical_cast_uint32_fmt_u|]. intros _. eauto. }
  exists ids. split; [apply RecordFeeDistribution_run|]. split; [exact Hrun|].
  apply Hmem. exists (fmt_d (next_id st)), (record_text p block total recipients).
  split; [cbn [feehistory_db with_feehistory_db]; apply lookup_insert_eq|].
  eexists _, _, _, _. split; [exact Hsplit|].
  split; [now apply lexical_cast_uint32_fmt_u|exact Hid].
Qed.

Lemma X19_witness :
  exists st1 ids,
    RecordFeeDistribution 3 450 9 [("c", 9)] example_records = Done tt st1 /\
    GetDistributionsForProperty 3 st1 = Done ids st1 /\
    next_id example_records ∈ ids.
Proof.
  apply (X19_recorded_distribution_is_listed example_records 3 450 9 [("c", 9)]).
  - unfold is_uint32, UINT32_MAX. lia.
  - repeat constructor.
  - intros k v Hkv.
    unfold example_records, example_history in Hkv.
    cbn [feehistory_db list_to_map foldr fst snd] in Hkv.
    rewrite !lookup_insert_Some, lookup_empty in Hkv.
    destruct Hkv as [[<- <-]|[_ [[<- <-]|[_ [[<- <-]|[_ ?]]]]]]; [..|done].
    + exists 3%N. split; [reflexivity|]. intros _. vm_compute. eauto.
    + exists 3%N. split; [reflexivity|]. intros _. vm_compute. eauto.
    + exact I.
Defined.

(** * Further properties of the distribution *)

(** X20. An empty cache does not stop [DistributeCache]: with a cached amount
    of 0 and no receivers the call returns, a fee history record with total 0
    and no recipients is written under the next sequence id, the ledger is
    untouched, and the history gets the entry (block, 0). *)
Theorem X20_zero_cache_is_still_recorded
  {W : Type} `{Collaborators W} (st : State W) (p : N) (block : Z)
  (h : list feeCacheItem) :
  history st p = Some h -> is_int block ->
  cached h = 0 ->
  receivers_for (world st) p 0 = [] ->
  exists st',
    DistributeCache p block st = Done tt st' /\
    feehistory_db st'
    = <[fmt_d (next_id st) := fmt_d block +:+ ":" +:+ fmt_u p +:+ ":0:"]>
        (feehistory_db st) /\
    world st' = world st /\
    history st' p = Some (pruned block (rewritten block 0 h)).
Proof.
  intros Hh Hb Hzero Hnone.
  rewrite (DistributeCache_steps _ _ _ _ Hh). cbv zeta.
  rewrite Hzero, Hnone. cbn [rev credit_all fst snd].
  change (to_int64 (sum_shares []) =? 0) with true. cbv iota.
  set (st1 := with_feehistory_db _ _).
  assert (history st1 p = Some h) as Hh1 by exact Hh.
  destruct (ClearCache_run st1 p block h Hh1 Hb) as (st' & -> & Hstep & Hh').
  exists st'. split; [done|]. split; [|split; [|done]].
  - now rewrite (step_feehistory _ _ _ Hstep).
  - now rewrite (step_world _ _ _ Hstep).
Qed.

Lemma X20_witness :
  exists st',
    DistributeCache (H := example_short_node) 3 101
      (example_state [("0000000003", "100:0")]) = Done tt st' /\
    feehistory_db st'
    = <[fmt_d (next_id (example_state [("0000000003", "100:0")])) :=
          fmt_d 101 +:+ ":" +:+ fmt_u 3 +:+ ":0:"]>
        (feehistory_db (example_state [("0000000003", "100:0")])) /\
    world st' = world (example_state [("0000000003", "100:0")]) /\
    history st' 3
    = Some (pruned (H := example_short_node) 101 (rewritten 101 0 [(100, 0)])).
Proof.
  apply (X20_zero_cache_is_still_recorded (H := example_short_node)
           (example_state [("0000000003", "100:0")]) 3 101 [(100, 0)]).
  - reflexivity.
  - unfold is_int, INT_MIN, INT_MAX. lia.
  - reflexivity.
  - reflexivity.
Defined.

(** X21. A balance credit that fails stops [DistributeCache] at the assertion
    before anything is stored: no fee history record is written and the
    cache keeps its amount; the ledger is left as the failing credit left
    it. *)
Theorem X21_failed_credit_stores_nothing
  {W : Type} `{Collaborators W} (st : State W) (p : N) (block : Z)
  (h : list feeCacheItem) (w' : W) :
  history st p = Some h ->
  credit_all (world st) p (rev (receivers_for (world st) p (cached h))) = (false, w') ->
  exists sx,
    DistributeCache p block st = Abort AssertionFailed sx /\
    world sx = w' /\
    feehistory_db sx = feehistory_db st /\
    feecache_db sx = feecache_db st /\
    GetCachedAmount p sx = Done (cached h) sx.
Proof.
  intros Hh Hcredit.
  rewrite (DistributeCache_steps _ _ _ _ Hh). cbv zeta.
  rewrite Hcredit. cbn [fst snd].
  eexists. split; [reflexivity|]. split; [done|]. split; [done|]. split; [done|].
  now apply GetCachedAmount_run.
Qed.

Lemma X21_witness :
  exists sx,
    DistributeCache (H := example_node true false) 3 101
      (example_state [("0000000003", "100:1")]) = Abort AssertionFailed sx /\
    world sx = [("addrB", 3%N, 0)] /\
    feehistory_db sx = feehistory_db (example_state [("0000000003", "100:1")]) /\
    feecache_db sx = feecache_db (example_state [("0000000003", "100:1")]) /\
    GetCachedAmount 3 sx = Done (cached [(100, 1)]) sx.
Proof.
  apply (X21_failed_credit_stores_nothing (H := example_node true false)
           (example_state [("0000000003", "100:1")]) 3 101 [(100, 1)]
           [("addrB", 3%N, 0)]); reflexivity.
Defined.

(** X22. The check that everything was sent comes last: when the credits
    succeed but the amount sent differs from the cached amount,
    [DistributeCache] stops at the assertion with the receivers already
    credited and the fee history record for the amount sent already written,
    while the cache still holds its amount. *)
Theorem X22_shortfall_is_detected_after_the_payout
  {W : Type} `{Collaborators W} (st : State W) (p : N) (block : Z)
  (h : list feeCacheItem) (w' : W) :
  history st p = Some h ->
  credit_all (world st) p (rev (receivers_for (world st) p (cached h))) = (true, w') ->
  to_int64 (sum_shares (rev (receivers_for (world st) p (cached h)))) <> cached h ->
  exists sx,
    DistributeCache p block st = Abort AssertionFailed sx /\
    world sx = w' /\
    feehistory_db sx
    = <[fmt_d (next_id st) :=
          record_text p block
            (to_int64 (sum_shares (rev (receivers_for (world st) p (cached h)))))
            (recipients_of (rev (receivers_for (world st) p (cached h))))]>
        (feehistory_db st) /\
    feecache_db sx = feecache_db st /\
    GetCachedAmount p sx = Done (cached h) sx.
Proof.
  intros Hh Hcredit Hne.
  rewrite (DistributeCache_steps _ _ _ _ Hh). cbv zeta.
  rewrite Hcredit. cbn [fst snd].
  apply Z.eqb_neq in Hne. rewrite Hne.
  eexists. split; [reflexivity|]. split; [done|]. split; [done|]. split; [done|].
  now apply GetCachedAmount_run.
Qed.

Lemma X22_witness :
  exists sx,
    DistributeCache (H := example_short_node) 3 101
      (example_state [("0000000003", "100:50")]) = Abort AssertionFailed sx /\
    world sx = [("addrA", 3%N, 25)] /\
    feehistory_db sx
    = <[fmt_d (next_id (example_state [("0000000003", "100:50")])) :=
          record_text 3 101
            (to_int64
               (sum_shares
                  (rev (receivers_for (H := example_short_node)
                          (world (example_state [("0000000003", "100:50")])) 3
                          (cached [(100, 50)])))))
            (recipients_of
               (rev (receivers_for (H := example_short_node)
                       (world (example_state [("0000000003", "100:50")])) 3
                       (cached [(100, 50)]))))]>
        (feehistory_db (example_state [("0000000003", "100:50")])) /\
    feecache_db sx = feecache_db (example_state [("0000000003", "100:50")]) /\
    GetCachedAmount 3 sx = Done (cached [(100, 50)]) sx.
Proof.
  apply (X22_shortfall_is_detected_after_the_payout (H := example_short_node)
           (example_state [("0000000003", "100:50")]) 3 101 [(100, 50)]
           [("addrA", 3%N, 25)]).
  - reflexivity.
  - reflexivity.
  - vm_compute. discriminate.
Defined.
